(** * Metrics extraction script of the DRL task-offloading simulations

    A shallow embedding of [results/data/20250730_225303/extract_metrics.py]
    and the verification of its specification.

    The script reads up to three simulation logs, pulls three metrics out
    of each with regular expressions, keeps them in the module-level
    dictionary [metrics], and writes three CSV files and one JSON file.

    Modelling conventions.
    - A text is a list of characters with a code below 256, the range
      that a character of this development has.  On that range [\d] and
      [\w] are the classes that [re] uses for [str] patterns: the ten
      digits, and the letters, digits and underscore of ASCII together
      with the 71 letters and numeric characters between 170 and 255.
    - Python's [int] and [float] objects are the two constructors of
      [value]; a float is an IEEE-754 binary64 number ([spec_float] with
      precision 53 and maximal exponent 1024).
    - Decimal strings are converted to floats, and floats to their
      repr, with correct rounding, as CPython does.
    - A Python [dict] is an association list in insertion order.
    - An exception leaves the assignments made before it in place, so a
      run records both how it ended and the store it ended with.
    - The results directory is a map from paths to texts, for reading,
      and a set of paths that can be opened for writing. *)

From Stdlib Require Import ZArith List String Ascii Bool Arith Lia.
From Stdlib Require Import SpecFloat.
From Stdlib Require Decimal DecimalFacts DecimalPos.
Import ListNotations.

Local Open Scope list_scope.

(** ** Texts and character classes *)

Definition text := list ascii.

(** [txt "abc"] is the text of a string literal. *)
Definition txt (s : string) : text := list_ascii_of_string s.

Definition code (c : ascii) : N := N_of_ascii c.

Definition between (lo hi : N) (c : ascii) : bool :=
  (N.leb lo (code c) && N.leb (code c) hi)%bool.

(** [\d]: below code 256 the only decimal digits are [0] to [9]. *)
Definition is_digit (c : ascii) : bool := between 48 57 c.

(** The characters from code 128 on that [str.isalnum] accepts: the
    ordinal indicators (170, 186), the superscripts 2, 3 and 1 (178, 179,
    185), the micro sign (181), the three fractions (188 to 190) and the
    letters from 192 on, which leaves out the multiplication sign (215)
    and the division sign (247). *)
Definition is_latin1_word (c : ascii) : bool :=
  (between 170 170 c || between 178 179 c || between 181 181 c
   || between 185 186 c || between 188 190 c || between 192 214 c
   || between 216 246 c || between 248 255 c)%bool.

(** [\w]: letters, digits and the underscore. *)
Definition is_word (c : ascii) : bool :=
  (between 97 122 c || between 65 90 c || is_digit c || Ascii.eqb c "_"
   || is_latin1_word c)%bool.

Definition is_hyphen (c : ascii) : bool := Ascii.eqb c "-".

(** [[\d\.]]: a digit or a dot. *)
Definition is_digit_or_dot (c : ascii) : bool :=
  (is_digit c || Ascii.eqb c ".")%bool.

(** The longest prefix of characters of a class, and what follows it. *)
Fixpoint span (f : ascii -> bool) (s : text) : text * text :=
  match s with
  | c :: s' =>
      if f c then let (run, rest) := span f s' in (c :: run, rest)
      else ([], s)
  | [] => ([], [])
  end.

(** ** Regular expressions

    The three patterns of the script are sequences of atoms: a character
    class under one of the quantifiers (none), [?], [*], [+], all greedy,
    inside capture group [group] (0 for no group).  [match_atoms] is the
    backtracking matcher of [re]: every quantifier first takes as many
    characters as it can and gives them back one at a time while the rest
    of the pattern fails. *)

Module Re.

Inductive quant := One | Opt | Star | Plus.

Record atom := Atom {
  accepts : ascii -> bool;
  times : quant;
  group : nat
}.

Definition pattern := list atom.

(** A literal string is one atom per character. *)
Definition lit_atoms (l : text) : pattern :=
  map (fun c => Atom (Ascii.eqb c) One 0) l.

Definition lit (s : string) : pattern := lit_atoms (txt s).

(** [greedy f k s]: take the longest run of [f] first; [k run rest] is
    the rest of the match; on failure retry with a shorter run. *)
Fixpoint greedy {R : Type} (f : ascii -> bool)
         (k : text -> text -> option R) (s : text) : option R :=
  match s with
  | c :: s' =>
      if f c then
        match greedy f (fun run => k (c :: run)) s' with
        | Some r => Some r
        | None => k [] s
        end
      else k [] s
  | [] => k [] s
  end.

(** The result of a match: the text each atom consumed, and the rest. *)
Definition captured := list text.

(** What the atoms of a literal consume: one character each. *)
Definition singles (l : text) : captured := map (fun c => [c]) l.

Definition push (run : text) (r : option (captured * text))
  : option (captured * text) :=
  match r with
  | Some (runs, rest) => Some (run :: runs, rest)
  | None => None
  end.

(** One atom, with [k run rest] the rest of the match. *)
Definition match_atom {R : Type} (a : atom) (k : text -> text -> option R)
           (s : text) : option R :=
  match times a with
  | One =>
      match s with
      | c :: s' => if accepts a c then k [c] s' else None
      | [] => None
      end
  | Opt =>
      match s with
      | c :: s' =>
          if accepts a c then
            match k [c] s' with
            | Some r => Some r
            | None => k [] s
            end
          else k [] s
      | [] => k [] s
      end
  | Star => greedy (accepts a) k s
  | Plus =>
      match s with
      | c :: s' =>
          if accepts a c
          then greedy (accepts a) (fun run => k (c :: run)) s'
          else None
      | [] => None
      end
  end.

Fixpoint match_atoms (p : pattern) (s : text) : option (captured * text) :=
  match p with
  | [] => Some ([], s)
  | a :: p' => match_atom a (fun run rest => push run (match_atoms p' rest)) s
  end.

(** [m.group(n)]: the text consumed by the atoms of group [n]. *)
Fixpoint group_text (n : nat) (p : pattern) (runs : captured) : text :=
  match p, runs with
  | a :: p', run :: runs' =>
      if Nat.eqb (group a) n then run ++ group_text n p' runs'
      else group_text n p' runs'
  | _, _ => []
  end.

(** [re.search]: the match at the leftmost position that has one. *)
Fixpoint search (p : pattern) (s : text) : option captured :=
  match match_atoms p s with
  | Some (runs, _) => Some runs
  | None =>
      match s with
      | [] => None
      | _ :: s' => search p s'
      end
  end.

(** [re.findall]: the matches from left to right, without overlap.
    [skip] counts the characters still covered by the last match.  None
    of the script's patterns matches the empty text, so the special
    treatment of empty matches does not arise. *)
Fixpoint findall_from (p : pattern) (skip : nat) (s : text) : list captured :=
  match s with
  | [] => []
  | _ :: s' =>
      match skip with
      | S n => findall_from p n s'
      | O =>
          match match_atoms p s with
          | Some (runs, rest) =>
              runs :: findall_from p (List.length s - List.length rest - 1) s'
          | None => findall_from p 0 s'
          end
      end
  end.

Definition findall (p : pattern) (s : text) : list captured :=
  findall_from p 0 s.

End Re.

(** ** The three patterns of [extract_metrics] *)

(** The literal [EXECUTION TIME : ] and then group 1, [\d+]. *)
Definition time_pattern : Re.pattern :=
  Re.lit "EXECUTION TIME : " ++ [Re.Atom is_digit Re.Plus 1].

(** Group 1 is the name, [\w+-?\w*-?\w*]. *)
Definition name_atoms : Re.pattern :=
  [Re.Atom is_word Re.Plus 1; Re.Atom is_hyphen Re.Opt 1;
   Re.Atom is_word Re.Star 1; Re.Atom is_hyphen Re.Opt 1;
   Re.Atom is_word Re.Star 1].

(** The name, the literal [ : Energy Consumed = ] and then group 2,
    [[\d\.]+]. *)
Definition energy_pattern : Re.pattern :=
  name_atoms ++ Re.lit " : Energy Consumed = "
             ++ [Re.Atom is_digit_or_dot Re.Plus 2].

(** The literal [Total network usage = ] and then group 1, [[\d\.]+]. *)
Definition network_pattern : Re.pattern :=
  Re.lit "Total network usage = " ++ [Re.Atom is_digit_or_dot Re.Plus 1].

(** ** Numbers *)

Local Open Scope Z_scope.

Definition float := spec_float.

Definition prec : Z := 53.
Definition emax : Z := 1024.

Definition fadd : float -> float -> float := SFadd prec emax.
Definition fsub : float -> float -> float := SFsub prec emax.
Definition fzero : float := S754_zero false.

(** A Python number: an [int] or a [float]. *)
Inductive value :=
  | VInt (z : Z)
  | VFloat (f : float).

(** The exceptions of a run: [ValueError], which [int] and [float] raise
    on a bad string, and [OSError], which [open] raises on a path that it
    cannot open. *)
Inductive exn :=
  | ValueError (token : text)
  | OSError (path : string).

(** What the model takes from the interpreter that runs the script.
    - [max_str_digits]: the limit on the length of a string that [int]
      converts (4300 by default since CPython 3.11, 0 for no limit);
    - [compensated_sum]: whether [sum] adds floats with Neumaier's
      compensation (CPython 3.12 and later) or plainly from the left;
    - [float_repr]: [float.__repr__].  Where [sys.float_repr_style] is
      [short], as on every current platform, it is [short_repr] below:
      the shortest decimal string that reads back as the same float. *)
Record interp := Interp {
  max_str_digits : nat;
  compensated_sum : bool;
  float_repr : float -> text
}.

Definition digit_value (c : ascii) : Z := Z.of_N (code c) - 48.

(** The number that a string of decimal digits denotes. *)
Definition digits_value (ds : text) : Z :=
  fold_left (fun acc c => 10 * acc + digit_value c) ds 0.

(** [int(ds)] for a string of digits. *)
Definition py_int (py : interp) (ds : text) : exn + Z :=
  match max_str_digits py with
  | O => inr (digits_value ds)
  | S _ =>
      if Nat.ltb (max_str_digits py) (List.length ds)
      then inl (ValueError ds)
      else inr (digits_value ds)
  end.

(** The float nearest to [(-1)^neg * m * 10^e10], ties to even, for
    [m >= 0]: the decimal-to-binary conversion of [float]. *)
Definition decimal_float (neg : bool) (m : Z) (e10 : Z) : float :=
  match m with
  | Zpos p =>
      if 0 <=? e10
      then binary_normalize prec emax
             (if neg then Zneg p * 10 ^ e10 else Zpos p * 10 ^ e10) 0 false
      else SFdiv prec emax (S754_finite neg p 0)
                 (S754_finite false (Z.to_pos (10 ^ (- e10))) 0)
  | _ => S754_zero neg
  end.

Definition is_nil {A : Type} (l : list A) : bool :=
  match l with [] => true | _ => false end.

(** [float(tok)] for a string of digits and dots, which is all that group
    [[\d\.]+] can capture: digits with at most one dot among them, and at
    least one digit.  Anything else raises [ValueError]. *)
Definition py_float (tok : text) : exn + float :=
  let (ip, r) := span is_digit tok in
  match r with
  | [] =>
      if is_nil ip then inl (ValueError tok)
      else inr (decimal_float false (digits_value ip) 0)
  | c :: fp =>
      if (Ascii.eqb c "." && forallb is_digit fp
          && negb (is_nil ip && is_nil fp))%bool
      then inr (decimal_float false (digits_value (ip ++ fp))
                              (- Z.of_nat (List.length fp)))
      else inl (ValueError tok)
  end.

(** [float(tok) for tok in toks], drained from the left as [sum] does:
    the first bad string raises. *)
Fixpoint py_floats (toks : list text) : exn + list float :=
  match toks with
  | [] => inr []
  | tok :: toks' =>
      match py_float tok with
      | inl e => inl e
      | inr f =>
          match py_floats toks' with
          | inl e => inl e
          | inr fs => inr (f :: fs)
          end
      end
  end.

(** The conversion of an [int] operand to [float], as in [0 + x]. *)
Definition float_of_int (z : Z) : float := binary_normalize prec emax z 0 false.

(** The float loop of [sum] with Neumaier's compensation: [f] is the
    running sum and [c] the running compensation. *)
Fixpoint neumaier (f c : float) (xs : list float) : float :=
  match xs with
  | [] =>
      match c with
      | S754_finite _ _ _ => fadd f c
      | _ => f
      end
  | x :: xs' =>
      let t := fadd f x in
      let c' := if SFleb (SFabs x) (SFabs f)
                then fadd c (fadd (fsub f t) x)
                else fadd c (fadd (fsub x t) f) in
      neumaier t c' xs'
  end.

(** [sum(xs)] for floats [xs]: the start value is the [int] 0, which is
    what an empty [xs] returns. *)
Definition py_sum (py : interp) (xs : list float) : value :=
  match xs with
  | [] => VInt 0
  | x :: xs' =>
      let f := fadd (float_of_int 0) x in
      VFloat (if compensated_sum py then neumaier f fzero xs'
              else fold_left fadd xs' f)
  end.

(** [a == b] on numbers; an [int] and a [float] are compared exactly. *)
Definition int_eq_float (x : Z) (f : float) : bool :=
  match f with
  | S754_zero _ => x =? 0
  | S754_finite s m e =>
      let n := if s then Zneg m else Zpos m in
      if 0 <=? e then x =? n * 2 ^ e else x * 2 ^ (- e) =? n
  | _ => false
  end.

Definition py_eq (a b : value) : bool :=
  match a, b with
  | VInt x, VInt y => x =? y
  | VInt x, VFloat g => int_eq_float x g
  | VFloat f, VInt y => int_eq_float y f
  | VFloat f, VFloat g => SFeqb f g
  end.

(** ** Dictionaries and the metric store *)

(** A [dict] with string keys, in insertion order. *)
Definition dict := list (string * value).

Fixpoint dict_get (k : string) (d : dict) : option value :=
  match d with
  | [] => None
  | (k', v) :: d' => if String.eqb k k' then Some v else dict_get k d'
  end.

(** [d[k] = v]: a present key keeps its place, a new key goes last. *)
Fixpoint dict_set (k : string) (v : value) (d : dict) : dict :=
  match d with
  | [] => [(k, v)]
  | (k', v') :: d' =>
      if String.eqb k k' then (k, v) :: d' else (k', v') :: dict_set k v d'
  end.

Definition keys (d : dict) : list string := map fst d.

(** The three metric categories, in the order the script lists them. *)
Inductive metric := ExecutionTime | EnergyConsumption | NetworkUsage.

Definition metric_name (m : metric) : string :=
  match m with
  | ExecutionTime => "execution_time"
  | EnergyConsumption => "energy_consumption"
  | NetworkUsage => "network_usage"
  end.

Definition all_metrics : list metric :=
  [ExecutionTime; EnergyConsumption; NetworkUsage].

(** The module-level dictionary [metrics]. *)
Record MetricStore := Store {
  execution_time : dict;
  energy_consumption : dict;
  network_usage : dict
}.

Definition metrics : MetricStore := Store [] [] [].

Definition mapping (m : metric) (st : MetricStore) : dict :=
  match m with
  | ExecutionTime => execution_time st
  | EnergyConsumption => energy_consumption st
  | NetworkUsage => network_usage st
  end.

(** [metrics[m][k] = v] *)
Definition store_set (m : metric) (k : string) (v : value)
           (st : MetricStore) : MetricStore :=
  match m with
  | ExecutionTime =>
      Store (dict_set k v (execution_time st)) (energy_consumption st)
            (network_usage st)
  | EnergyConsumption =>
      Store (execution_time st) (dict_set k v (energy_consumption st))
            (network_usage st)
  | NetworkUsage =>
      Store (execution_time st) (energy_consumption st)
            (dict_set k v (network_usage st))
  end.

(** ** Computations over the store

    A computation starts from a store and ends by returning or by
    raising; either way it leaves a store behind ([final]), and [trail]
    lists the store after each assignment it made, oldest first. *)

Inductive outcome (A : Type) :=
  | Returned (a : A)
  | Raised (e : exn).
Arguments Returned {A} a.
Arguments Raised {A} e.

Record run (A : Type) := Run {
  result : outcome A;
  final : MetricStore;
  trail : list MetricStore
}.
Arguments Run {A} _ _ _.
Arguments result {A} _.
Arguments final {A} _.
Arguments trail {A} _.

Definition M (A : Type) := MetricStore -> run A.

Definition ret {A : Type} (a : A) : M A := fun st => Run (Returned a) st [].

Definition raise {A : Type} (e : exn) : M A := fun st => Run (Raised e) st [].

Definition bind {A B : Type} (m : M A) (f : A -> M B) : M B :=
  fun st =>
    let r := m st in
    match result r with
    | Returned a =>
        let r' := f a (final r) in
        Run (result r') (final r') (trail r ++ trail r')
    | Raised e => Run (Raised e) (final r) (trail r)
    end.

Definition assign (m : metric) (k : string) (v : value) : M unit :=
  fun st => let st' := store_set m k v st in Run (Returned tt) st' [st'].

Notation "x <- m ;; f" := (bind m (fun x => f))
  (at level 61, m at next level, right associativity).
Notation "m ;; f" := (bind m (fun _ => f))
  (at level 61, right associativity).

(** A conversion that returns or raises, as a computation. *)
Definition lift {A : Type} (x : exn + A) : M A :=
  match x with
  | inr a => ret a
  | inl e => raise e
  end.

(** ** [extract_metrics] *)

(** [m.group(1)] of the execution-time match, if there is one. *)
Definition time_token (content : text) : option text :=
  option_map (Re.group_text 1 time_pattern) (Re.search time_pattern content).

(** The second components of [energy_matches]. *)
Definition energy_tokens (content : text) : list text :=
  map (Re.group_text 2 energy_pattern) (Re.findall energy_pattern content).

(** [m.group(1)] of the network-usage match, if there is one. *)
Definition network_token (content : text) : option text :=
  option_map (Re.group_text 1 network_pattern)
             (Re.search network_pattern content).

(** [extract_metrics(filename, simulation_type)], from the point where
    [content] has been read. *)
Definition extract_metrics (py : interp) (content : text)
           (simulation_type : string) : M unit :=
  (* Extract execution time *)
  match time_token content with
  | Some ds =>
      n <- lift (py_int py ds) ;;
      assign ExecutionTime simulation_type (VInt n)
  | None => ret tt
  end ;;
  (* Extract energy consumption *)
  fs <- lift (py_floats (energy_tokens content)) ;;
  assign EnergyConsumption simulation_type (py_sum py fs) ;;
  (* Extract network usage *)
  match network_token content with
  | Some tok =>
      f <- lift (py_float tok) ;;
      assign NetworkUsage simulation_type (VFloat f)
  | None => ret tt
  end.

(** ** The script *)

Definition results_dir : string := "./results/data/20250730_225303".

Definition in_results_dir (name : string) : string :=
  (results_dir ++ "/" ++ name)%string.

(** The files of the results directory: a path that exists has a text.
    A file that exists but cannot be read or decoded, which ends the run
    with an I/O error, is not modelled. *)
Definition files := string -> option text.

(** The three logs and their labels, in processing order. *)
Definition simple_log : string := in_results_dir "simple_drl_results.txt".
Definition learnable_log : string := in_results_dir "learnable_drl_results.txt".
Definition full_log : string := in_results_dir "full_drl_results.txt".

Definition inputs : list (string * string) :=
  [(simple_log, "Simple"); (learnable_log, "Learnable"); (full_log, "Full")]%string.

Definition labels : list string := map snd inputs.

(** [if os.path.exists(path): extract_metrics(path, label)] *)
Definition process_file (py : interp) (fs : files) (path label : string)
  : M unit :=
  match fs path with
  | Some content => extract_metrics py content label
  | None => ret tt
  end.

(** The three guarded calls, in the order of the script. *)
Definition process (py : interp) (fs : files) : M unit :=
  process_file py fs simple_log "Simple" ;;
  process_file py fs learnable_log "Learnable" ;;
  process_file py fs full_log "Full".

(** The same three calls as one loop over [inputs]. *)
Fixpoint process_files (py : interp) (fs : files)
         (ins : list (string * string)) : M unit :=
  match ins with
  | [] => ret tt
  | (path, label) :: ins' =>
      process_file py fs path label ;; process_files py fs ins'
  end.

(** ** The output files *)

Definition nl : ascii := "010"%char.
Definition cr : ascii := "013"%char.
Definition dquote : ascii := "034"%char.
Definition backslash : ascii := "092"%char.

Fixpoint join (sep : text) (parts : list text) : text :=
  match parts with
  | [] => []
  | p :: ps =>
      match ps with
      | [] => p
      | _ => p ++ sep ++ join sep ps
      end
  end.

(** The decimal digits of a number, most significant first. *)
Fixpoint uint_text (d : Decimal.uint) : text :=
  match d with
  | Decimal.Nil => []
  | Decimal.D0 d => "0"%char :: uint_text d
  | Decimal.D1 d => "1"%char :: uint_text d
  | Decimal.D2 d => "2"%char :: uint_text d
  | Decimal.D3 d => "3"%char :: uint_text d
  | Decimal.D4 d => "4"%char :: uint_text d
  | Decimal.D5 d => "5"%char :: uint_text d
  | Decimal.D6 d => "6"%char :: uint_text d
  | Decimal.D7 d => "7"%char :: uint_text d
  | Decimal.D8 d => "8"%char :: uint_text d
  | Decimal.D9 d => "9"%char :: uint_text d
  end.

(** [str(z)] for an [int]. *)
Definition int_repr (z : Z) : text :=
  match z with
  | Z0 => txt "0"
  | Zpos p => uint_text (Pos.to_uint p)
  | Zneg p => "-"%char :: uint_text (Pos.to_uint p)
  end.

(** [str(v)], which is what [csv.writer] writes for a number. *)
Definition py_str (py : interp) (v : value) : text :=
  match v with
  | VInt z => int_repr z
  | VFloat f => float_repr py f
  end.

(** *** CSV *)

Inductive cell :=
  | CStr (s : string)
  | CNum (v : value).

Definition row := list cell.

(** The rows that the writer loop passes to [writerow] for one
    category. *)
Definition csv_rows (m : metric) (d : dict) : list row :=
  [CStr "Simulation Type"; CStr (metric_name m)]
    :: map (fun kv => [CStr (fst kv); CNum (snd kv)]) d.

(** The default dialect: fields joined by commas, rows ended by CR LF, a
    field quoted only when it holds a comma, a quote, CR or LF, and a
    quote inside a quoted field doubled. *)
Definition csv_special (c : ascii) : bool :=
  (Ascii.eqb c "," || Ascii.eqb c dquote || Ascii.eqb c cr || Ascii.eqb c nl)%bool.

Definition csv_field (t : text) : text :=
  if existsb csv_special t
  then dquote :: flat_map (fun c => if Ascii.eqb c dquote then [c; c] else [c]) t
              ++ [dquote]
  else t.

Definition cell_text (py : interp) (c : cell) : text :=
  match c with
  | CStr s => txt s
  | CNum v => py_str py v
  end.

Definition csv_line (py : interp) (r : row) : text :=
  join (txt ",") (map (fun c => csv_field (cell_text py c)) r) ++ [cr; nl].

Definition csv_text (py : interp) (rows : list row) : text :=
  flat_map (csv_line py) rows.

Definition csv_path (m : metric) : string :=
  in_results_dir (metric_name m ++ ".csv").

(** *** JSON *)

(** The literal that [json.dump] writes for a number. *)
Definition json_number (py : interp) (v : value) : text :=
  match v with
  | VInt z => int_repr z
  | VFloat S754_nan => txt "NaN"
  | VFloat (S754_infinity false) => txt "Infinity"
  | VFloat (S754_infinity true) => txt "-Infinity"
  | VFloat f => float_repr py f
  end.

Definition hex_digit (n : N) : ascii :=
  if (n <? 10)%N then ascii_of_N (48 + n) else ascii_of_N (87 + n).

(** A string literal with [ensure_ascii]: quote and backslash escaped,
    the short escapes for the usual control characters, [\u00XX] for
    what else lies outside [' '..'~']. *)
Definition json_char (c : ascii) : text :=
  if Ascii.eqb c dquote then [backslash; dquote]
  else if Ascii.eqb c backslash then [backslash; backslash]
  else if Ascii.eqb c nl then [backslash; "n"%char]
  else if Ascii.eqb c cr then [backslash; "r"%char]
  else if Ascii.eqb c "009" then [backslash; "t"%char]
  else if Ascii.eqb c "008" then [backslash; "b"%char]
  else if Ascii.eqb c "012" then [backslash; "f"%char]
  else if between 32 126 c then [c]
  else [backslash; "u"%char; "0"%char; "0"%char;
        hex_digit (code c / 16); hex_digit (code c mod 16)].

Definition json_string (s : string) : text :=
  dquote :: flat_map json_char (txt s) ++ [dquote].

(** An object one level below the top, with [indent=2]. *)
Definition json_inner (py : interp) (d : dict) : text :=
  match d with
  | [] => txt "{}"
  | _ =>
      txt "{" ++ [nl]
      ++ join (txt "," ++ [nl])
           (map (fun kv => txt "    " ++ json_string (fst kv) ++ txt ": "
                           ++ json_number py (snd kv)) d)
      ++ [nl] ++ txt "  }"
  end.

(** [json.dump(metrics, jsonfile, indent=2)] *)
Definition json_text (py : interp) (st : MetricStore) : text :=
  txt "{" ++ [nl]
  ++ join (txt "," ++ [nl])
       (map (fun m => txt "  " ++ json_string (metric_name m) ++ txt ": "
                      ++ json_inner py (mapping m st)) all_metrics)
  ++ [nl] ++ txt "}".

Definition json_path : string := in_results_dir "all_metrics.json".

(** How [json.load] reads a number literal back: the constants, then an
    optional minus sign, an integer part without a leading zero, an
    optional fraction and an optional exponent.  A literal with neither
    fraction nor exponent is an [int], any other a [float]. *)
Fixpoint text_eqb (a b : text) : bool :=
  match a, b with
  | [], [] => true
  | x :: a', y :: b' => (Ascii.eqb x y && text_eqb a' b')%bool
  | _, _ => false
  end.

Definition int_part_ok (ip : text) : bool :=
  match ip with
  | [] => false
  | c :: rest => (negb (Ascii.eqb c "0") || is_nil rest)%bool
  end.

(** The exponent part: [e] or [E], an optional sign, digits. *)
Definition json_exponent (t : text) : option Z :=
  match t with
  | c :: t' =>
      if (Ascii.eqb c "e" || Ascii.eqb c "E")%bool then
        let (neg, ds) :=
          match t' with
          | s :: t'' =>
              if Ascii.eqb s "-" then (true, t'')
              else if Ascii.eqb s "+" then (false, t'')
              else (false, t')
          | [] => (false, t')
          end in
        if (negb (is_nil ds) && forallb is_digit ds)%bool
        then Some (if neg then - digits_value ds else digits_value ds)
        else None
      else None
  | [] => None
  end.

Definition json_decode_number (lit : text) : option value :=
  if text_eqb lit (txt "NaN") then Some (VFloat S754_nan)
  else if text_eqb lit (txt "Infinity") then Some (VFloat (S754_infinity false))
  else if text_eqb lit (txt "-Infinity") then Some (VFloat (S754_infinity true))
  else
    let (neg, body) :=
      match lit with
      | c :: t => if Ascii.eqb c "-" then (true, t) else (false, lit)
      | [] => (false, lit)
      end in
    let (ip, r) := span is_digit body in
    if int_part_ok ip then
      match r with
      | [] => Some (VInt (if neg then - digits_value ip else digits_value ip))
      | c :: t =>
          if Ascii.eqb c "." then
            let (fp, r') := span is_digit t in
            if is_nil fp then None
            else
              let m := digits_value (ip ++ fp) in
              let k := Z.of_nat (List.length fp) in
              match r' with
              | [] => Some (VFloat (decimal_float neg m (- k)))
              | _ =>
                  match json_exponent r' with
                  | Some e => Some (VFloat (decimal_float neg m (e - k)))
                  | None => None
                  end
              end
          else
            match json_exponent r with
            | Some e => Some (VFloat (decimal_float neg (digits_value ip) e))
            | None => None
            end
      end
    else None.

(** *** [float.__repr__]

    The repr of a finite float is made of the fewest digits that read
    back as the float; of two such strings of digits, of the one nearer
    to the float.  For a number of digits [n], the two decimals nearest
    to the float are tried, the nearer one first. *)

(** The same float, bit for bit. *)
Definition float_eqb (a b : float) : bool :=
  match a, b with
  | S754_zero s, S754_zero s' => Bool.eqb s s'
  | S754_infinity s, S754_infinity s' => Bool.eqb s s'
  | S754_nan, S754_nan => true
  | S754_finite s m e, S754_finite s' m' e' =>
      (Bool.eqb s s' && Pos.eqb m m' && Z.eqb e e')%bool
  | _, _ => false
  end.

(** The text [t] reads as the float [f]; the reading of a float literal
    is that of [json_decode_number], which is the one of [float]. *)
Definition reads_as (f : float) (t : text) : bool :=
  match json_decode_number t with
  | Some (VFloat g) => float_eqb g f
  | _ => false
  end.

Fixpoint drop_zeros (ds : text) : text :=
  match ds with
  | c :: ds' => if Ascii.eqb c "0" then drop_zeros ds' else ds
  | [] => []
  end.

(** The digits without the zeros at their end. *)
Definition strip_zeros (ds : text) : text := rev (drop_zeros (rev ds)).

Definition zeros (n : nat) : text := repeat "0"%char n.

(** The exponent: a sign and at least two digits. *)
Definition exponent_text (e : Z) : text :=
  (if e <? 0 then "-"%char else "+"%char)
    :: match int_repr (Z.abs e) with
       | [d] => ["0"%char; d]
       | ds => ds
       end.

(** The digits [ds] with the decimal point after the first [decpt] of
    them: in scientific notation when [decpt] is below -3 or above 16,
    else in positional notation, with [.0] after an integer. *)
Definition format_short (ds : text) (decpt : Z) : text :=
  if ((decpt <=? -4) || (16 <? decpt))%bool then
    match ds with
    | d :: rest =>
        d :: (if is_nil rest then [] else "."%char :: rest)
          ++ "e"%char :: exponent_text (decpt - 1)
    | [] => []
    end
  else if decpt <=? 0 then
    txt "0." ++ zeros (Z.to_nat (- decpt)) ++ ds
  else if Z.of_nat (List.length ds) <=? decpt then
    ds ++ zeros (Z.to_nat decpt - List.length ds) ++ txt ".0"
  else
    firstn (Z.to_nat decpt) ds ++ "."%char :: skipn (Z.to_nat decpt) ds.

(** The sign of a negative number. *)
Definition sign_text (s : bool) : text := if s then ["-"%char] else [].

(** The text of [(-1)^s * M * 10^x]. *)
Definition decimal_text (s : bool) (M : positive) (x : Z) : text :=
  let ds := uint_text (Pos.to_uint M) in
  sign_text s
  ++ format_short (strip_zeros ds) (x + Z.of_nat (List.length ds)).

(** [m * 2^e] as a fraction, and a fraction divided by [10^x]. *)
Definition fraction (m : positive) (e : Z) : Z * Z :=
  if 0 <=? e then (Zpos m * 2 ^ e, 1) else (Zpos m, 2 ^ (- e)).

Definition scaled (nd : Z * Z) (x : Z) : Z * Z :=
  let (N, D) := nd in
  if 0 <=? x then (N, D * 10 ^ x) else (N * 10 ^ (- x), D).

(** The least [k] from [k0] on with [N / D < 10^k]. *)
Fixpoint first_above (nd : Z * Z) (k0 : Z) (fuel : nat) : Z :=
  match fuel with
  | O => k0
  | S fuel' =>
      let (N, D) := scaled nd k0 in
      if N <? D then k0 else first_above nd (k0 + 1) fuel'
  end.

(** The [k] with [10^(k-1) <= m * 2^e < 10^k], found from an estimate
    below it that the binary lengths give. *)
Definition decimal_point (m : positive) (e : Z) : Z :=
  let (N, D) := fraction m e in
  first_above (N, D) ((Z.log2 N - Z.log2 D) * 30103 / 100000 - 1) 3.

(** The decimals of [n] digits just below and just above [m * 2^e], the
    nearer one first (on a tie, the one with the even last digit). *)
Definition candidates (s : bool) (m : positive) (e : Z) (k n : Z)
  : list text :=
  let x := k - n in
  let (N, D) := scaled (fraction m e) x in
  let lo := N / D in
  let r := N mod D in
  let below := decimal_text s (Z.to_pos lo) x in
  let above := decimal_text s (Z.to_pos (lo + 1)) x in
  if r =? 0 then [below]
  else if 2 * r <? D then [below; above]
  else if 2 * r =? D then (if Z.even lo then [below; above] else [above; below])
  else [above; below].

(** The first text that reads back, for [n], [n + 1], ... digits. *)
Fixpoint shortest (s : bool) (m : positive) (e : Z) (k n : Z) (fuel : nat)
  : option text :=
  match fuel with
  | O => None
  | S fuel' =>
      match find (reads_as (S754_finite s m e)) (candidates s m e k n) with
      | Some t => Some t
      | None => shortest s m e k (n + 1) fuel'
      end
  end.

(** The search ends within 17 digits for a binary64 number, a fact of
    floating-point arithmetic that is not proved here: [repr_found]
    below says that it does for a given float.  Where it did not, the
    nearest decimal of 17 digits stands for the repr. *)
Definition short_repr (f : float) : text :=
  match f with
  | S754_nan => txt "nan"
  | S754_infinity s => if s then txt "-inf" else txt "inf"
  | S754_zero s => if s then txt "-0.0" else txt "0.0"
  | S754_finite s m e =>
      let k := decimal_point m e in
      match shortest s m e k 1 17 with
      | Some t => t
      | None => hd [] (candidates s m e k 17)
      end
  end.

(** *** Reading the JSON file back

    [json_load] is [json.load] on the documents made of objects and
    numbers, which is what the script writes: [None] stands for a text
    that is no JSON document, or has a value of another kind.  An object
    is read as a [dict]: of two members with the same key the second
    replaces the value of the first. *)

#[warnings="-register-all"] Inductive json :=
  | JNumber (v : value)
  | JObject (members : list (string * json)).

Fixpoint jset (k : string) (j : json) (ms : list (string * json))
  : list (string * json) :=
  match ms with
  | [] => [(k, j)]
  | (k', j') :: ms' =>
      if String.eqb k k' then (k, j) :: ms' else (k', j') :: jset k j ms'
  end.

Definition is_ws (c : ascii) : bool :=
  (Ascii.eqb c " " || Ascii.eqb c "009" || Ascii.eqb c nl || Ascii.eqb c cr)%bool.

Definition skip_ws (t : text) : text := snd (span is_ws t).

Definition hex_value (c : ascii) : option N :=
  if is_digit c then Some (code c - 48)%N
  else if between 97 102 c then Some (code c - 87)%N
  else if between 65 70 c then Some (code c - 55)%N
  else None.

(** The character that a backslash and [c] stand for. *)
Definition unescape (c : ascii) : option ascii :=
  if Ascii.eqb c dquote then Some dquote
  else if Ascii.eqb c backslash then Some backslash
  else if Ascii.eqb c "/" then Some "/"%char
  else if Ascii.eqb c "b" then Some "008"%char
  else if Ascii.eqb c "f" then Some "012"%char
  else if Ascii.eqb c "n" then Some nl
  else if Ascii.eqb c "r" then Some cr
  else if Ascii.eqb c "t" then Some "009"%char
  else None.

Definition keep (c : ascii) (r : option (text * text)) : option (text * text) :=
  match r with
  | Some (s, rest) => Some (c :: s, rest)
  | None => None
  end.

(** A string from behind its opening quote: its characters and what
    follows the closing quote.  A control character ends the reading, and
    so does an escape [\uXXXX] of a character from code 256 on, which
    this development has not. *)
Fixpoint parse_chars (t : text) : option (text * text) :=
  match t with
  | [] => None
  | c :: t' =>
      if Ascii.eqb c dquote then Some ([], t')
      else if Ascii.eqb c backslash then
        match t' with
        | e :: t'' =>
            if Ascii.eqb e "u" then
              match t'' with
              | h1 :: h2 :: h3 :: h4 :: t3 =>
                  match hex_value h1, hex_value h2,
                        hex_value h3, hex_value h4 with
                  | Some 0%N, Some 0%N, Some a, Some b =>
                      keep (ascii_of_N (16 * a + b)) (parse_chars t3)
                  | _, _, _, _ => None
                  end
              | _ => None
              end
            else
              match unescape e with
              | Some x => keep x (parse_chars t'')
              | None => None
              end
        | [] => None
        end
      else if (code c <? 32)%N then None
      else keep c (parse_chars t')
  end.

(** What may follow a number. *)
Definition is_delimiter (c : ascii) : bool :=
  (is_ws c || Ascii.eqb c "," || Ascii.eqb c "}")%bool.

(** A value at the start of [t], and the members of an object from the
    opening quote of a key on, [acc] being the members read so far.
    [fuel] bounds the depth of the reading. *)
Fixpoint parse_value (fuel : nat) (t : text) : option (json * text) :=
  match fuel with
  | O => None
  | S n =>
      match t with
      | c :: t' =>
          if Ascii.eqb c "{" then
            match skip_ws t' with
            | d :: t'' =>
                if Ascii.eqb d "}" then Some (JObject [], t'')
                else parse_members n [] (d :: t'')
            | [] => None
            end
          else
            let (tok, rest) := span (fun c => negb (is_delimiter c)) t in
            match json_decode_number tok with
            | Some v => Some (JNumber v, rest)
            | None => None
            end
      | [] => None
      end
  end
with parse_members (fuel : nat) (acc : list (string * json)) (t : text)
  : option (json * text) :=
  match fuel with
  | O => None
  | S n =>
      match t with
      | q :: t1 =>
          if Ascii.eqb q dquote then
            match parse_chars t1 with
            | Some (k, t2) =>
                match skip_ws t2 with
                | c :: t3 =>
                    if Ascii.eqb c ":" then
                      match parse_value n (skip_ws t3) with
                      | Some (j, t4) =>
                          let acc' := jset (string_of_list_ascii k) j acc in
                          match skip_ws t4 with
                          | d :: t5 =>
                              if Ascii.eqb d "," then
                                parse_members n acc' (skip_ws t5)
                              else if Ascii.eqb d "}" then
                                Some (JObject acc', t5)
                              else None
                          | [] => None
                          end
                      | None => None
                      end
                    else None
                | [] => None
                end
            | None => None
            end
          else None
      | [] => None
      end
  end.

(** [json.load]: one value, with nothing but blanks before and after. *)
Definition json_load (t : text) : option json :=
  match parse_value (S (List.length t)) (skip_ws t) with
  | Some (j, rest) => if is_nil (skip_ws rest) then Some j else None
  | None => None
  end.

(** [doc[k]] for an object. *)
Fixpoint jfind (k : string) (ms : list (string * json)) : option json :=
  match ms with
  | [] => None
  | (k', j) :: ms' => if String.eqb k k' then Some j else jfind k ms'
  end.

Definition jget (k : string) (j : json) : option json :=
  match j with
  | JObject ms => jfind k ms
  | JNumber _ => None
  end.

(** *** The whole script

    The script keeps the metrics in [metrics], processes the logs, and
    only then writes the four files, one after the other, and prints its
    message.  An exception in the processing ends the run before anything
    is written; an [open] for writing that fails ends it with the files
    before it written and the others not. *)

Record execution := Execution {
  status : outcome unit;
  written : list (string * text);
  stdout : text
}.

(** The four files in the order the script writes them, each with the
    text that it gets. *)
Definition outputs (py : interp) (st : MetricStore) : list (string * text) :=
  map (fun m => (csv_path m, csv_text py (csv_rows m (mapping m st))))
      all_metrics
  ++ [(json_path, json_text py st)].

(** The paths that [open(path, 'w')] can open.  The call raises [OSError]
    on any other path: when the results directory does not exist, or the
    file may not be written.  A write that fails after its file has been
    opened, which leaves a part of the text, is not modelled. *)
Definition writable := string -> bool.

(** The files of [ws] written in turn; the first path that cannot be
    opened ends the writing.  The result is how the writing ended and the
    files written. *)
Fixpoint write_files (w : writable) (ws : list (string * text))
  : outcome unit * list (string * text) :=
  match ws with
  | [] => (Returned tt, [])
  | (path, t) :: ws' =>
      if w path then
        let (o, done) := write_files w ws' in (o, (path, t) :: done)
      else (Raised (OSError path), [])
  end.

Definition main (py : interp) (w : writable) (fs : files) : execution :=
  let r := process py fs metrics in
  match result r with
  | Returned _ =>
      let (o, done) := write_files w (outputs py (final r)) in
      Execution o done
        (match o with
         | Returned _ =>
             txt "Metrics extracted and saved to " ++ txt results_dir ++ [nl]
         | Raised _ => []
         end)
  | Raised e => Execution (Raised e) [] []
  end.

(** The results directory after the files of a run have been written. *)
Definition write (path : string) (t : text) (fs : files) : files :=
  fun p => if String.eqb p path then Some t else fs p.

Definition commit (ws : list (string * text)) (fs : files) : files :=
  fold_left (fun acc w => write (fst w) (snd w) acc) ws fs.


(** ** Vocabulary of the specification *)

(** [strip l s]: what follows the prefix [l] of [s]. *)
Fixpoint strip (l s : text) : option text :=
  match l, s with
  | [], _ => Some s
  | c :: l', d :: s' => if Ascii.eqb c d then strip l' s' else None
  | _ :: _, [] => None
  end.

(** The token of a pattern "literal [l], then one or more characters of
    class [f]" when it matches at the start of [s], and at the leftmost
    position of [s] that has a match. *)
Definition token_at (l : text) (f : ascii -> bool) (s : text) : option text :=
  match strip l s with
  | Some r => let (run, _) := span f r in if is_nil run then None else Some run
  | None => None
  end.

Fixpoint first_token (l : text) (f : ascii -> bool) (s : text) : option text :=
  match token_at l f s with
  | Some tok => Some tok
  | None =>
      match s with
      | [] => None
      | _ :: s' => first_token l f s'
      end
  end.

(** [content] reads [pre], the literal [l], the token [tok], [post]; the
    token is a longest run of class [f], and no occurrence of [l] followed
    by a character of [f] starts further left. *)
Definition stops (f : ascii -> bool) (post : text) : Prop :=
  match post with
  | c :: _ => f c = false
  | [] => True
  end.

Definition first_occurrence (l : text) (f : ascii -> bool)
           (content pre tok post : text) : Prop :=
  content = pre ++ l ++ tok ++ post
  /\ tok <> [] /\ forallb f tok = true /\ stops f post
  /\ forall pre' c post',
       content = pre' ++ l ++ c :: post' -> f c = true ->
       (List.length pre <= List.length pre')%nat.

Definition no_occurrence (l : text) (f : ascii -> bool) (content : text)
  : Prop :=
  forall pre c post, content = pre ++ l ++ c :: post -> f c = false.

Definition time_literal : text := txt "EXECUTION TIME : ".
Definition energy_literal : text := txt " : Energy Consumed = ".
Definition network_literal : text := txt "Total network usage = ".

(** The conversions of [extract_metrics] that can raise. *)
Definition is_inr {A B : Type} (x : A + B) : bool :=
  match x with inr _ => true | inl _ => false end.

Definition time_converts (py : interp) (content : text) : bool :=
  match time_token content with
  | Some ds => is_inr (py_int py ds)
  | None => true
  end.

Definition energy_converts (content : text) : bool :=
  is_inr (py_floats (energy_tokens content)).

Definition network_converts (content : text) : bool :=
  match network_token content with
  | Some tok => is_inr (py_float tok)
  | None => true
  end.

Definition converts (py : interp) (content : text) : bool :=
  (time_converts py content && energy_converts content
   && network_converts content)%bool.

(** [l1] is [l2] with some elements left out. *)
Inductive subseq {A : Type} : list A -> list A -> Prop :=
  | subseq_nil : subseq [] []
  | subseq_skip x l1 l2 : subseq l1 l2 -> subseq l1 (x :: l2)
  | subseq_take x l1 l2 : subseq l1 l2 -> subseq (x :: l1) (x :: l2).

(** The keys of every mapping of [st] are among [done], in that order. *)
Definition ordered (done : list string) (st : MetricStore) : Prop :=
  forall m, subseq (keys (mapping m st)) done.

(** The entries of [d] for the labels [ls], in the order of [ls]. *)
Definition entries (ls : list string) (d : dict) : list (string * value) :=
  flat_map (fun l => match dict_get l d with
                     | Some v => [(l, v)]
                     | None => []
                     end) ls.

(** What [extract_metrics] stores in each category for a text whose
    conversions all succeed; [None] when it stores nothing. *)
Definition extracted (py : interp) (content : text) (m : metric)
  : option value :=
  match m with
  | ExecutionTime =>
      option_map (fun ds => VInt (digits_value ds)) (time_token content)
  | EnergyConsumption =>
      match py_floats (energy_tokens content) with
      | inr fs => Some (py_sum py fs)
      | inl _ => None
      end
  | NetworkUsage =>
      match network_token content with
      | Some tok =>
          match py_float tok with
          | inr f => Some (VFloat f)
          | inl _ => None
          end
      | None => None
      end
  end.

(** A computation started in a store of [P] ends in, and only passes
    through, stores of [Q]. *)
Definition triple {A : Type} (P : MetricStore -> Prop) (m : M A)
           (Q : MetricStore -> Prop) : Prop :=
  forall st, P st -> Q (final (m st)) /\ Forall Q (trail (m st)).

Definition exists_file (fs : files) (input : string * string) : bool :=
  match fs (fst input) with Some _ => true | None => false end.

(** The text last written to [p] by the writes [ws], if any. *)
Fixpoint last_write (p : string) (ws : list (string * text)) : option text :=
  match ws with
  | [] => None
  | (q, t) :: ws' =>
      match last_write p ws' with
      | Some t' => Some t'
      | None => if String.eqb p q then Some t else None
      end
  end.

(** *** Sample logs and a sample interpreter

    [cpython] has the default limit of 4300 digits, the plain [sum] and
    the short [float.__repr__]. *)
Definition cpython : interp := Interp 4300 false short_repr.

Definition lines (ls : list string) : text :=
  flat_map (fun l => txt l ++ [nl]) ls.

Definition energy_log : text :=
  lines ["task-1 : Energy Consumed = 1.5"; "task-2 : Energy Consumed = 2.5"]%string.

Definition full_sample_log : text :=
  lines ["EXECUTION TIME : 1234"; "task-1 : Energy Consumed = 1.5";
         "task-2 : Energy Consumed = 2.5"; "Total network usage = 10.25"]%string.

Definition no_files : files := fun _ => None.

(** A results directory in which every file can be written, and one that
    does not exist. *)
Definition writable_dir : writable := fun _ => true.
Definition absent_dir : writable := fun _ => false.

(** The results directory with the one log [path]. *)
Definition only (path : string) (content : text) : files :=
  write path content no_files.

(** The float 4.0. *)
Definition four : float := S754_finite false 4503599627370496 (-50).

(** The literal written for [v] is read back as [v]. *)
Definition reads_back (py : interp) (v : value) : Prop :=
  json_decode_number (json_number py v) = Some v.

(** *** Names and separators *)

Definition is_name_char (c : ascii) : bool := (is_word c || is_hyphen c)%bool.

Definition hyphens (t : text) : nat := List.length (filter is_hyphen t).

(** The characters that some atom of the pattern accepts. *)
Definition pattern_char (p : Re.pattern) (c : ascii) : bool :=
  existsb (fun a => Re.accepts a c) p.

(** [run] is a text that atom [a] can consume. *)
Definition conforms (a : Re.atom) (run : text) : Prop :=
  forallb (Re.accepts a) run = true
  /\ match Re.times a with
     | Re.One => List.length run = 1%nat
     | Re.Opt => (List.length run <= 1)%nat
     | Re.Star => True
     | Re.Plus => (1 <= List.length run)%nat
     end.

(** What follows the name in the energy pattern. *)
Definition energy_tail : Re.pattern :=
  Re.lit " : Energy Consumed = " ++ [Re.Atom is_digit_or_dot Re.Plus 2].

(** [t] is empty or starts with a hyphen. *)
Definition at_hyphen (t : text) : Prop :=
  match t with
  | [] => True
  | c :: _ => is_hyphen c = true
  end.

(** *** The store a run should end with

    The entries of category [m] that the logs of [fs] yield, log by log
    in processing order. *)
Definition expected_mapping (py : interp) (fs : files) (m : metric) : dict :=
  flat_map (fun input =>
              match fs (fst input) with
              | Some content =>
                  match extracted py content m with
                  | Some v => [(snd input, v)]
                  | None => []
                  end
              | None => []
              end) inputs.

(** The JSON text of a store without entries. *)
Definition empty_json : text :=
  txt "{" ++ [nl]
  ++ txt "  " ++ [dquote] ++ txt "execution_time" ++ [dquote] ++ txt ": {}," ++ [nl]
  ++ txt "  " ++ [dquote] ++ txt "energy_consumption" ++ [dquote] ++ txt ": {}," ++ [nl]
  ++ txt "  " ++ [dquote] ++ txt "network_usage" ++ [dquote] ++ txt ": {}" ++ [nl]
  ++ txt "}".

(** *** Float literals and signs *)

Definition dots (t : text) : nat :=
  List.length (filter (fun c => Ascii.eqb c ".") t).

(** A string of digits and dots that [float] accepts: at most one dot
    and at least one digit. *)
Definition float_literal (tok : text) : bool :=
  (Nat.leb (dots tok) 1 && existsb is_digit tok)%bool.

(** A string of digits that [int] accepts under the interpreter's
    limit. *)
Definition within_limit (py : interp) (ds : text) : bool :=
  match max_str_digits py with
  | O => true
  | S _ => Nat.leb (List.length ds) (max_str_digits py)
  end.

(** A float that is zero, positive or plus infinity, and a number that
    is not negative (nor NaN). *)
Definition nonneg_float (f : float) : bool :=
  match f with
  | S754_zero false | S754_infinity false | S754_finite false _ _ => true
  | _ => false
  end.

Definition nonneg_value (v : value) : bool :=
  match v with
  | VInt z => 0 <=? z
  | VFloat f => nonneg_float f
  end.

(** [f] is a zero, an infinity or a finite number of sign [s]. *)
Definition has_sign (s : bool) (f : float) : Prop :=
  match f with
  | S754_zero s' | S754_infinity s' | S754_finite s' _ _ => s' = s
  | S754_nan => False
  end.

(** *** The bytes of the output files *)

(** The paths of the four files, in the order they are written. *)
Definition output_paths : list string :=
  map csv_path all_metrics ++ [json_path].

(** The header line of the CSV file of category [m]. *)
Definition csv_header (m : metric) : text :=
  txt "Simulation Type," ++ txt (metric_name m) ++ [cr; nl].

(** The line of a CSV file for the label [l] and the number [v]. *)
Definition csv_entry (py : interp) (l : string) (v : value) : text :=
  txt l ++ txt "," ++ csv_field (py_str py v) ++ [cr; nl].

(** One line for each label of [ls] that [d] has, in the order of [ls]. *)
Definition csv_entries (py : interp) (ls : list string) (d : dict) : text :=
  flat_map (fun l => match dict_get l d with
                     | Some v => csv_entry py l v
                     | None => []
                     end) ls.

(** The CSV file of category [m] when the mapping has the one label [l]
    with the number [ov], or is empty. *)
Definition csv_of_label (py : interp) (m : metric) (l : string)
           (ov : option value) : text :=
  csv_header m ++ match ov with
                  | Some v => csv_entry py l v
                  | None => []
                  end.

(** The JSON object of a mapping that has the one label [l], or is
    empty. *)
Definition json_of_entry (py : interp) (l : string) (ov : option value)
  : text :=
  match ov with
  | Some v =>
      txt "{" ++ [nl]
      ++ txt "    " ++ [dquote] ++ txt l ++ [dquote] ++ txt ": "
      ++ json_number py v ++ [nl]
      ++ txt "  }"
  | None => txt "{}"
  end.

(** The JSON file when the three mappings have the one label [l] or are
    empty. *)
Definition json_of_label (py : interp) (l : string)
           (time energy network : option value) : text :=
  txt "{" ++ [nl]
  ++ txt "  " ++ [dquote] ++ txt "execution_time" ++ [dquote] ++ txt ": "
  ++ json_of_entry py l time ++ txt "," ++ [nl]
  ++ txt "  " ++ [dquote] ++ txt "energy_consumption" ++ [dquote] ++ txt ": "
  ++ json_of_entry py l energy ++ txt "," ++ [nl]
  ++ txt "  " ++ [dquote] ++ txt "network_usage" ++ [dquote] ++ txt ": "
  ++ json_of_entry py l network ++ [nl]
  ++ txt "}".

(** *** Matches before an entry *)

(** No match of [p] that starts in [pre] reaches into [rest], the text
    after [pre]. *)
Fixpoint clear_before (p : Re.pattern) (pre rest : text) : bool :=
  match pre with
  | [] => true
  | _ :: pre' =>
      (match Re.match_atoms p (pre ++ rest) with
       | Some (_, r) => Nat.leb (List.length rest) (List.length r)
       | None => true
       end
       && clear_before p pre' rest)%bool
  end.

(** The matches of [findall] that start among the first [n] characters
    of [s]. *)
Fixpoint findall_within (p : Re.pattern) (n skip : nat) (s : text)
  : list Re.captured :=
  match n, s with
  | S n', _ :: s' =>
      match skip with
      | S k => findall_within p n' k s'
      | O =>
          match Re.match_atoms p s with
          | Some (runs, rest) =>
              runs :: findall_within p n'
                        (List.length s - List.length rest - 1) s'
          | None => findall_within p n' 0 s'
          end
      end
  | _, _ => []
  end.

(** The energy tokens of the matches that start among the first [n]
    characters of [content]. *)
Definition energy_tokens_within (n : nat) (content : text) : list text :=
  map (Re.group_text 2 energy_pattern)
      (findall_within energy_pattern n 0 content).

(** *** Reading numbers back *)

(** The characters of a number literal. *)
Definition number_char (c : ascii) : bool :=
  (is_digit c || existsb (Ascii.eqb c) (txt "+-.eENaIfinty"))%bool.

Definition same_kind (a b : value) : bool :=
  match a, b with
  | VInt _, VInt _ | VFloat _, VFloat _ => true
  | _, _ => false
  end.

(** What [json_decode_number] does once the constants and the sign are
    dealt with. *)
Definition decode_body (neg : bool) (body : text) : option value :=
  let (ip, r) := span is_digit body in
  if int_part_ok ip then
    match r with
    | [] => Some (VInt (if neg then - digits_value ip else digits_value ip))
    | c :: t =>
        if Ascii.eqb c "." then
          let (fp, r') := span is_digit t in
          if is_nil fp then None
          else
            let m := digits_value (ip ++ fp) in
            let k := Z.of_nat (List.length fp) in
            match r' with
            | [] => Some (VFloat (decimal_float neg m (- k)))
            | _ =>
                match json_exponent r' with
                | Some e => Some (VFloat (decimal_float neg m (e - k)))
                | None => None
                end
            end
        else
          match json_exponent r with
          | Some e => Some (VFloat (decimal_float neg (digits_value ip) e))
          | None => None
          end
    end
  else None.

(** The search of [short_repr] for digits that read back as [f] ends
    within 17 digits, as it does for a binary64 number. *)
Definition repr_found (f : float) : bool :=
  match f with
  | S754_finite s m e =>
      match shortest s m e (decimal_point m e) 1 17 with
      | Some _ => true
      | None => false
      end
  | _ => true
  end.

(** A key that is written as it is, between quotes, and read back as it
    is. *)
Definition plain_key (k : string) : Prop :=
  json_string k = dquote :: txt k ++ [dquote]
  /\ forall r, parse_chars (txt k ++ dquote :: r) = Some (txt k, r).

(** The member [kj] of the object read is the entry [kv] of the mapping
    written: the same key, and the number that the literal of the value
    reads as. *)
Definition decodes (py : interp) (kv : string * value) (kj : string * json)
  : Prop :=
  fst kj = fst kv
  /\ exists v', snd kj = JNumber v'
                /\ json_decode_number (json_number py (snd kv)) = Some v'.

(** The members of a mapping from the opening quote of the first key
    on, with [rest] behind the closing brace. *)
Fixpoint members_text (py : interp) (d : dict) (rest : text) : text :=
  match d with
  | [] => []
  | (k, v) :: d' =>
      dquote :: txt k ++ dquote :: txt ": " ++ json_number py v
        ++ match d' with
           | [] => nl :: txt "  }" ++ rest
           | _ => txt "," ++ nl :: txt "    " ++ members_text py d' rest
           end
  end.

(** [doc[category][label]] *)
Definition json_entry (doc : json) (m : metric) (label : string)
  : option json :=
  match jget (metric_name m) doc with
  | Some o => jget label o
  | None => None
  end.

(** * Verification *)

(** ** Lists and character classes *)

Lemma span_eq f s : fst (span f s) ++ snd (span f s) = s.
Proof.
  induction s as [|c s IH]; simpl; [reflexivity|].
  destruct (f c); [|reflexivity].
  destruct (span f s) as [run rest]; simpl in *. now rewrite IH.
Qed.

Lemma span_run f s : forallb f (fst (span f s)) = true.
Proof.
  induction s as [|c s IH]; simpl; [reflexivity|].
  destruct (f c) eqn:E; [|reflexivity].
  destruct (span f s) as [run rest]; simpl in *. now rewrite E, IH.
Qed.

Lemma span_stops f s : stops f (snd (span f s)).
Proof.
  induction s as [|c s IH]; simpl; [exact I|].
  destruct (f c) eqn:E; [|exact E].
  destruct (span f s) as [run rest]; simpl in *. exact IH.
Qed.

(** A run of [f] followed by something that stops it is what [span]
    finds. *)
Lemma span_app f tok post :
  forallb f tok = true -> stops f post -> span f (tok ++ post) = (tok, post).
Proof.
  induction tok as [|c tok IH]; simpl; intros Hr Hs.
  - destruct post as [|d post]; [reflexivity|]. simpl in *. now rewrite Hs.
  - apply andb_true_iff in Hr as [Hc Hr]. rewrite Hc, (IH Hr Hs). reflexivity.
Qed.

Lemma strip_app l r : strip l (l ++ r) = Some r.
Proof.
  induction l as [|c l IH]; simpl; [reflexivity|].
  now rewrite Ascii.eqb_refl.
Qed.

Lemma strip_some l s r : strip l s = Some r -> s = l ++ r.
Proof.
  revert s; induction l as [|c l IH]; intros [|d s]; simpl; try congruence.
  destruct (Ascii.eqb c d) eqn:E; [|discriminate].
  apply Ascii.eqb_eq in E; subst d. intros H. now rewrite (IH _ H).
Qed.

Lemma is_nil_true {A} (l : list A) : is_nil l = true <-> l = [].
Proof. destruct l; simpl; split; congruence. Qed.

(** ** The matcher on the patterns "literal, then a run" *)

Lemma token_at_some l f s tok :
  token_at l f s = Some tok ->
  exists post, s = l ++ tok ++ post /\ tok <> [] /\ forallb f tok = true
               /\ stops f post.
Proof.
  unfold token_at. destruct (strip l s) as [r|] eqn:Hs; [|discriminate].
  apply strip_some in Hs.
  pose proof (span_eq f r) as He. pose proof (span_run f r) as Hr.
  pose proof (span_stops f r) as Hp.
  destruct (span f r) as [run rest]; simpl in *.
  destruct run as [|c run]; simpl; [discriminate|].
  intros [= <-]. exists rest. subst s. rewrite <- He.
  repeat split; auto. discriminate.
Qed.

Lemma token_at_occurrence l f tok post :
  tok <> [] -> forallb f tok = true -> stops f post ->
  token_at l f (l ++ tok ++ post) = Some tok.
Proof.
  intros Hn Hr Hs. unfold token_at.
  rewrite strip_app, (span_app f tok post Hr Hs).
  destruct tok; [congruence|reflexivity].
Qed.

Lemma token_at_none l f s :
  token_at l f s = None -> forall c post, s = l ++ c :: post -> f c = false.
Proof.
  unfold token_at. intros H c post ->. rewrite strip_app in H.
  simpl in H. destruct (f c); [|reflexivity].
  destruct (span f post); discriminate.
Qed.

Lemma first_token_found l f content pre tok post :
  first_occurrence l f content pre tok post ->
  first_token l f content = Some tok.
Proof.
  intros (-> & Hn & Hr & Hs & Hmin).
  induction pre as [|c pre IH].
  - simpl app. destruct (l ++ tok ++ post) eqn:E; simpl;
      rewrite <- ?E, (token_at_occurrence l f tok post Hn Hr Hs); reflexivity.
  - simpl app. simpl.
    destruct (token_at l f (c :: pre ++ l ++ tok ++ post)) as [t|] eqn:E.
    + apply token_at_some in E as (post' & E & Ht & Hrt & _).
      destruct t as [|d t]; [congruence|].
      simpl in Hrt. apply andb_true_iff in Hrt as [Hd _].
      specialize (Hmin [] d (t ++ post') E Hd). simpl in Hmin. lia.
    + apply IH. intros pre' d post' E' Hd.
      specialize (Hmin (c :: pre') d post').
      simpl in Hmin. rewrite E' in Hmin. specialize (Hmin eq_refl Hd). lia.
Qed.

Lemma first_token_absent l f content :
  no_occurrence l f content -> first_token l f content = None.
Proof.
  induction content as [|c s IH]; intros Hno.
  - simpl. destruct (token_at l f []) as [t|] eqn:E; [|reflexivity].
    apply token_at_some in E as (post & E & Ht & Hrt & _).
    destruct t as [|d t]; [congruence|].
    simpl in Hrt. apply andb_true_iff in Hrt as [Hd _].
    rewrite (Hno [] d (t ++ post) E) in Hd. discriminate.
  - simpl. destruct (token_at l f (c :: s)) as [t|] eqn:E.
    + apply token_at_some in E as (post & E & Ht & Hrt & _).
      destruct t as [|d t]; [congruence|].
      simpl in Hrt. apply andb_true_iff in Hrt as [Hd _].
      rewrite (Hno [] d (t ++ post) E) in Hd. discriminate.
    + apply IH. intros pre d post E'. apply (Hno (c :: pre) d post).
      simpl. now rewrite E'.
Qed.

Module ReFacts.
Import Re.

(** When the rest of the pattern accepts the longest run, [greedy] keeps
    it. *)
Lemma greedy_commit {R : Type} f (k : text -> text -> option R) s y :
  k (fst (span f s)) (snd (span f s)) = Some y -> greedy f k s = Some y.
Proof.
  revert k; induction s as [|c s IH]; intros k; simpl; [auto|].
  destruct (f c) eqn:E; [|auto].
  destruct (span f s) as [run rest] eqn:Hs; simpl. intros H.
  rewrite (IH (fun run => k (c :: run))); [reflexivity|].
  rewrite ?Hs. exact H.
Qed.

(** Whatever [greedy] returns, the rest of the pattern returned it on
    some run of [f] at the start of the text. *)
Lemma greedy_sound {R : Type} f (k : text -> text -> option R) s y :
  greedy f k s = Some y ->
  exists run rest, s = run ++ rest /\ forallb f run = true
                   /\ k run rest = Some y.
Proof.
  revert k; induction s as [|c s IH]; intros k; simpl.
  - intros H. now exists [], [].
  - destruct (f c) eqn:E.
    + destruct (greedy f (fun run => k (c :: run)) s) as [r|] eqn:G.
      * intros [= <-]. apply IH in G as (run & rest & -> & Hr & Hk).
        exists (c :: run), rest. simpl. now rewrite E, Hr.
      * intros H. now exists [], (c :: s).
    + intros H. now exists [], (c :: s).
Qed.

Lemma match_lit_atoms l p s :
  match_atoms (lit_atoms l ++ p) s =
  match strip l s with
  | Some r =>
      match match_atoms p r with
      | Some (runs, rest) => Some (singles l ++ runs, rest)
      | None => None
      end
  | None => None
  end.
Proof.
  revert s; induction l as [|c l IH]; intros s.
  - simpl. destruct (match_atoms p s) as [[runs rest]|]; reflexivity.
  - destruct s as [|d s]; [reflexivity|].
    change (match_atoms (lit_atoms (c :: l) ++ p) (d :: s))
      with (if Ascii.eqb c d
            then push [d] (match_atoms (lit_atoms l ++ p) s) else None).
    simpl strip. destruct (Ascii.eqb c d) eqn:E; [|reflexivity].
    apply Ascii.eqb_eq in E; subst d. rewrite IH.
    destruct (strip l s) as [r|]; [|reflexivity].
    destruct (match_atoms p r) as [[runs rest]|]; reflexivity.
Qed.

Lemma match_last_plus f g s :
  match_atoms [Atom f Plus g] s =
  let (run, rest) := span f s in
  if is_nil run then None else Some ([run], rest).
Proof.
  destruct s as [|c s]; [reflexivity|]. unfold match_atoms, match_atom.
  simpl. destruct (f c) eqn:E; [|reflexivity].
  destruct (span f s) as [run rest] eqn:Hs. simpl.
  apply greedy_commit. now rewrite Hs.
Qed.

Lemma group_text_lit n l p runs :
  n <> 0%nat ->
  group_text n (lit_atoms l ++ p) (singles l ++ runs) = group_text n p runs.
Proof.
  intros Hn. induction l as [|c l IH]; [reflexivity|]. simpl.
  destruct n; [congruence|]. exact IH.
Qed.

(** The matcher on "literal, then a run" finds the token of
    [token_at]. *)
Lemma match_token l f g s :
  g <> 0%nat ->
  let p := lit_atoms l ++ [Atom f Plus g] in
  option_map (fun r => group_text g p (fst r)) (match_atoms p s)
  = token_at l f s.
Proof.
  intros Hg p. unfold p, token_at. rewrite match_lit_atoms.
  destruct (strip l s) as [r|]; [|reflexivity].
  rewrite match_last_plus. destruct (span f r) as [run rest].
  destruct run as [|c run]; [reflexivity|]. simpl is_nil. cbv iota.
  simpl option_map. rewrite group_text_lit by assumption.
  simpl. rewrite Nat.eqb_refl. now rewrite app_nil_r.
Qed.

Lemma search_token l f g s :
  g <> 0%nat ->
  let p := lit_atoms l ++ [Atom f Plus g] in
  option_map (group_text g p) (search p s) = first_token l f s.
Proof.
  intros Hg p. induction s as [|c s IH].
  - simpl. rewrite <- (match_token l f g [] Hg). fold p.
    destruct (match_atoms p []) as [[runs rest]|]; reflexivity.
  - simpl. rewrite <- (match_token l f g (c :: s) Hg). fold p.
    destruct (match_atoms p (c :: s)) as [[runs rest]|]; [reflexivity|].
    exact IH.
Qed.

End ReFacts.

(** The execution-time and network-usage tokens are the leftmost
    occurrences of their patterns. *)
Lemma time_token_first content :
  time_token content = first_token time_literal is_digit content.
Proof. exact (ReFacts.search_token time_literal is_digit 1 content (Nat.neq_succ_0 0)). Qed.

Lemma network_token_first content :
  network_token content = first_token network_literal is_digit_or_dot content.
Proof.
  exact (ReFacts.search_token network_literal is_digit_or_dot 1 content
           (Nat.neq_succ_0 0)).
Qed.

(** ** Dictionaries *)

Lemma dict_get_set_same k v d : dict_get k (dict_set k v d) = Some v.
Proof.
  induction d as [|[k' v'] d IH]; simpl.
  - now rewrite String.eqb_refl.
  - destruct (String.eqb k k') eqn:E; simpl; rewrite ?E, ?String.eqb_refl; auto.
Qed.

Lemma dict_get_set_other k k' v d :
  k <> k' -> dict_get k' (dict_set k v d) = dict_get k' d.
Proof.
  intros Hk. induction d as [|[k0 v0] d IH]; simpl.
  - destruct (String.eqb k' k) eqn:E; [|reflexivity].
    apply String.eqb_eq in E. congruence.
  - destruct (String.eqb k k0) eqn:E; simpl.
    + apply String.eqb_eq in E; subst k0.
      destruct (String.eqb k' k) eqn:E'; [|reflexivity].
      apply String.eqb_eq in E'. congruence.
    + now rewrite IH.
Qed.

Lemma dict_get_none k d : dict_get k d = None <-> ~ In k (keys d).
Proof.
  induction d as [|[k' v'] d IH]; simpl; [tauto|].
  destruct (String.eqb k k') eqn:E.
  - apply String.eqb_eq in E; subst. split; [discriminate|tauto].
  - apply String.eqb_neq in E. rewrite IH. intuition congruence.
Qed.

Lemma keys_set_present k v d :
  dict_get k d <> None -> keys (dict_set k v d) = keys d.
Proof.
  induction d as [|[k' v'] d IH]; simpl; [congruence|].
  destruct (String.eqb k k') eqn:E; simpl.
  - apply String.eqb_eq in E. now subst.
  - intros H. now rewrite IH.
Qed.

Lemma keys_set_absent k v d :
  dict_get k d = None -> keys (dict_set k v d) = keys d ++ [k].
Proof.
  induction d as [|[k' v'] d IH]; simpl; [reflexivity|].
  destruct (String.eqb k k') eqn:E; simpl; [discriminate|].
  intros H. now rewrite IH.
Qed.

(** ** Subsequences *)

Lemma subseq_refl {A} (l : list A) : subseq l l.
Proof. induction l; [apply subseq_nil|now apply subseq_take]. Qed.

Lemma subseq_nil_l {A} (l : list A) : subseq [] l.
Proof. induction l; constructor; auto. Qed.

Lemma subseq_app_r {A} (l1 l2 l3 : list A) :
  subseq l1 l2 -> subseq l1 (l2 ++ l3).
Proof.
  induction 1; simpl.
  - apply subseq_nil_l.
  - now apply subseq_skip.
  - now apply subseq_take.
Qed.

Lemma subseq_snoc {A} (l1 l2 : list A) x :
  subseq l1 l2 -> subseq (l1 ++ [x]) (l2 ++ [x]).
Proof.
  induction 1; simpl.
  - apply subseq_refl.
  - now apply subseq_skip.
  - now apply subseq_take.
Qed.

Lemma subseq_in {A} (l1 l2 : list A) x : subseq l1 l2 -> In x l1 -> In x l2.
Proof. induction 1; simpl; intuition. Qed.

Lemma subseq_drop_last {A} (l l2 : list A) x :
  subseq l (l2 ++ [x]) -> ~ In x l -> subseq l l2.
Proof.
  revert l; induction l2 as [|y l2 IH]; simpl; intros l H Hx.
  - inversion H as [|? ? ? H'|? ? ? H']; subst.
    + inversion H'; subst. apply subseq_nil.
    + exfalso. apply Hx. now left.
  - inversion H as [|? ? ? H'|? ? ? H']; subst.
    + apply subseq_skip. now apply IH.
    + apply subseq_take. apply IH; [assumption|].
      intros Hi. apply Hx. now right.
Qed.

Lemma subseq_nodup {A} (l1 l2 : list A) :
  subseq l1 l2 -> NoDup l2 -> NoDup l1.
Proof.
  induction 1; intros Hn; [constructor| |].
  - inversion Hn; auto.
  - inversion Hn as [|? ? Hx Hn']; subst. constructor; auto.
    intros Hi. apply Hx. eapply subseq_in; eauto.
Qed.

(** A dictionary whose keys follow the order of [ls] is its own list of
    entries along [ls]. *)
Lemma entries_cons_other ls k v d :
  ~ In k ls -> entries ls ((k, v) :: d) = entries ls d.
Proof.
  induction ls as [|l ls IH]; [reflexivity|]. intros Hn.
  unfold entries in *. cbn [flat_map].
  rewrite IH by (intros Hi; apply Hn; now right).
  cbn [dict_get]. destruct (String.eqb l k) eqn:E; [|reflexivity].
  apply String.eqb_eq in E. exfalso. apply Hn. now left.
Qed.

Lemma entries_cons l ls d :
  entries (l :: ls) d =
  match dict_get l d with Some v => [(l, v)] | None => [] end ++ entries ls d.
Proof. reflexivity. Qed.

Lemma entries_ordered ls d :
  NoDup ls -> subseq (keys d) ls -> entries ls d = d.
Proof.
  revert d; induction ls as [|l ls IH]; intros d Hn Hs.
  - inversion Hs as [E| |]. destruct d; [reflexivity|discriminate].
  - rewrite entries_cons.
    inversion Hn as [|? ? Hl Hn']; subst.
    inversion Hs as [|x l1 l2 H' E1 E2|x l1 l2 H' E1 E2]; subst.
    + assert (Hg : dict_get l d = None).
      { apply dict_get_none. intros Hi. apply Hl. eapply subseq_in; eauto. }
      rewrite Hg. simpl. now apply IH.
    + destruct d as [|[k v] d]; [discriminate|]. simpl in E1.
      injection E1 as E1 E1'. subst.
      rewrite entries_cons_other by assumption.
      assert (Hg : dict_get k ((k, v) :: d) = Some v)
        by (simpl; now rewrite String.eqb_refl).
      rewrite Hg. simpl. f_equal. now apply IH.
Qed.

(** ** The store and its computations *)

Lemma mapping_set m m' k v st :
  mapping m' (store_set m k v st) =
  if (String.eqb (metric_name m) (metric_name m'))
  then dict_set k v (mapping m' st) else mapping m' st.
Proof. destruct m, m', st; reflexivity. Qed.

Lemma lookup_set_other m m' k k' v st :
  k <> k' ->
  dict_get k' (mapping m' (store_set m k v st)) = dict_get k' (mapping m' st).
Proof.
  intros Hk. rewrite mapping_set.
  destruct (String.eqb _ _); [now apply dict_get_set_other|reflexivity].
Qed.

Lemma lookup_set_same m k v st :
  dict_get k (mapping m (store_set m k v st)) = Some v.
Proof. destruct m, st; simpl; apply dict_get_set_same. Qed.

Lemma lookup_set_other_metric m m' k k' v st :
  m <> m' ->
  dict_get k' (mapping m' (store_set m k v st)) = dict_get k' (mapping m' st).
Proof. destruct m, m', st; simpl; congruence. Qed.

Lemma triple_ret {A} (P Q : MetricStore -> Prop) (a : A) :
  (forall st, P st -> Q st) -> triple P (ret a) Q.
Proof. intros H st HP. simpl. auto. Qed.

Lemma triple_raise {A} (P Q : MetricStore -> Prop) e :
  (forall st, P st -> Q st) -> triple P (@raise A e) Q.
Proof. intros H st HP. simpl. auto. Qed.

Lemma triple_lift {A} (P Q : MetricStore -> Prop) (x : exn + A) :
  (forall st, P st -> Q st) -> triple P (lift x) Q.
Proof. destruct x; [apply triple_raise|apply triple_ret]. Qed.

Lemma triple_assign (P Q : MetricStore -> Prop) m k v :
  (forall st, P st -> Q (store_set m k v st)) -> triple P (assign m k v) Q.
Proof. intros H st HP. simpl. auto. Qed.

Lemma triple_bind {A B} (P Q R : MetricStore -> Prop) (m : M A) (f : A -> M B) :
  triple P m Q -> (forall a, triple Q (f a) R) ->
  (forall st, Q st -> R st) -> triple P (bind m f) R.
Proof.
  intros Hm Hf HQR st HP. destruct (Hm st HP) as [Hq Ht].
  assert (Ht' : Forall R (trail (m st))).
  { eapply Forall_impl; [|exact Ht]. exact HQR. }
  unfold bind. destruct (result (m st)) as [a|e]; simpl.
  - destruct (Hf a _ Hq) as [Hr Hu]. split; [assumption|].
    apply Forall_app. now split.
  - split; auto.
Qed.

(** [extract_metrics] for a label only assigns under that label: a
    property of stores that such assignments keep is kept all along. *)
Lemma extract_metrics_triple (P : MetricStore -> Prop) py content label :
  (forall m v st, P st -> P (store_set m label v st)) ->
  triple P (extract_metrics py content label) P.
Proof.
  intros Hset. unfold extract_metrics.
  apply triple_bind with (Q := P); [| |auto].
  { destruct (time_token content) as [ds|]; [|now apply triple_ret].
    apply triple_bind with (Q := P); [now apply triple_lift| |auto].
    intros n. apply triple_assign. auto. }
  intros _. apply triple_bind with (Q := P); [now apply triple_lift| |auto].
  intros fs. apply triple_bind with (Q := P); [apply triple_assign; auto| |auto].
  intros _. destruct (network_token content) as [tok|]; [|now apply triple_ret].
  apply triple_bind with (Q := P); [now apply triple_lift| |auto].
  intros f. apply triple_assign. auto.
Qed.

Lemma process_file_triple (P : MetricStore -> Prop) py fs path label :
  (forall m v st, P st -> P (store_set m label v st)) ->
  triple P (process_file py fs path label) P.
Proof.
  intros Hset. unfold process_file.
  destruct (fs path); [now apply extract_metrics_triple|now apply triple_ret].
Qed.

(** Another label's entries are left alone, however the call ends. *)
Lemma process_file_other py fs path label label' m st :
  label <> label' ->
  dict_get label' (mapping m (final (process_file py fs path label st)))
  = dict_get label' (mapping m st).
Proof.
  intros Hl.
  apply (process_file_triple
           (fun s => dict_get label' (mapping m s) = dict_get label' (mapping m st))
           py fs path label); [|reflexivity].
  intros m0 v s Hs. now rewrite lookup_set_other.
Qed.

(** Whether [extract_metrics] returns, and what it has stored then. *)
Lemma extract_metrics_result py content label st :
  result (extract_metrics py content label st) = Returned tt
  <-> converts py content = true.
Proof.
  unfold converts, time_converts, energy_converts, network_converts,
    extract_metrics, bind, lift.
  destruct (time_token content) as [ds|];
    [destruct (py_int py ds) as [e|n]|]; simpl;
    (destruct (py_floats (energy_tokens content)) as [e'|fs]; simpl;
     [|destruct (network_token content) as [tok|];
       [destruct (py_float tok) as [e''|f]|]; simpl]);
    split; congruence.
Qed.

Lemma extract_metrics_lookup py content label st m :
  converts py content = true ->
  dict_get label (mapping m (final (extract_metrics py content label st)))
  = match extracted py content m with
    | Some v => Some v
    | None => dict_get label (mapping m st)
    end.
Proof.
  unfold converts, time_converts, energy_converts, network_converts,
    extracted, extract_metrics, bind, lift.
  destruct (time_token content) as [ds|];
    [unfold py_int; destruct (max_str_digits py);
     [|destruct (Nat.ltb _ _)]|]; simpl;
    (destruct (py_floats (energy_tokens content)) as [e'|fs]; simpl;
     [|destruct (network_token content) as [tok|];
       [destruct (py_float tok) as [e''|f]|]; simpl]);
    try discriminate; intros _; destruct m, st; simpl;
    rewrite ?dict_get_set_same; reflexivity.
Qed.

(** ** The three guarded calls *)

Lemma run_eta {A} (r : run A) : Run (result r) (final r) (trail r) = r.
Proof. now destruct r. Qed.

Lemma ret_bind {A B} (a : A) (f : A -> M B) st : bind (ret a) f st = f a st.
Proof. unfold bind, ret. simpl. apply run_eta. Qed.

Lemma bind_ret_unit (m : M unit) st : bind m (fun _ => ret tt) st = m st.
Proof.
  unfold bind, ret. destruct (m st) as [[[]|e] f t]; simpl;
    rewrite ?app_nil_r; reflexivity.
Qed.

Lemma bind_result {A B} (m : M A) (f : A -> M B) st b :
  result (bind m f st) = Returned b <->
  exists a, result (m st) = Returned a
            /\ result (f a (final (m st))) = Returned b.
Proof.
  unfold bind. destruct (result (m st)) as [a|e]; simpl.
  - split; [intros H; now exists a|intros (a' & [= <-] & H); exact H].
  - split; [discriminate|intros (a' & H & _); discriminate].
Qed.

Lemma bind_final {A B} (m : M A) (f : A -> M B) st a :
  result (m st) = Returned a ->
  final (bind m f st) = final (f a (final (m st))).
Proof. unfold bind. now intros ->. Qed.

Lemma process_loop py fs st : process py fs st = process_files py fs inputs st.
Proof.
  unfold process, inputs, process_files, bind, ret.
  destruct (process_file py fs simple_log "Simple" st) as [[[]|e1] s1 t1];
    simpl; [|reflexivity].
  destruct (process_file py fs learnable_log "Learnable" s1) as [[[]|e2] s2 t2];
    simpl; [|reflexivity].
  destruct (process_file py fs full_log "Full" s2) as [[[]|e3] s3 t3];
    simpl; rewrite ?app_nil_r; reflexivity.
Qed.

(** A log that does not exist costs nothing: the run is that of the logs
    that exist. *)
Lemma process_files_existing py fs ins st :
  process_files py fs ins st
  = process_files py fs (filter (exists_file fs) ins) st.
Proof.
  revert st; induction ins as [|[path label] ins IH]; intros st;
    [reflexivity|].
  simpl. unfold exists_file at 1. simpl fst.
  destruct (fs path) as [content|] eqn:E.
  - simpl. unfold bind. now rewrite IH.
  - unfold process_file at 1. rewrite E, ret_bind. apply IH.
Qed.

Lemma process_files_other py fs ins label m st :
  ~ In label (map snd ins) ->
  dict_get label (mapping m (final (process_files py fs ins st)))
  = dict_get label (mapping m st).
Proof.
  revert st; induction ins as [|[path l] ins IH]; intros st Hn;
    [reflexivity|].
  simpl in Hn. simpl. unfold bind.
  pose proof (process_file_other py fs path l label m st) as Ho.
  destruct (result (process_file py fs path l st)); simpl.
  - rewrite IH by tauto. apply Ho. tauto.
  - apply Ho. tauto.
Qed.

Lemma process_file_result py fs path label st :
  result (process_file py fs path label st) = Returned tt <->
  (forall content, fs path = Some content -> converts py content = true).
Proof.
  unfold process_file. destruct (fs path) as [content|].
  - rewrite extract_metrics_result. split; [now intros H c [= <-]|auto].
  - simpl. split; [discriminate|reflexivity].
Qed.

Lemma process_files_result py fs ins st :
  result (process_files py fs ins st) = Returned tt <->
  (forall path label content,
      In (path, label) ins -> fs path = Some content ->
      converts py content = true).
Proof.
  revert st; induction ins as [|[path l] ins IH]; intros st.
  - simpl. split; [contradiction|reflexivity].
  - simpl process_files. rewrite bind_result. split.
    + intros ([] & H1 & H2) p l' c [[= <- <-]|Hi] Hc.
      * now apply (process_file_result py fs path l st).
      * exact (proj1 (IH _) H2 p l' c Hi Hc).
    + intros H. exists tt. split.
      * apply process_file_result. intros c Hc. apply (H path l c); simpl; auto.
      * apply (proj2 (IH _)). intros p l' c Hi. apply (H p l' c). now right.
Qed.

(** After a run that returns, the entries of a label are those of its own
    log. *)
Lemma process_file_lookup py fs path label st m :
  result (process_file py fs path label st) = Returned tt ->
  dict_get label (mapping m (final (process_file py fs path label st)))
  = match fs path with
    | Some content =>
        match extracted py content m with
        | Some v => Some v
        | None => dict_get label (mapping m st)
        end
    | None => dict_get label (mapping m st)
    end.
Proof.
  intros H. pose proof (proj1 (process_file_result _ _ _ _ _) H) as Hc.
  unfold process_file in *. destruct (fs path) as [content|]; [|reflexivity].
  apply extract_metrics_lookup. now apply Hc.
Qed.

Lemma process_files_lookup py fs ins st path label m :
  NoDup (map snd ins) -> In (path, label) ins ->
  result (process_files py fs ins st) = Returned tt ->
  dict_get label (mapping m (final (process_files py fs ins st)))
  = match fs path with
    | Some content =>
        match extracted py content m with
        | Some v => Some v
        | None => dict_get label (mapping m st)
        end
    | None => dict_get label (mapping m st)
    end.
Proof.
  revert st; induction ins as [|[p l] ins IH]; intros st Hn Hi Hr;
    [contradiction|].
  simpl in Hn. inversion Hn as [|? ? Hl Hn']; subst.
  simpl process_files in *. apply bind_result in Hr as ([] & H1 & H2).
  rewrite (bind_final _ _ _ _ H1).
  destruct Hi as [[= -> ->]|Hi].
  - rewrite process_files_other by assumption.
    now apply process_file_lookup.
  - rewrite (IH _ Hn' Hi H2).
    assert (Hne : l <> label).
    { intros ->. apply Hl. now apply (in_map snd) in Hi. }
    rewrite (process_file_other py fs p l label m st Hne). reflexivity.
Qed.

Lemma labels_nodup : NoDup labels.
Proof.
  unfold labels, inputs. simpl.
  repeat constructor; simpl; intuition discriminate.
Qed.

(** ** The order of the keys *)

Lemma ordered_more done more st : ordered done st -> ordered (done ++ more) st.
Proof. intros H m. apply subseq_app_r, H. Qed.

Lemma dict_set_ordered done label v d :
  subseq (keys d) (done ++ [label]) ->
  subseq (keys (dict_set label v d)) (done ++ [label]).
Proof.
  intros H. destruct (dict_get label d) as [v'|] eqn:E.
  - rewrite keys_set_present; [assumption|congruence].
  - rewrite keys_set_absent by assumption.
    apply subseq_snoc. apply subseq_drop_last with (x := label); [assumption|].
    now apply dict_get_none.
Qed.

Lemma store_set_ordered done label m v st :
  ordered (done ++ [label]) st ->
  ordered (done ++ [label]) (store_set m label v st).
Proof.
  intros H m'. rewrite mapping_set.
  destruct (String.eqb _ _); [apply dict_set_ordered|]; apply H.
Qed.

Lemma process_file_ordered py fs done path label :
  triple (ordered (done ++ [label])) (process_file py fs path label)
         (ordered (done ++ [label])).
Proof.
  apply process_file_triple. intros m v st. apply store_set_ordered.
Qed.

Lemma process_files_ordered py fs done ins :
  triple (ordered done) (process_files py fs ins)
         (ordered (done ++ map snd ins)).
Proof.
  revert done; induction ins as [|[path label] ins IH]; intros done.
  - simpl. apply triple_ret. intros st H. now apply ordered_more.
  - simpl process_files. simpl map.
    apply triple_bind with (Q := ordered (done ++ [label])).
    + intros st H. apply process_file_ordered. now apply ordered_more.
    + intros _. specialize (IH (done ++ [label])).
      rewrite <- app_assoc in IH. exact IH.
    + intros st H. replace (done ++ label :: map snd ins)
        with ((done ++ [label]) ++ map snd ins) by now rewrite <- app_assoc.
      now apply ordered_more.
Qed.

Lemma ordered_metrics : ordered [] metrics.
Proof. intros []; apply subseq_nil. Qed.

Lemma process_ordered py fs :
  ordered labels (final (process py fs metrics))
  /\ Forall (ordered labels) (trail (process py fs metrics)).
Proof.
  rewrite process_loop.
  exact (process_files_ordered py fs [] inputs metrics ordered_metrics).
Qed.

(** ** Writing the files *)

Lemma write_other path p t fs : p <> path -> write path t fs p = fs p.
Proof.
  intros H. unfold write. destruct (String.eqb p path) eqn:E; [|reflexivity].
  apply String.eqb_eq in E. congruence.
Qed.

Lemma commit_lookup ws fs p :
  commit ws fs p = match last_write p ws with
                   | Some t => Some t
                   | None => fs p
                   end.
Proof.
  revert fs; induction ws as [|[q t] ws IH]; intros fs; [reflexivity|].
  unfold commit in *. simpl. rewrite IH.
  destruct (last_write p ws); [reflexivity|].
  unfold write. simpl. destruct (String.eqb p q); reflexivity.
Qed.

(** The script writes none of the logs it reads. *)
Lemma outputs_spare_inputs py st path label :
  In (path, label) inputs -> last_write path (outputs py st) = None.
Proof.
  unfold inputs. simpl.
  intros [[= <- <-]|[[= <- <-]|[[= <- <-]|[]]]]; reflexivity.
Qed.

Lemma last_write_app_none p a b :
  last_write p (a ++ b) = None -> last_write p a = None.
Proof.
  induction a as [|[q t] a IH]; [reflexivity|]. simpl.
  destruct (last_write p (a ++ b)); [discriminate|].
  rewrite IH by reflexivity. trivial.
Qed.

(** The writing stops at the first path that cannot be opened: the files
    written are those before it, and all of them when there is none. *)
Lemma write_files_spec w ws :
  exists rest,
    ws = snd (write_files w ws) ++ rest
    /\ (forall p, In p (map fst (snd (write_files w ws))) -> w p = true)
    /\ match rest with
       | [] => fst (write_files w ws) = Returned tt
       | (p, _) :: _ => w p = false
                        /\ fst (write_files w ws) = Raised (OSError p)
       end.
Proof.
  induction ws as [|[p t] ws (rest & E & Hw & Hr)].
  - exists []. simpl. repeat split. intros p [].
  - simpl. destruct (w p) eqn:Hp.
    + destruct (write_files w ws) as [o done]. exists rest. simpl in *.
      split; [now rewrite <- E|]. split; [|exact Hr].
      intros q [<-|Hq]; auto.
    + exists ((p, t) :: ws). simpl. split; [reflexivity|].
      split; [intros q []|auto].
Qed.

Lemma write_files_all w ws :
  (forall p, In p (map fst ws) -> w p = true) ->
  write_files w ws = (Returned tt, ws).
Proof.
  induction ws as [|[p t] ws IH]; intros H; [reflexivity|].
  simpl. rewrite (H p) by now left.
  rewrite IH; [reflexivity|]. intros q Hq. apply H. now right.
Qed.

Lemma write_files_returned w ws :
  fst (write_files w ws) = Returned tt ->
  snd (write_files w ws) = ws /\ forall p, In p (map fst ws) -> w p = true.
Proof.
  induction ws as [|[p t] ws IH]; simpl.
  - intros _. split; [reflexivity|]. intros p [].
  - destruct (w p) eqn:Hp; [|discriminate].
    destruct (write_files w ws) as [o done]. simpl in *. intros Ho.
    destruct (IH Ho) as [-> Hw]. split; [reflexivity|].
    intros q [<-|Hq]; auto.
Qed.

Lemma write_files_head w p t ws :
  w p = true -> In (p, t) (snd (write_files w ((p, t) :: ws))).
Proof.
  intros H. simpl. rewrite H. destruct (write_files w ws). now left.
Qed.

(** How a run ends once the logs have been processed. *)
Lemma main_returned py w fs :
  result (process py fs metrics) = Returned tt ->
  main py w fs
  = let (o, done) := write_files w (outputs py (final (process py fs metrics))) in
    Execution o done
      (match o with
       | Returned _ =>
           txt "Metrics extracted and saved to " ++ txt results_dir ++ [nl]
       | Raised _ => []
       end).
Proof. intros H. unfold main. now rewrite H. Qed.

Lemma main_raised py w fs e :
  result (process py fs metrics) = Raised e ->
  main py w fs = Execution (Raised e) [] [].
Proof. intros H. unfold main. now rewrite H. Qed.

Lemma main_written py w fs :
  result (process py fs metrics) = Returned tt ->
  (forall p, In p (map fst (outputs py (final (process py fs metrics)))) ->
             w p = true) ->
  status (main py w fs) = Returned tt
  /\ written (main py w fs) = outputs py (final (process py fs metrics)).
Proof.
  intros Hr Hw. rewrite (main_returned py w fs Hr).
  rewrite (write_files_all w _ Hw). split; reflexivity.
Qed.

(** A run that returns has processed the logs and written the four
    files. *)
Lemma main_status_returned py w fs :
  status (main py w fs) = Returned tt ->
  result (process py fs metrics) = Returned tt
  /\ written (main py w fs) = outputs py (final (process py fs metrics)).
Proof.
  intros H. destruct (result (process py fs metrics)) as [[]|e] eqn:Hr.
  - split; [reflexivity|]. rewrite (main_returned py w fs Hr) in *.
    pose proof (write_files_returned w
                  (outputs py (final (process py fs metrics)))) as Hwr.
    destruct (write_files w (outputs py (final (process py fs metrics))))
      as [o done]. simpl in *. now destruct (Hwr H).
  - rewrite (main_raised py w fs e Hr) in H. discriminate.
Qed.

Lemma written_spare_inputs py w fs path label :
  In (path, label) inputs -> last_write path (written (main py w fs)) = None.
Proof.
  intros Hi. destruct (result (process py fs metrics)) as [[]|e] eqn:Hr.
  - rewrite (main_returned py w fs Hr).
    destruct (write_files_spec w (outputs py (final (process py fs metrics))))
      as (rest & E & _).
    destruct (write_files w (outputs py (final (process py fs metrics))))
      as [o done]. simpl in *.
    apply (last_write_app_none path done rest). rewrite <- E.
    now apply (outputs_spare_inputs py _ path label).
  - now rewrite (main_raised py w fs e Hr).
Qed.

Lemma process_file_ext py fs1 fs2 path label st :
  fs1 path = fs2 path ->
  process_file py fs1 path label st = process_file py fs2 path label st.
Proof. unfold process_file. now intros ->. Qed.

Lemma process_files_ext py fs1 fs2 ins st :
  (forall path label, In (path, label) ins -> fs1 path = fs2 path) ->
  process_files py fs1 ins st = process_files py fs2 ins st.
Proof.
  revert st; induction ins as [|[path label] ins IH]; intros st H;
    [reflexivity|].
  simpl. unfold bind.
  rewrite (process_file_ext py fs1 fs2 path label st)
    by (apply (H path label); now left).
  destruct (result (process_file py fs2 path label st)); [|reflexivity].
  rewrite IH; [reflexivity|]. intros p l Hi. apply (H p l). now right.
Qed.

(** ** The text of a CSV file *)

Lemma csv_field_plain t : existsb csv_special t = false -> csv_field t = t.
Proof. unfold csv_field. now intros ->. Qed.

Lemma csv_line_header py m :
  csv_line py [CStr "Simulation Type"; CStr (metric_name m)] = csv_header m.
Proof. destruct m; reflexivity. Qed.

Lemma csv_line_entry py l v :
  existsb csv_special (txt l) = false ->
  csv_line py [CStr l; CNum v] = csv_entry py l v.
Proof.
  intros H. unfold csv_line, csv_entry. cbn [map cell_text join].
  rewrite (csv_field_plain (txt l) H). now rewrite <- !app_assoc.
Qed.

Lemma labels_plain l : In l labels -> existsb csv_special (txt l) = false.
Proof.
  unfold labels, inputs. simpl.
  intros [<-|[<-|[<-|[]]]]; reflexivity.
Qed.

Lemma csv_text_entries py ls d :
  (forall l, In l ls -> existsb csv_special (txt l) = false) ->
  csv_text py (map (fun kv => [CStr (fst kv); CNum (snd kv)]) (entries ls d))
  = csv_entries py ls d.
Proof.
  intros H. induction ls as [|l ls IH]; [reflexivity|].
  change (csv_entries py (l :: ls) d)
    with (match dict_get l d with
          | Some v => csv_entry py l v
          | None => []
          end ++ csv_entries py ls d).
  rewrite <- IH by (intros k Hk; apply H; now right).
  rewrite entries_cons, map_app. unfold csv_text. rewrite flat_map_app.
  f_equal. destruct (dict_get l d) as [v|]; [|reflexivity].
  cbn [map flat_map fst snd]. rewrite app_nil_r.
  apply csv_line_entry, H. now left.
Qed.

(** The file of a category whose keys follow the labels: the header
    line, then the line of each label that the mapping has. *)
Lemma csv_text_ordered py m d :
  subseq (keys d) labels ->
  csv_text py (csv_rows m d) = csv_header m ++ csv_entries py labels d.
Proof.
  intros H. unfold csv_rows.
  rewrite <- (entries_ordered labels d labels_nodup H) at 1.
  change (csv_text py (?r :: ?rs)) with (csv_line py r ++ csv_text py rs).
  rewrite csv_line_header. f_equal.
  apply csv_text_entries, labels_plain.
Qed.

Lemma json_inner_entry py l ov :
  flat_map json_char (txt l) = txt l ->
  json_inner py (match ov with Some v => [(l, v)] | None => [] end)
  = json_of_entry py l ov.
Proof.
  intros H. destruct ov as [v|]; [|reflexivity].
  unfold json_inner, json_of_entry, json_string.
  cbn [map join fst snd]. rewrite H.
  change (dquote :: txt l ++ [dquote]) with ([dquote] ++ txt l ++ [dquote]).
  now rewrite <- !app_assoc.
Qed.

Lemma main_ext py w fs1 fs2 :
  (forall path label, In (path, label) inputs -> fs1 path = fs2 path) ->
  main py w fs1 = main py w fs2.
Proof.
  intros H. unfold main. rewrite !process_loop.
  now rewrite (process_files_ext py fs1 fs2 inputs metrics H).
Qed.

(** * The claims of the specification *)

(** ** Missing logs *)

Lemma missing_label_unlisted fs path label :
  In (path, label) inputs -> fs path = None ->
  ~ In label (map snd (filter (exists_file fs) inputs)).
Proof.
  unfold inputs. simpl. unfold exists_file. simpl.
  intros [[= <- <-]|[[= <- <-]|[[= <- <-]|[]]]] Hf; rewrite Hf;
    repeat match goal with
           | |- context [fs ?p] => destruct (fs p)
           end; simpl; intuition discriminate.
Qed.

Lemma process_files_keep (P : MetricStore -> Prop) py fs ins :
  (forall label m v st, In label (map snd ins) -> P st ->
                        P (store_set m label v st)) ->
  triple P (process_files py fs ins) P.
Proof.
  induction ins as [|[path label] ins IH]; intros H.
  - simpl. now apply triple_ret.
  - simpl process_files. apply triple_bind with (Q := P); [| |auto].
    + apply process_file_triple. intros m v st. apply H. now left.
    + intros _. apply IH. intros l m v st Hl. apply H. now right.
Qed.

(** Claim C3.  A log that does not exist is skipped: the guarded call
    returns at once, without an assignment; no mapping ever gets an entry
    for its label; and the run is exactly the run over the logs that do
    exist, so that whether it returns depends on their texts alone. *)
Theorem missing_log_is_skipped py fs path label :
  In (path, label) inputs -> fs path = None ->
  (forall st, process_file py fs path label st = Run (Returned tt) st [])
  /\ (forall m st,
        In st (metrics :: trail (process py fs metrics)
                 ++ [final (process py fs metrics)]) ->
        dict_get label (mapping m st) = None)
  /\ (forall st, process py fs st
                 = process_files py fs (filter (exists_file fs) inputs) st)
  /\ (result (process py fs metrics) = Returned tt <->
      forall path' label' content,
        In (path', label') inputs -> fs path' = Some content ->
        converts py content = true).
Proof.
  intros Hi Hf. repeat split.
  - intros st. unfold process_file. now rewrite Hf.
  - intros m st Hst.
    pose proof (missing_label_unlisted fs path label Hi Hf) as Hn.
    assert (T : triple (fun s => dict_get label (mapping m s) = None)
                  (process_files py fs (filter (exists_file fs) inputs))
                  (fun s => dict_get label (mapping m s) = None)).
    { apply process_files_keep. intros l m' v s Hl Hs.
      rewrite lookup_set_other; [assumption|]. intros ->. contradiction. }
    assert (H0 : dict_get label (mapping m metrics) = None)
      by (destruct m; reflexivity).
    destruct (T metrics H0) as [Hfin Htr].
    rewrite process_loop, process_files_existing in Hst.
    destruct Hst as [<-|Hst]; [assumption|].
    apply in_app_or in Hst as [Hst|[<-|[]]]; [|assumption].
    rewrite Forall_forall in Htr. now apply Htr.
  - intros st. rewrite process_loop. apply process_files_existing.
  - rewrite process_loop. apply process_files_result.
  - rewrite process_loop. apply process_files_result.
Qed.

Lemma missing_log_is_skipped_witness :
  dict_get "Full"
    (mapping EnergyConsumption
       (final (process cpython (only simple_log full_sample_log) metrics)))
  = None.
Proof.
  apply (proj1 (proj2 (missing_log_is_skipped cpython
                         (only simple_log full_sample_log)
                         full_log "Full"%string
                         (or_intror (or_intror (or_introl eq_refl)))
                         eq_refl))
               EnergyConsumption).
  apply in_cons, in_or_app. right. left. reflexivity.
Defined.

(** ** The order of the keys *)

(** Claim C10.  At every point of a run (before the first assignment,
    after each assignment, at the end), each of the three mappings has its
    keys among Simple, Learnable and Full, each at most once and in that
    order.  Every call of [extract_metrics] keeps this: started in a store
    whose keys follow the labels processed so far and its own, it only
    passes through such stores. *)
Theorem keys_follow_processing_order py fs :
  (forall st,
      In st (metrics :: trail (process py fs metrics)
               ++ [final (process py fs metrics)]) ->
      forall m, incl (keys (mapping m st)) ["Simple"; "Learnable"; "Full"]%string
                /\ NoDup (keys (mapping m st))
                /\ subseq (keys (mapping m st))
                          ["Simple"; "Learnable"; "Full"]%string)
  /\ (forall done label content,
         triple (ordered (done ++ [label]))
                (extract_metrics py content label)
                (ordered (done ++ [label]))).
Proof.
  split.
  - intros st Hst m.
    assert (Ho : ordered labels st).
    { destruct (process_ordered py fs) as [Hfin Htr].
      destruct Hst as [<-|Hst].
      - apply (ordered_more [] labels), ordered_metrics.
      - apply in_app_or in Hst as [Hst|[<-|[]]]; [|assumption].
        rewrite Forall_forall in Htr. now apply Htr. }
    specialize (Ho m).
    change labels with ["Simple"; "Learnable"; "Full"]%string in Ho.
    split; [|split; [|assumption]].
    + intros k Hk. eapply subseq_in; eauto.
    + eapply subseq_nodup; [eassumption|apply labels_nodup].
  - intros done label content. apply extract_metrics_triple.
    intros m v st. apply store_set_ordered.
Qed.

(** ** Running the script again *)

(** Claim C8.  The files a run writes do not change what a second run
    reads: run again on the directory that the first run left, the script
    ends the same way and writes the same bytes to the same files, and
    leaves the directory as it found it. *)
Theorem rerun_writes_same_bytes py w fs :
  let fs' := commit (written (main py w fs)) fs in
  main py w fs' = main py w fs
  /\ forall p, commit (written (main py w fs')) fs' p = fs' p.
Proof.
  intros fs'.
  assert (H : main py w fs' = main py w fs).
  { apply main_ext. intros path label Hi. subst fs'.
    rewrite commit_lookup.
    now rewrite (written_spare_inputs py w fs path label Hi). }
  split; [exact H|].
  intros p. rewrite H. subst fs'. rewrite !commit_lookup.
  destruct (last_write p (written (main py w fs))); reflexivity.
Qed.

(** ** Numbers that do not convert *)

(** Claim C9.  A log can exist, be readable, and still end the run: the
    class of digits and dots captures [1.2.3] or [..], [float] raises
    [ValueError] on it, nothing catches the exception, and no file is
    written. *)
Theorem bad_number_ends_the_run py w fs :
  (fs simple_log = Some (txt "Total network usage = 1.2.3") ->
   network_token (txt "Total network usage = 1.2.3") = Some (txt "1.2.3")
   /\ py_float (txt "1.2.3") = inl (ValueError (txt "1.2.3"))
   /\ status (main py w fs) = Raised (ValueError (txt "1.2.3"))
   /\ written (main py w fs) = [])
  /\ (fs simple_log = Some (txt "x : Energy Consumed = ..") ->
      energy_tokens (txt "x : Energy Consumed = ..") = [txt ".."]
      /\ py_float (txt "..") = inl (ValueError (txt ".."))
      /\ status (main py w fs) = Raised (ValueError (txt ".."))
      /\ written (main py w fs) = []).
Proof.
  split; intros H; (split; [vm_compute; reflexivity|]);
    (split; [vm_compute; reflexivity|]);
    unfold main, process, bind, process_file; rewrite H;
    vm_compute; split; reflexivity.
Qed.

Lemma bad_number_ends_the_run_witness :
  status (main cpython writable_dir
            (only simple_log (txt "Total network usage = 1.2.3")))
  = Raised (ValueError (txt "1.2.3"))
  /\ written (main cpython writable_dir
                (only simple_log (txt "x : Energy Consumed = ..")))
     = [].
Proof.
  split.
  - apply (proj1 (bad_number_ends_the_run cpython writable_dir
                    (only simple_log (txt "Total network usage = 1.2.3")))
                 eq_refl).
  - apply (proj2 (bad_number_ends_the_run cpython writable_dir
                    (only simple_log (txt "x : Energy Consumed = ..")))
                 eq_refl).
Defined.

(** ** What one call stores *)

Ltac extract_cases py content :=
  unfold time_converts, energy_converts, network_converts,
    extract_metrics, bind, lift;
  destruct (time_token content) as [?ds|]; cbv beta iota;
    [match goal with
     | |- context [py_int py ?d] => destruct (py_int py d) as [?e|?n]
     end|]; simpl;
  (destruct (py_floats (energy_tokens content)) as [?e|?fs]; simpl;
   [|destruct (network_token content) as [?tok|]; cbv beta iota;
     [try match goal with
          | |- context [py_float ?t] => destruct (py_float t) as [?e|?f]
          end|]; simpl]).

Lemma extract_time_final py content label st :
  execution_time (final (extract_metrics py content label st))
  = match time_token content with
    | Some ds =>
        match py_int py ds with
        | inr n => dict_set label (VInt n) (execution_time st)
        | inl _ => execution_time st
        end
    | None => execution_time st
    end.
Proof. extract_cases py content; reflexivity. Qed.

Lemma extract_energy_final py content label st :
  energy_consumption (final (extract_metrics py content label st))
  = if time_converts py content then
      match py_floats (energy_tokens content) with
      | inr fs => dict_set label (py_sum py fs) (energy_consumption st)
      | inl _ => energy_consumption st
      end
    else energy_consumption st.
Proof. extract_cases py content; reflexivity. Qed.

Lemma extract_network_final py content label st :
  network_usage (final (extract_metrics py content label st))
  = if (time_converts py content && energy_converts content)%bool then
      match network_token content with
      | Some tok =>
          match py_float tok with
          | inr f => dict_set label (VFloat f) (network_usage st)
          | inl _ => network_usage st
          end
      | None => network_usage st
      end
    else network_usage st.
Proof. extract_cases py content; reflexivity. Qed.

Lemma extract_energy_raises py content label st e :
  time_converts py content = true ->
  py_floats (energy_tokens content) = inl e ->
  result (extract_metrics py content label st) = Raised e.
Proof.
  intros Ht He. revert Ht. extract_cases py content;
    try discriminate; intros _; congruence.
Qed.

Lemma extract_network_raises py content label st tok e :
  time_converts py content = true -> energy_converts content = true ->
  network_token content = Some tok -> py_float tok = inl e ->
  result (extract_metrics py content label st) = Raised e.
Proof.
  intros Ht He Hn Hf. revert Ht He.
  unfold time_converts, energy_converts, extract_metrics, bind, lift.
  rewrite Hn, Hf.
  destruct (time_token content) as [ds|];
    [destruct (py_int py ds)|]; simpl;
    destruct (py_floats (energy_tokens content)); simpl;
    try discriminate; reflexivity.
Qed.

Lemma py_sum_four py :
  py_sum py [S754_finite false 6755399441055744 (-52);
             S754_finite false 5629499534213120 (-51)] = VFloat four.
Proof.
  unfold py_sum. destruct (compensated_sum py); vm_compute; reflexivity.
Qed.

(** ** Energy consumption *)

(** A matched token that is no float literal: the call raises and the
    energy mapping is not set. *)
Lemma energy_unset_on_bad_token :
  let r := extract_metrics cpython (txt "x : Energy Consumed = ..")
                           "Simple" metrics in
  energy_tokens (txt "x : Energy Consumed = ..") = [txt ".."]
  /\ result r = Raised (ValueError (txt ".."))
  /\ dict_get "Simple" (energy_consumption (final r)) = None.
Proof. vm_compute. intuition. Qed.

(** Claim C1, amended.  When the execution-time digits convert and every
    token matched by the energy pattern is a float literal, the energy
    mapping is set to their sum, whatever the network-usage pattern does
    afterwards; without a match the sum is the integer 0, which equals
    0.0.  A matched token that is no float literal raises and leaves the
    mapping as it was.  The log of [task-1] with 1.5 and [task-2] with
    2.5 stores 4.0. *)
Theorem energy_total_is_stored py :
  (forall content label st fs,
      time_converts py content = true ->
      py_floats (energy_tokens content) = inr fs ->
      dict_get label
        (energy_consumption (final (extract_metrics py content label st)))
      = Some (py_sum py fs)
      /\ (energy_tokens content = [] ->
          py_sum py fs = VInt 0
          /\ py_eq (py_sum py fs) (VFloat fzero) = true))
  /\ (forall content label st e,
         time_converts py content = true ->
         py_floats (energy_tokens content) = inl e ->
         result (extract_metrics py content label st) = Raised e
         /\ energy_consumption (final (extract_metrics py content label st))
            = energy_consumption st)
  /\ (forall label st,
         energy_tokens energy_log = [txt "1.5"; txt "2.5"]
         /\ dict_get label
              (energy_consumption
                 (final (extract_metrics py energy_log label st)))
            = Some (VFloat four)).
Proof.
  split; [|split].
  - intros content label st fs Ht He. rewrite extract_energy_final, Ht, He.
    split; [apply dict_get_set_same|].
    intros Hn. rewrite Hn in He. injection He as <-. split; reflexivity.
  - intros content label st e Ht He. split.
    + now apply extract_energy_raises.
    + now rewrite extract_energy_final, Ht, He.
  - intros label st. split; [vm_compute; reflexivity|].
    rewrite extract_energy_final.
    replace (time_converts py energy_log) with true by (vm_compute; reflexivity).
    replace (py_floats (energy_tokens energy_log))
      with (@inr exn _ [S754_finite false 6755399441055744 (-52);
                        S754_finite false 5629499534213120 (-51)])
      by (vm_compute; reflexivity).
    rewrite py_sum_four. apply dict_get_set_same.
Qed.

Lemma energy_total_is_stored_witness :
  dict_get "Simple"
    (energy_consumption
       (final (extract_metrics cpython full_sample_log "Simple" metrics)))
  = Some (py_sum cpython [S754_finite false 6755399441055744 (-52);
                          S754_finite false 5629499534213120 (-51)]).
Proof.
  apply (proj1 (energy_total_is_stored cpython) full_sample_log
               "Simple"%string metrics).
  - vm_compute. reflexivity.
  - vm_compute. reflexivity.
Defined.

(** ** Execution time and network usage *)

Lemma py_int_value py ds :
  is_inr (py_int py ds) = true -> py_int py ds = inr (digits_value ds).
Proof.
  unfold py_int. destruct (max_str_digits py); [reflexivity|].
  destruct (Nat.ltb _ _); [discriminate|reflexivity].
Qed.

(** The text has [Total network usage = 1.5], but a dot follows: the
    token is [1.5.], [float] raises, and no network usage is stored. *)
Lemma network_unset_on_trailing_dot :
  let content := txt "Total network usage = 1.5." in
  let r := extract_metrics cpython content "Simple" metrics in
  content = network_literal ++ txt "1.5" ++ txt "."
  /\ py_float (txt "1.5") = inr (S754_finite false 6755399441055744 (-52))
  /\ result r = Raised (ValueError (txt "1.5."))
  /\ dict_get "Simple" (network_usage (final r)) = None
  /\ written (main cpython writable_dir (only simple_log content)) = [].
Proof. vm_compute. intuition. Qed.

(** Claim C2, amended.  The digits after the leftmost [EXECUTION TIME : ]
    that has digits after it are stored as an [int] (when their number is
    within the interpreter's limit for [int]).  The run of digits and
    dots after the leftmost [Total network usage = ] that has one is
    stored as a [float] when it is a float literal and the earlier
    conversions of the call succeeded; when it is no float literal the
    call raises and stores no network usage.  A pattern without an
    occurrence leaves its mapping as it was, without an entry for the
    label at the end of a run that returns, and its absence raises
    nothing. *)
Theorem first_occurrences_are_stored py content label st :
  let r := extract_metrics py content label st in
  (forall pre ds post,
      first_occurrence time_literal is_digit content pre ds post ->
      is_inr (py_int py ds) = true ->
      dict_get label (execution_time (final r))
      = Some (VInt (digits_value ds)))
  /\ (forall pre tok post f,
         first_occurrence network_literal is_digit_or_dot content pre tok post ->
         time_converts py content = true -> energy_converts content = true ->
         py_float tok = inr f ->
         result r = Returned tt
         /\ dict_get label (network_usage (final r)) = Some (VFloat f))
  /\ (forall pre tok post e,
         first_occurrence network_literal is_digit_or_dot content pre tok post ->
         time_converts py content = true -> energy_converts content = true ->
         py_float tok = inl e ->
         result r = Raised e /\ network_usage (final r) = network_usage st)
  /\ (no_occurrence time_literal is_digit content ->
      execution_time (final r) = execution_time st)
  /\ (no_occurrence network_literal is_digit_or_dot content ->
      network_usage (final r) = network_usage st)
  /\ (no_occurrence time_literal is_digit content ->
      no_occurrence network_literal is_digit_or_dot content ->
      energy_converts content = true -> result r = Returned tt)
  /\ (forall fs path,
         In (path, label) inputs -> fs path = Some content ->
         result (process py fs metrics) = Returned tt ->
         (no_occurrence time_literal is_digit content ->
          dict_get label (execution_time (final (process py fs metrics)))
          = None)
         /\ (no_occurrence network_literal is_digit_or_dot content ->
             dict_get label (network_usage (final (process py fs metrics)))
             = None)).
Proof.
  intros r; subst r. repeat split.
  - intros pre ds post Ho Hi. apply first_token_found in Ho.
    rewrite <- time_token_first in Ho.
    rewrite extract_time_final, Ho, (py_int_value py ds Hi).
    apply dict_get_set_same.
  - apply extract_metrics_result. unfold converts.
    apply first_token_found in H. rewrite <- network_token_first in H.
    unfold network_converts. now rewrite H0, H1, H, H2.
  - apply first_token_found in H. rewrite <- network_token_first in H.
    rewrite extract_network_final, H0, H1, H, H2. apply dict_get_set_same.
  - apply first_token_found in H. rewrite <- network_token_first in H.
    now apply extract_network_raises with (tok := tok).
  - apply first_token_found in H. rewrite <- network_token_first in H.
    now rewrite extract_network_final, H0, H1, H, H2.
  - intros Hn. apply first_token_absent in Hn.
    rewrite <- time_token_first in Hn. now rewrite extract_time_final, Hn.
  - intros Hn. apply first_token_absent in Hn.
    rewrite <- network_token_first in Hn.
    rewrite extract_network_final, Hn. now destruct (_ && _)%bool.
  - intros Ht Hn He. apply first_token_absent in Ht, Hn.
    rewrite <- time_token_first in Ht. rewrite <- network_token_first in Hn.
    apply extract_metrics_result. unfold converts, time_converts,
      network_converts. now rewrite Ht, Hn, He.
  - intros Hn. apply first_token_absent in Hn.
    rewrite <- time_token_first in Hn.
    rewrite process_loop in *.
    change (dict_get label (mapping ExecutionTime
              (final (process_files py fs inputs metrics))) = None).
    rewrite (process_files_lookup py fs inputs metrics path label ExecutionTime
               labels_nodup H H1), H0.
    simpl. now rewrite Hn.
  - intros Hn. apply first_token_absent in Hn.
    rewrite <- network_token_first in Hn.
    rewrite process_loop in *.
    change (dict_get label (mapping NetworkUsage
              (final (process_files py fs inputs metrics))) = None).
    rewrite (process_files_lookup py fs inputs metrics path label NetworkUsage
               labels_nodup H H1), H0.
    simpl. now rewrite Hn.
Qed.

Lemma first_occurrences_are_stored_witness :
  dict_get "Simple"
    (execution_time
       (final (extract_metrics cpython full_sample_log "Simple" metrics)))
  = Some (VInt 1234).
Proof.
  apply (proj1 (first_occurrences_are_stored cpython full_sample_log
                  "Simple"%string metrics)
               [] (txt "1234")
               (nl :: lines ["task-1 : Energy Consumed = 1.5";
                             "task-2 : Energy Consumed = 2.5";
                             "Total network usage = 10.25"]%string)).
  - repeat split.
    + discriminate.
    + intros pre' c post' _ _. apply Nat.le_0_l.
  - reflexivity.
Defined.

(** ** Numbers in the JSON file *)

Lemma uint_text_digits d : forallb is_digit (uint_text d) = true.
Proof. induction d; simpl; auto. Qed.

Lemma digits_value_acc d acc :
  fold_left (fun a c => 10 * a + digit_value c) (uint_text d) (Zpos acc)
  = Zpos (Pos.of_uint_acc d acc).
Proof.
  revert acc; induction d; intros acc;
    cbn [uint_text fold_left Pos.of_uint_acc]; [reflexivity|..];
    rewrite <- IHd; f_equal;
    match goal with
    | |- context [digit_value ?c] =>
        let v := eval vm_compute in (digit_value c) in
        change (digit_value c) with v
    end; lia.
Qed.

Lemma digits_value_uint d :
  digits_value (uint_text d) = Z.of_N (Pos.of_uint d).
Proof.
  unfold digits_value.
  induction d; cbn [uint_text fold_left Pos.of_uint];
    [reflexivity|exact IHd|..];
    match goal with
    | |- context [digit_value ?c] =>
        let v := eval vm_compute in (digit_value c) in
        change (10 * 0 + digit_value c) with v
    end; apply digits_value_acc.
Qed.

Lemma digits_value_pos p : digits_value (uint_text (Pos.to_uint p)) = Zpos p.
Proof. now rewrite digits_value_uint, DecimalPos.Unsigned.of_to. Qed.

(** The digits of a positive number do not start with a zero. *)
Lemma nzhead_head d :
  match Decimal.nzhead d with Decimal.D0 _ => False | _ => True end.
Proof. induction d; simpl; auto. Qed.

Lemma pos_digits_head p :
  match Pos.to_uint p with
  | Decimal.Nil | Decimal.D0 _ => False
  | _ => True
  end.
Proof.
  pose proof (DecimalPos.Unsigned.to_of (Pos.to_uint p)) as H.
  rewrite DecimalPos.Unsigned.of_to in H. simpl in H.
  pose proof (DecimalPos.Unsigned.to_uint_nonzero p) as Hz.
  pose proof (nzhead_head (Pos.to_uint p)) as Hh.
  unfold Decimal.unorm in H. rewrite H.
  destruct (Decimal.nzhead (Pos.to_uint p)); auto.
Qed.

Lemma int_part_ok_pos p : int_part_ok (uint_text (Pos.to_uint p)) = true.
Proof.
  pose proof (pos_digits_head p) as H.
  destruct (Pos.to_uint p); simpl; tauto.
Qed.

Lemma decode_digits t :
  forallb is_digit t = true -> int_part_ok t = true ->
  json_decode_number t = Some (VInt (digits_value t)).
Proof.
  intros Hd Hi. unfold json_decode_number.
  destruct t as [|c t]; [discriminate|].
  simpl in Hd. apply andb_true_iff in Hd as [Hc Hd].
  assert (Hn : text_eqb (c :: t) (txt "NaN") = false).
  { simpl. destruct (Ascii.eqb c "N") eqn:E; [|reflexivity].
    apply Ascii.eqb_eq in E; subst c. discriminate. }
  assert (Hinf : text_eqb (c :: t) (txt "Infinity") = false).
  { simpl. destruct (Ascii.eqb c "I") eqn:E; [|reflexivity].
    apply Ascii.eqb_eq in E; subst c. discriminate. }
  assert (Hm : Ascii.eqb c "-" = false).
  { destruct (Ascii.eqb c "-") eqn:E; [|reflexivity].
    apply Ascii.eqb_eq in E; subst c. discriminate. }
  assert (Hninf : text_eqb (c :: t) (txt "-Infinity") = false).
  { simpl. now rewrite Hm. }
  rewrite Hn, Hinf, Hninf, Hm.
  replace (span is_digit (c :: t)) with (c :: t, @nil ascii).
  - now rewrite Hi.
  - symmetry. rewrite <- (app_nil_r (c :: t)) at 1.
    apply span_app; [simpl; now rewrite Hc, Hd|exact I].
Qed.

(** An [int] is written as a literal that reads back as the same
    [int]. *)
Lemma int_reads_back py z : reads_back py (VInt z).
Proof.
  unfold reads_back. simpl json_number. destruct z as [|p|p].
  - reflexivity.
  - simpl int_repr. rewrite decode_digits.
    + now rewrite digits_value_pos.
    + apply uint_text_digits.
    + apply int_part_ok_pos.
  - simpl int_repr. unfold json_decode_number.
    pose proof (pos_digits_head p) as Hh.
    pose proof (uint_text_digits (Pos.to_uint p)) as Hd.
    pose proof (int_part_ok_pos p) as Hi.
    pose proof (digits_value_pos p) as Hv.
    destruct (uint_text (Pos.to_uint p)) as [|c t] eqn:E; [discriminate|].
    simpl in Hd. apply andb_true_iff in Hd as [Hc Hd].
    assert (Hninf : text_eqb ("-"%char :: c :: t) (txt "-Infinity") = false).
    { simpl. destruct (Ascii.eqb c "I") eqn:E'; [|reflexivity].
      apply Ascii.eqb_eq in E'; subst c. discriminate. }
    rewrite Hninf.
    change (text_eqb ("-"%char :: c :: t) (txt "NaN")) with false.
    change (text_eqb ("-"%char :: c :: t) (txt "Infinity")) with false.
    cbv iota. rewrite Ascii.eqb_refl.
    replace (span is_digit (c :: t)) with (c :: t, @nil ascii).
    + rewrite Hi, Hv. reflexivity.
    + symmetry. rewrite <- (app_nil_r (c :: t)) at 1.
      apply span_app; [simpl; now rewrite Hc, Hd|exact I].
Qed.

Lemma py_floats_length toks fs :
  py_floats toks = inr fs -> List.length fs = List.length toks.
Proof.
  revert fs; induction toks as [|tok toks IH]; simpl; intros fs.
  - now intros [= <-].
  - destruct (py_float tok); [discriminate|].
    destruct (py_floats toks) as [|fs']; [discriminate|].
    intros [= <-]. simpl. now rewrite (IH fs').
Qed.

(** Every entry of the final store comes from the log of its label. *)
Lemma stored_origin py fs m label v :
  result (process py fs metrics) = Returned tt ->
  dict_get label (mapping m (final (process py fs metrics))) = Some v ->
  exists path content,
    In (path, label) inputs /\ fs path = Some content
    /\ extracted py content m = Some v.
Proof.
  rewrite process_loop. intros Hr Hg.
  assert (H0 : dict_get label (mapping m metrics) = None)
    by (destruct m; reflexivity).
  destruct (in_dec string_dec label labels) as [Hi|Hn].
  - apply in_map_iff in Hi as ([path l] & Hl & Hi). simpl in Hl; subst l.
    rewrite (process_files_lookup py fs inputs metrics path label m
               labels_nodup Hi Hr), H0 in Hg.
    destruct (fs path) as [content|] eqn:Hp; [|discriminate].
    exists path, content. repeat split; auto.
    now destruct (extracted py content m).
  - rewrite process_files_other in Hg by exact Hn. congruence.
Qed.

(** A log without an energy match: the stored total is the [int] 0, it
    is written as [0], and [0] reads back as an [int], not as a
    [float]. *)
Lemma energy_zero_reads_back_as_int :
  let fs := only simple_log (txt "EXECUTION TIME : 1234") in
  let st := final (process cpython fs metrics) in
  result (process cpython fs metrics) = Returned tt
  /\ dict_get "Simple" (energy_consumption st) = Some (VInt 0)
  /\ json_number cpython (VInt 0) = txt "0"
  /\ json_decode_number (txt "0") = Some (VInt 0)
  /\ option_map (fun doc => json_entry doc EnergyConsumption "Simple")
       (json_load (json_text cpython st))
     = Some (Some (JNumber (VInt 0))).
Proof. vm_compute. repeat split. Qed.

(** ** The short repr of a float *)

Module ShortRepr.


Lemma text_eqb_eq a b : text_eqb a b = true -> a = b.
Proof.
  revert b; induction a as [|x a IH]; intros [|y b]; simpl; try discriminate.
  - reflexivity.
  - intros H. apply andb_true_iff in H as [Hx Ha].
    apply Ascii.eqb_eq in Hx. f_equal; auto.
Qed.

Lemma float_eqb_eq a b : float_eqb a b = true -> a = b.
Proof.
  destruct a as [s|s| |s m e], b as [s'|s'| |s' m' e']; simpl;
    try discriminate; intros H.
  - apply Bool.eqb_prop in H. now subst.
  - apply Bool.eqb_prop in H. now subst.
  - reflexivity.
  - apply andb_true_iff in H as [H He]. apply andb_true_iff in H as [Hs Hm].
    apply Bool.eqb_prop in Hs. apply Pos.eqb_eq in Hm. apply Z.eqb_eq in He.
    now subst.
Qed.

Lemma digit_number_char c : is_digit c = true -> number_char c = true.
Proof. unfold number_char. now intros ->. Qed.

Lemma digits_number_chars t :
  forallb is_digit t = true -> forallb number_char t = true.
Proof.
  induction t as [|c t IH]; [reflexivity|]. simpl. intros H.
  apply andb_true_iff in H as [Hc Ht].
  now rewrite (digit_number_char c Hc), IH.
Qed.

Lemma exponent_chars t z :
  json_exponent t = Some z -> forallb number_char t = true.
Proof.
  unfold json_exponent. destruct t as [|c t]; [discriminate|].
  destruct (Ascii.eqb c "e" || Ascii.eqb c "E")%bool eqn:Hc; [|discriminate].
  assert (Hn : number_char c = true).
  { apply orb_true_iff in Hc as [H|H]; apply Ascii.eqb_eq in H; subst c;
      reflexivity. }
  assert (Hd : forall ds,
             (negb (is_nil ds) && forallb is_digit ds)%bool = true ->
             forallb number_char ds = true).
  { intros ds H. apply andb_true_iff in H as [_ H].
    now apply digits_number_chars. }
  cbn [forallb]. rewrite Hn. cbn [andb].
  destruct t as [|s t].
  - destruct (negb (is_nil []) && forallb is_digit [])%bool eqn:E;
      [discriminate E|discriminate].
  - destruct (Ascii.eqb s "-") eqn:Hm.
    + apply Ascii.eqb_eq in Hm; subst s.
      destruct (negb (is_nil t) && forallb is_digit t)%bool eqn:E;
        [|discriminate]. intros _. cbn [forallb].
      now rewrite (Hd t E).
    + destruct (Ascii.eqb s "+") eqn:Hp.
      * apply Ascii.eqb_eq in Hp; subst s.
        destruct (negb (is_nil t) && forallb is_digit t)%bool eqn:E;
          [|discriminate]. intros _. cbn [forallb].
        now rewrite (Hd t E).
      * destruct (negb (is_nil (s :: t)) && forallb is_digit (s :: t))%bool
          eqn:E; [|discriminate]. intros _. now apply Hd.
Qed.

(** A literal that reads as a number is made of the characters of
    numbers. *)
Lemma decoded_chars t v :
  json_decode_number t = Some v -> forallb number_char t = true.
Proof.
  unfold json_decode_number.
  destruct (text_eqb t (txt "NaN")) eqn:E1;
    [apply text_eqb_eq in E1; now subst|].
  destruct (text_eqb t (txt "Infinity")) eqn:E2;
    [apply text_eqb_eq in E2; now subst|].
  destruct (text_eqb t (txt "-Infinity")) eqn:E3;
    [apply text_eqb_eq in E3; now subst|].
  assert (Hbody : forall neg body,
             decode_body neg body = Some v ->
             forallb number_char body = true).
  { intros neg body. unfold decode_body.
    pose proof (span_eq is_digit body) as He.
    pose proof (span_run is_digit body) as Hr.
    destruct (span is_digit body) as [ip r]. simpl in He, Hr. subst body.
    destruct (int_part_ok ip); [|discriminate].
    rewrite forallb_app, (digits_number_chars ip Hr). cbn [andb].
    destruct r as [|c r]; [reflexivity|].
    destruct (Ascii.eqb c ".") eqn:Hc.
    - apply Ascii.eqb_eq in Hc; subst c.
      pose proof (span_eq is_digit r) as He'.
      pose proof (span_run is_digit r) as Hr'.
      destruct (span is_digit r) as [fp r']. simpl in He', Hr'. subst r.
      destruct (is_nil fp); [discriminate|].
      cbn [forallb]. change (number_char ".") with true. cbn [andb].
      rewrite forallb_app, (digits_number_chars fp Hr'). cbn [andb].
      destruct r' as [|c' r']; [reflexivity|].
      destruct (json_exponent (c' :: r')) eqn:Ex; [|discriminate].
      intros _. eapply exponent_chars; eauto.
    - destruct (json_exponent (c :: r)) eqn:Ex; [|discriminate].
      intros _. eapply exponent_chars; eauto. }
  destruct t as [|c t].
  - change (decode_body false [] = Some v -> forallb number_char [] = true).
    apply Hbody.
  - destruct (Ascii.eqb c "-") eqn:Hm.
    + apply Ascii.eqb_eq in Hm; subst c.
      change (decode_body true t = Some v ->
              forallb number_char ("-"%char :: t) = true).
      intros H. cbn [forallb]. change (number_char "-") with true.
      apply (Hbody true t H).
    + change (decode_body false (c :: t) = Some v ->
              forallb number_char (c :: t) = true).
      apply Hbody.
Qed.


Lemma digit_not c x :
  is_digit c = true -> is_digit x = false -> Ascii.eqb c x = false.
Proof.
  intros Hc Hx. destruct (Ascii.eqb c x) eqn:E; [|reflexivity].
  apply Ascii.eqb_eq in E. congruence.
Qed.

(** Behind its sign, a literal that starts with a digit is read by
    [decode_body]. *)
Lemma decode_signed s d body :
  is_digit d = true ->
  json_decode_number (sign_text s ++ d :: body) = decode_body s (d :: body).
Proof.
  intros Hd. unfold json_decode_number.
  pose proof (digit_not d "N" Hd eq_refl) as HN.
  pose proof (digit_not d "I" Hd eq_refl) as HI.
  pose proof (digit_not d "-" Hd eq_refl) as Hm.
  destruct s; cbn [sign_text app].
  - change (text_eqb ("-"%char :: d :: body) (txt "NaN")) with false.
    change (text_eqb ("-"%char :: d :: body) (txt "Infinity")) with false.
    assert (H : text_eqb ("-"%char :: d :: body) (txt "-Infinity") = false)
      by (simpl; now rewrite HI).
    rewrite H. reflexivity.
  - assert (H1 : text_eqb (d :: body) (txt "NaN") = false)
      by (simpl; now rewrite HN).
    assert (H2 : text_eqb (d :: body) (txt "Infinity") = false)
      by (simpl; now rewrite HI).
    assert (H3 : text_eqb (d :: body) (txt "-Infinity") = false)
      by (simpl; now rewrite Hm).
    rewrite H1, H2, H3, Hm. reflexivity.
Qed.

Lemma span_all f t : forallb f t = true -> span f t = (t, []).
Proof.
  intros H. rewrite <- (app_nil_r t) at 1. apply span_app; [exact H|exact I].
Qed.

Lemma body_fixed s ip fp :
  forallb is_digit ip = true -> int_part_ok ip = true ->
  fp <> [] -> forallb is_digit fp = true ->
  exists f, decode_body s (ip ++ "."%char :: fp) = Some (VFloat f).
Proof.
  intros Hip Hok Hn Hfp. unfold decode_body.
  rewrite (span_app is_digit ip ("."%char :: fp) Hip eq_refl), Hok.
  rewrite Ascii.eqb_refl, (span_all is_digit fp Hfp).
  destruct fp; [congruence|]. cbn [is_nil]. eauto.
Qed.

Lemma body_exp s ip fp c ex z :
  forallb is_digit ip = true -> int_part_ok ip = true ->
  forallb is_digit fp = true ->
  is_digit c = false -> Ascii.eqb c "." = false ->
  json_exponent (c :: ex) = Some z ->
  exists f,
    decode_body s (ip ++ (if is_nil fp then [] else "."%char :: fp) ++ c :: ex)
    = Some (VFloat f).
Proof.
  intros Hip Hok Hfp Hc Hdot Hex. unfold decode_body.
  destruct fp as [|d fp]; cbn [is_nil app].
  - rewrite (span_app is_digit ip (c :: ex) Hip Hc), Hok, Hdot, Hex. eauto.
  - rewrite (span_app is_digit ip ("."%char :: d :: fp ++ c :: ex) Hip eq_refl).
    rewrite Hok, Ascii.eqb_refl.
    change (d :: fp ++ c :: ex) with ((d :: fp) ++ c :: ex).
    rewrite (span_app is_digit (d :: fp) (c :: ex) Hfp Hc).
    cbn [is_nil]. rewrite Hex. eauto.
Qed.

Lemma pos_text_head p :
  exists c r, uint_text (Pos.to_uint p) = c :: r /\ Ascii.eqb c "0" = false.
Proof.
  pose proof (pos_digits_head p) as H.
  destruct (Pos.to_uint p); try contradiction; cbn [uint_text]; eauto.
Qed.

Lemma nonneg_text z :
  0 <= z -> forallb is_digit (int_repr z) = true /\ int_repr z <> [].
Proof.
  intros H. destruct z as [|p|p]; [split; [reflexivity|discriminate]| |lia].
  cbn [int_repr]. split; [apply uint_text_digits|].
  destruct (pos_text_head p) as (c & r & E & _). rewrite E. discriminate.
Qed.

Lemma exponent_ok e : exists z, json_exponent ("e"%char :: exponent_text e) = Some z.
Proof.
  unfold exponent_text.
  destruct (nonneg_text (Z.abs e) (Z.abs_nonneg e)) as [Hd Hn].
  set (ds := match int_repr (Z.abs e) with
             | [d] => ["0"%char; d]
             | ds => ds
             end).
  assert (H : (negb (is_nil ds) && forallb is_digit ds)%bool = true).
  { subst ds. destruct (int_repr (Z.abs e)) as [|d [|d' t]]; [congruence| |].
    - simpl in *. now rewrite Hd.
    - cbn [is_nil negb andb]. exact Hd. }
  assert (Hs : forall neg : bool,
             json_exponent ("e"%char :: (if neg then "-"%char else "+"%char) :: ds)
             = if (negb (is_nil ds) && forallb is_digit ds)%bool
               then Some (if neg then - digits_value ds else digits_value ds)
               else None)
    by (intros [|]; reflexivity).
  rewrite Hs, H. eauto.
Qed.

Lemma drop_zeros_snoc l c :
  Ascii.eqb c "0" = false ->
  exists l', drop_zeros (l ++ [c]) = l' ++ [c]
             /\ (forall x, In x l' -> In x l).
Proof.
  intros Hc. induction l as [|x l (l' & E & Hi)].
  - exists []. simpl. rewrite Hc. split; [reflexivity|]. intros x [].
  - cbn [app drop_zeros]. destruct (Ascii.eqb x "0").
    + exists l'. split; [exact E|]. intros y Hy. right. now apply Hi.
    + exists (x :: l). split; [reflexivity|]. auto.
Qed.

(** The digits of a positive number keep their first digit, which is
    not a zero, when the zeros at their end are dropped. *)
Lemma strip_zeros_pos p :
  exists c r,
    strip_zeros (uint_text (Pos.to_uint p)) = c :: r
    /\ is_digit c = true /\ Ascii.eqb c "0" = false
    /\ forallb is_digit r = true.
Proof.
  destruct (pos_text_head p) as (c & r & E & Hc).
  pose proof (uint_text_digits (Pos.to_uint p)) as Hd. rewrite E in *.
  cbn [forallb] in Hd. apply andb_true_iff in Hd as [Hdc Hdr].
  unfold strip_zeros. cbn [rev].
  destruct (drop_zeros_snoc (rev r) c Hc) as (l' & -> & Hi).
  rewrite rev_app_distr. cbn [rev app]. exists c, (rev l').
  repeat split; auto.
  apply forallb_forall. intros x Hx. apply in_rev in Hx. apply Hi in Hx.
  apply in_rev in Hx. rewrite forallb_forall in Hdr. now apply Hdr.
Qed.

Lemma zeros_digits n : forallb is_digit (zeros n) = true.
Proof. induction n; [reflexivity|exact IHn]. Qed.

Lemma forallb_firstn {A} (f : A -> bool) n l :
  forallb f l = true -> forallb f (firstn n l) = true.
Proof.
  revert l; induction n as [|n IH]; intros [|x l]; simpl; auto.
  intros H. apply andb_true_iff in H as [Hx Hl]. now rewrite Hx, IH.
Qed.

Lemma forallb_skipn {A} (f : A -> bool) n l :
  forallb f l = true -> forallb f (skipn n l) = true.
Proof.
  revert l; induction n as [|n IH]; intros [|x l]; simpl; auto.
  intros H. apply andb_true_iff in H as [Hx Hl]. now apply IH.
Qed.

(** Digits that do not start with a zero are written as a float
    literal, wherever the decimal point falls. *)
Lemma format_short_float s c r decpt :
  is_digit c = true -> Ascii.eqb c "0" = false ->
  forallb is_digit r = true ->
  exists f,
    json_decode_number (sign_text s ++ format_short (c :: r) decpt)
    = Some (VFloat f).
Proof.
  intros Hc H0 Hr. unfold format_short.
  assert (Hok : forall t, int_part_ok (c :: t) = true)
    by (intros t; simpl; now rewrite H0).
  destruct ((decpt <=? -4) || (16 <? decpt))%bool.
  - rewrite (decode_signed s c _ Hc).
    destruct (exponent_ok (decpt - 1)) as [z Hz].
    apply (body_exp s [c] r "e"%char (exponent_text (decpt - 1)) z);
      auto. simpl. now rewrite Hc.
  - destruct (decpt <=? 0) eqn:E1.
    + change (txt "0." ++ ?x) with ("0"%char :: "."%char :: x).
      rewrite (decode_signed s "0" _ eq_refl).
      apply (body_fixed s ["0"%char]); auto.
      * destruct (zeros (Z.to_nat (- decpt))); discriminate.
      * rewrite forallb_app, zeros_digits. simpl. now rewrite Hc, Hr.
    + destruct (Z.of_nat (List.length (c :: r)) <=? decpt) eqn:E2.
      * rewrite <- app_comm_cons, (decode_signed s c _ Hc).
        replace (c :: r ++ zeros (Z.to_nat decpt - List.length (c :: r))
                   ++ txt ".0")
          with ((c :: r ++ zeros (Z.to_nat decpt - List.length (c :: r)))
                  ++ "."%char :: ["0"%char])
          by (simpl; now rewrite <- app_assoc).
        apply body_fixed; auto; [|discriminate].
        simpl. now rewrite Hc, forallb_app, Hr, zeros_digits.
      * apply Z.leb_gt in E1, E2.
        destruct (Z.to_nat decpt) as [|n] eqn:En; [lia|].
        cbn [firstn skipn]. rewrite <- app_comm_cons.
        rewrite (decode_signed s c _ Hc).
        apply (body_fixed s (c :: firstn n r)); auto.
        -- simpl. now rewrite Hc, forallb_firstn.
        -- intros Hs. apply (f_equal (@List.length ascii)) in Hs.
           rewrite length_skipn in Hs. simpl in Hs, E2. lia.
        -- now apply forallb_skipn.
Qed.

Lemma decimal_text_float s p x :
  exists f, json_decode_number (decimal_text s p x) = Some (VFloat f).
Proof.
  unfold decimal_text.
  destruct (strip_zeros_pos p) as (c & r & -> & Hc & H0 & Hr).
  now apply format_short_float.
Qed.

Lemma candidates_texts s m e k n t :
  In t (candidates s m e k n) -> exists p x, t = decimal_text s p x.
Proof.
  unfold candidates. destruct (scaled (fraction m e) (k - n)) as [N D].
  destruct (N mod D =? 0); [|destruct (2 * (N mod D) <? D);
    [|destruct (2 * (N mod D) =? D); [destruct (Z.even (N / D))|]]];
    simpl; intros H; intuition eauto.
Qed.

Lemma candidates_first s m e k n :
  In (hd [] (candidates s m e k n)) (candidates s m e k n).
Proof.
  unfold candidates. destruct (scaled (fraction m e) (k - n)) as [N D].
  destruct (N mod D =? 0); [|destruct (2 * (N mod D) <? D);
    [|destruct (2 * (N mod D) =? D); [destruct (Z.even (N / D))|]]];
    simpl; auto.
Qed.

Lemma shortest_found s m e k n fuel t :
  shortest s m e k n fuel = Some t ->
  reads_as (S754_finite s m e) t = true
  /\ exists n', In t (candidates s m e k n').
Proof.
  revert n; induction fuel as [|fuel IH]; intros n; [discriminate|].
  cbn [shortest].
  destruct (find (reads_as (S754_finite s m e)) (candidates s m e k n))
    as [t'|] eqn:E.
  - intros [= <-]. apply find_some in E as [Hi Hr]. eauto.
  - apply IH.
Qed.

(** The repr of a finite float is the text of a decimal. *)
Lemma short_repr_text s m e :
  exists p x, short_repr (S754_finite s m e) = decimal_text s p x.
Proof.
  cbn [short_repr].
  destruct (shortest s m e (decimal_point m e) 1 17) as [t|] eqn:E.
  - apply shortest_found in E as (_ & n' & Hi).
    apply candidates_texts in Hi. exact Hi.
  - apply (candidates_texts s m e (decimal_point m e) 17), candidates_first.
Qed.

(** When the search for the shortest digits ends, the repr reads back
    as the float. *)
Lemma short_repr_exact s m e :
  shortest s m e (decimal_point m e) 1 17 <> None ->
  json_decode_number (short_repr (S754_finite s m e))
  = Some (VFloat (S754_finite s m e)).
Proof.
  cbn [short_repr].
  destruct (shortest s m e (decimal_point m e) 1 17) as [t|] eqn:E;
    [|congruence].
  intros _. apply shortest_found in E as [Hr _].
  unfold reads_as in Hr.
  destruct (json_decode_number t) as [[z|g]|]; try discriminate.
  apply float_eqb_eq in Hr. now subst.
Qed.

End ShortRepr.

(** ** Numbers in the CSV files *)

Lemma digit_not_special c : is_digit c = true -> csv_special c = false.
Proof.
  intros H. unfold csv_special.
  destruct (Ascii.eqb c ",") eqn:E1;
    [apply Ascii.eqb_eq in E1; subst c; discriminate|].
  destruct (Ascii.eqb c dquote) eqn:E2;
    [apply Ascii.eqb_eq in E2; subst c; discriminate|].
  destruct (Ascii.eqb c cr) eqn:E3;
    [apply Ascii.eqb_eq in E3; subst c; discriminate|].
  destruct (Ascii.eqb c nl) eqn:E4;
    [apply Ascii.eqb_eq in E4; subst c; discriminate|].
  reflexivity.
Qed.

Lemma digits_not_special t :
  forallb is_digit t = true -> existsb csv_special t = false.
Proof.
  induction t as [|c t IH]; [reflexivity|]. simpl. intros H.
  apply andb_true_iff in H as [Hc Ht].
  now rewrite (digit_not_special c Hc), (IH Ht).
Qed.

Lemma int_repr_not_special z : existsb csv_special (int_repr z) = false.
Proof.
  destruct z as [|p|p]; [reflexivity| |].
  - apply digits_not_special, uint_text_digits.
  - cbn [int_repr existsb].
    now rewrite (digits_not_special _ (uint_text_digits (Pos.to_uint p))).
Qed.

Lemma number_char_not_special c : number_char c = true -> csv_special c = false.
Proof.
  unfold number_char. intros H. apply orb_true_iff in H as [H|H].
  - now apply digit_not_special.
  - apply existsb_exists in H as (x & Hi & Hx).
    apply Ascii.eqb_eq in Hx; subst x. simpl in Hi.
    repeat (destruct Hi as [<-|Hi]; [reflexivity|]). contradiction.
Qed.

(** With the short repr, no number has a character that would make
    the writer quote its field. *)
Lemma number_field_plain py v :
  float_repr py = short_repr -> csv_field (py_str py v) = py_str py v.
Proof.
  intros Hpy. apply csv_field_plain. destruct v as [z|f]; cbn [py_str].
  - apply int_repr_not_special.
  - rewrite Hpy. destruct f as [s|s| |s m e];
      [destruct s; reflexivity|destruct s; reflexivity|reflexivity|].
    destruct (ShortRepr.short_repr_text s m e) as (p & x & Ht).
    destruct (ShortRepr.decimal_text_float s p x) as [g Hg].
    rewrite <- Ht in Hg.
    pose proof (ShortRepr.decoded_chars _ _ Hg) as Hch.
    destruct (existsb csv_special (short_repr (S754_finite s m e)))
      eqn:E; [|reflexivity].
    apply existsb_exists in E as (c & Hi & Hc).
    rewrite forallb_forall in Hch.
    now rewrite (number_char_not_special c (Hch c Hi)) in Hc.
Qed.

(** ** Reading the JSON file back *)

Module JsonReader.
Import ShortRepr.


Lemma number_not_delimiter c : number_char c = true -> is_delimiter c = false.
Proof.
  unfold number_char. intros H. apply orb_true_iff in H as [H|H].
  - unfold is_delimiter, is_ws.
    rewrite (digit_not c " " H eq_refl), (digit_not c "009" H eq_refl),
      (digit_not c nl H eq_refl), (digit_not c cr H eq_refl),
      (digit_not c "," H eq_refl), (digit_not c "}" H eq_refl).
    reflexivity.
  - apply existsb_exists in H as (x & Hi & Hx).
    apply Ascii.eqb_eq in Hx; subst x. simpl in Hi.
    repeat (destruct Hi as [<-|Hi]; [reflexivity|]). contradiction.
Qed.

Lemma number_not_brace c : number_char c = true -> Ascii.eqb c "{" = false.
Proof.
  unfold number_char. intros H. apply orb_true_iff in H as [H|H].
  - apply (digit_not c "{" H eq_refl).
  - apply existsb_exists in H as (x & Hi & Hx).
    apply Ascii.eqb_eq in Hx; subst x. simpl in Hi.
    repeat (destruct Hi as [<-|Hi]; [reflexivity|]). contradiction.
Qed.

Lemma token_span lit c rest :
  forallb number_char lit = true -> is_delimiter c = true ->
  span (fun c => negb (is_delimiter c)) (lit ++ c :: rest) = (lit, c :: rest).
Proof.
  intros Hl Hc. apply span_app.
  - apply forallb_forall. intros x Hx. rewrite forallb_forall in Hl.
    now rewrite (number_not_delimiter x (Hl x Hx)).
  - simpl. now rewrite Hc.
Qed.

Lemma skip_ws_blank c t : is_ws c = true -> skip_ws (c :: t) = skip_ws t.
Proof.
  intros H. unfold skip_ws. simpl. rewrite H.
  now destruct (span is_ws t).
Qed.

Lemma skip_ws_stop c t : is_ws c = false -> skip_ws (c :: t) = c :: t.
Proof. intros H. unfold skip_ws. simpl. now rewrite H. Qed.

Lemma delimiter_ws c : is_delimiter c = false -> is_ws c = false.
Proof.
  unfold is_delimiter. intros H.
  apply orb_false_iff in H as [H _]. now apply orb_false_iff in H as [H _].
Qed.

Lemma decoded_nonempty lit v : json_decode_number lit = Some v -> lit <> [].
Proof. intros H ->. discriminate. Qed.

(** A number literal before a delimiter is read as its number. *)
Lemma parse_number fuel lit v c rest :
  json_decode_number lit = Some v -> is_delimiter c = true ->
  parse_value (S fuel) (lit ++ c :: rest) = Some (JNumber v, c :: rest)
  /\ skip_ws (lit ++ c :: rest) = lit ++ c :: rest.
Proof.
  intros Hd Hc. pose proof (decoded_chars lit v Hd) as Hn.
  pose proof (token_span lit c rest Hn Hc) as Hs.
  destruct lit as [|h lit]; [discriminate|].
  cbn [forallb] in Hn. apply andb_true_iff in Hn as [Hh _].
  rewrite <- app_comm_cons in *. split.
  - cbn [parse_value]. rewrite (number_not_brace h Hh), Hs, Hd. reflexivity.
  - apply skip_ws_stop, delimiter_ws, number_not_delimiter, Hh.
Qed.

Lemma jset_fresh k j ms :
  ~ In k (map fst ms) -> jset k j ms = ms ++ [(k, j)].
Proof.
  induction ms as [|[k' j'] ms IH]; [reflexivity|]. simpl. intros H.
  destruct (String.eqb k k') eqn:E.
  - apply String.eqb_eq in E. exfalso. apply H. now left.
  - rewrite IH; [reflexivity|]. intros Hi. apply H. now right.
Qed.

Lemma fold_jset acc dj :
  NoDup (map fst (acc ++ dj)) ->
  fold_left (fun a kj => jset (fst kj) (snd kj) a) dj acc = acc ++ dj.
Proof.
  revert acc; induction dj as [|[k j] dj IH]; intros acc H.
  - now rewrite app_nil_r.
  - cbn [fold_left fst snd]. rewrite jset_fresh.
    + rewrite IH; rewrite <- app_assoc; [reflexivity|exact H].
    + rewrite map_app in H. apply NoDup_remove_2 in H.
      intros Hi. apply H. apply in_or_app. now left.
Qed.

Lemma decodes_keys py d dj : Forall2 (decodes py) d dj -> map fst dj = keys d.
Proof.
  induction 1 as [|kv kj d dj [Hk _] _ IH]; [reflexivity|].
  simpl. now rewrite Hk, IH.
Qed.

Lemma members_join py d rest :
  d <> [] -> (forall kv, In kv d -> plain_key (fst kv)) ->
  join (txt "," ++ [nl])
    (map (fun kv => txt "    " ++ json_string (fst kv) ++ txt ": "
                    ++ json_number py (snd kv)) d)
  ++ [nl] ++ txt "  }" ++ rest
  = txt "    " ++ members_text py d rest.
Proof.
  induction d as [|[k v] d IH]; intros Hn Hp; [congruence|]. clear Hn.
  destruct (Hp (k, v) (or_introl eq_refl)) as [Hs _]. simpl in Hs.
  destruct d as [|kv' d].
  - cbn [map join members_text fst snd]. rewrite Hs.
    repeat (progress cbn [app] || rewrite <- app_assoc). reflexivity.
  - change (join (txt "," ++ [nl]) (map ?f ((k, v) :: kv' :: d)))
      with (f (k, v) ++ (txt "," ++ [nl])
              ++ join (txt "," ++ [nl]) (map f (kv' :: d))).
    change (members_text py ((k, v) :: kv' :: d) rest)
      with (dquote :: txt k ++ dquote :: txt ": " ++ json_number py v
              ++ txt "," ++ nl :: txt "    "
              ++ members_text py (kv' :: d) rest).
    rewrite <- !app_assoc, IH;
      [|discriminate|intros x Hx; apply Hp; now right].
    cbn [fst snd]. rewrite Hs.
    repeat (progress cbn [app] || rewrite <- app_assoc). reflexivity.
Qed.

(** What [json_inner] writes for a mapping with entries. *)
Lemma inner_text py d rest :
  d <> [] -> (forall kv, In kv d -> plain_key (fst kv)) ->
  json_inner py d ++ rest
  = txt "{" ++ nl :: txt "    " ++ members_text py d rest.
Proof.
  intros Hn Hp. rewrite <- (members_join py d rest Hn Hp).
  unfold json_inner. destruct d; [congruence|].
  now rewrite <- !app_assoc.
Qed.

Lemma string_of_txt k : string_of_list_ascii (txt k) = k.
Proof. apply string_of_list_ascii_of_string. Qed.

(** The members of a mapping are read one by one. *)
Lemma parse_entries py d :
  forall dj acc fuel rest,
    d <> [] -> Forall2 (decodes py) d dj ->
    (forall kv, In kv d -> plain_key (fst kv)) ->
    (List.length d < fuel)%nat ->
    parse_members fuel acc (members_text py d rest)
    = Some (JObject (fold_left (fun a kj => jset (fst kj) (snd kj) a) dj acc),
            rest).
Proof.
  induction d as [|[k v] d IH]; intros dj acc fuel rest Hn Hf Hp Hl;
    [congruence|].
  inversion Hf as [|kv [k' j] d0 dj' [Hk (v' & Hj & Hd)] Hf' E1 E2]; subst.
  simpl in Hk, Hj. subst k' j. clear Hn.
  destruct fuel as [|n]; [simpl in Hl; lia|].
  destruct (Hp (k, v) (or_introl eq_refl)) as [_ Hparse].
  cbn [members_text parse_members]. rewrite Ascii.eqb_refl.
  rewrite Hparse.
  change (skip_ws (txt ": " ++ ?x))
    with (skip_ws (":"%char :: " "%char :: x)).
  rewrite (skip_ws_stop ":" _ eq_refl).
  change (Ascii.eqb ":" ":") with true. cbv iota.
  rewrite (skip_ws_blank " " _ eq_refl), string_of_txt.
  cbn [fold_left fst snd].
  destruct d as [|kv2 d].
  - destruct n as [|n]; [simpl in Hl; lia|].
    destruct (parse_number n (json_number py v) v' nl (txt "  }" ++ rest)
                Hd eq_refl) as [Hv Hs].
    rewrite Hs, Hv. inversion Hf'; subst.
    reflexivity.
  - destruct n as [|n]; [simpl in Hl; lia|].
    change (txt "," ++ ?x) with (","%char :: x).
    destruct (parse_number n (json_number py v) v' ","
                (nl :: txt "    " ++ members_text py (kv2 :: d) rest)
                Hd eq_refl) as [Hv Hs].
    rewrite Hs, Hv.
    rewrite (skip_ws_stop "," _ eq_refl).
    change (Ascii.eqb "," ",") with true. cbv iota.
    change (txt "    " ++ ?x)
      with (" "%char :: " "%char :: " "%char :: " "%char :: x).
    rewrite (skip_ws_blank nl _ eq_refl), !(skip_ws_blank " " _ eq_refl).
    assert (Hq : exists y, members_text py (kv2 :: d) rest = dquote :: y)
      by (destruct kv2; simpl; eauto).
    destruct Hq as [y Hy]. rewrite Hy at 1.
    rewrite (skip_ws_stop dquote _ eq_refl), <- Hy.
    apply IH; auto.
    + discriminate.
    + intros x Hx. apply Hp. now right.
    + simpl in *. lia.
Qed.


Lemma inner_head py d : exists y, json_inner py d = "{"%char :: y.
Proof. destruct d; simpl; eauto. Qed.

Lemma members_head py d rest :
  d <> [] -> exists y, members_text py d rest = dquote :: y.
Proof. destruct d as [|[k v] d]; [congruence|]. simpl. eauto. Qed.

(** The object of a mapping is read as the object of its entries. *)
Lemma parse_inner py d dj fuel rest :
  Forall2 (decodes py) d dj ->
  (forall kv, In kv d -> plain_key (fst kv)) ->
  (List.length d + 1 < fuel)%nat ->
  parse_value fuel (json_inner py d ++ rest)
  = Some (JObject (fold_left (fun a kj => jset (fst kj) (snd kj) a) dj []),
          rest)
  /\ skip_ws (json_inner py d ++ rest) = json_inner py d ++ rest.
Proof.
  intros Hf Hp Hl. split.
  - destruct fuel as [|n]; [lia|]. destruct d as [|kv d].
    + inversion Hf; subst. cbn [json_inner txt list_ascii_of_string app].
      cbn [parse_value]. change (Ascii.eqb "{" "{") with true. cbv iota.
      rewrite (skip_ws_stop "}" _ eq_refl). reflexivity.
    + rewrite inner_text by (auto; discriminate).
      change (txt "{" ++ nl :: txt "    " ++ ?x)
        with ("{"%char :: nl :: " "%char :: " "%char :: " "%char :: " "%char
                :: x).
      cbn [parse_value]. change (Ascii.eqb "{" "{") with true. cbv iota.
      rewrite (skip_ws_blank nl _ eq_refl), !(skip_ws_blank " " _ eq_refl).
      destruct (members_head py (kv :: d) rest) as [y Hy]; [discriminate|].
      rewrite Hy at 1. rewrite (skip_ws_stop dquote _ eq_refl).
      change (Ascii.eqb dquote "}") with false. cbv iota. rewrite <- Hy.
      apply parse_entries; auto; [discriminate|simpl in *; lia].
  - destruct (inner_head py d) as [y ->]. apply skip_ws_stop. reflexivity.
Qed.

Lemma plain_metric m : plain_key (metric_name m).
Proof. destruct m; split; reflexivity. Qed.

Lemma plain_label l : In l labels -> plain_key l.
Proof.
  unfold labels, inputs. simpl.
  intros [<-|[<-|[<-|[]]]]; split; reflexivity.
Qed.

(** The text of the JSON file, member by member. *)
Lemma document_text py st :
  json_text py st
  = "{"%char :: nl :: " "%char :: " "%char
      :: dquote :: txt "execution_time" ++ dquote :: ":"%char :: " "%char
      :: json_inner py (execution_time st)
      ++ ","%char :: nl :: " "%char :: " "%char
      :: dquote :: txt "energy_consumption" ++ dquote :: ":"%char :: " "%char
      :: json_inner py (energy_consumption st)
      ++ ","%char :: nl :: " "%char :: " "%char
      :: dquote :: txt "network_usage" ++ dquote :: ":"%char :: " "%char
      :: json_inner py (network_usage st)
      ++ nl :: ["}"%char].
Proof.
  unfold json_text. cbn [map all_metrics join mapping].
  rewrite (proj1 (plain_metric ExecutionTime)),
    (proj1 (plain_metric EnergyConsumption)),
    (proj1 (plain_metric NetworkUsage)).
  cbn [metric_name].
  repeat (progress cbn [app] || rewrite <- app_assoc). reflexivity.
Qed.

(** The JSON file is read as an object of three objects, one for each
    category, with the entries of its mapping. *)
Lemma parse_document py st d1 d2 d3 fuel :
  Forall2 (decodes py) (execution_time st) d1 ->
  Forall2 (decodes py) (energy_consumption st) d2 ->
  Forall2 (decodes py) (network_usage st) d3 ->
  (forall m kv, In kv (mapping m st) -> plain_key (fst kv)) ->
  (forall m, List.length (mapping m st) + 5 < fuel)%nat ->
  parse_value fuel (json_text py st)
  = Some (JObject
            [("execution_time"%string,
              JObject (fold_left (fun a kj => jset (fst kj) (snd kj) a) d1 []));
             ("energy_consumption"%string,
              JObject (fold_left (fun a kj => jset (fst kj) (snd kj) a) d2 []));
             ("network_usage"%string,
              JObject (fold_left (fun a kj => jset (fst kj) (snd kj) a) d3 []))],
          []).
Proof.
  intros H1 H2 H3 Hp Hl.
  pose proof (Hl ExecutionTime) as L1. pose proof (Hl EnergyConsumption) as L2.
  pose proof (Hl NetworkUsage) as L3. cbn [mapping] in L1, L2, L3.
  destruct fuel as [|[|[|[|n]]]]; try lia.
  rewrite document_text.
  (* the opening brace and the first key *)
  cbn [parse_value]. change (Ascii.eqb "{" "{") with true. cbv iota.
  rewrite (skip_ws_blank nl _ eq_refl), !(skip_ws_blank " " _ eq_refl).
  rewrite (skip_ws_stop dquote _ eq_refl).
  change (Ascii.eqb dquote "}") with false. cbv iota.
  cbn [parse_members]. rewrite Ascii.eqb_refl.
  rewrite (proj2 (plain_metric ExecutionTime)).
  rewrite (skip_ws_stop ":" _ eq_refl).
  change (Ascii.eqb ":" ":") with true. cbv iota.
  rewrite (skip_ws_blank " " _ eq_refl).
  destruct (parse_inner py (execution_time st) d1 (S (S n))
              (","%char :: nl :: " "%char :: " "%char
                 :: dquote :: txt "energy_consumption" ++ dquote
                 :: ":"%char :: " "%char
                 :: json_inner py (energy_consumption st)
                 ++ ","%char :: nl :: " "%char :: " "%char
                 :: dquote :: txt "network_usage" ++ dquote
                 :: ":"%char :: " "%char
                 :: json_inner py (network_usage st) ++ nl :: ["}"%char])
              H1 (Hp ExecutionTime) ltac:(lia)) as [P1 S1].
  rewrite S1, P1.
  rewrite (skip_ws_stop "," _ eq_refl).
  change (Ascii.eqb "," ",") with true. cbv iota.
  rewrite (skip_ws_blank nl _ eq_refl), !(skip_ws_blank " " _ eq_refl).
  rewrite (skip_ws_stop dquote _ eq_refl).
  (* the second key *)
  cbn [parse_members]. rewrite Ascii.eqb_refl.
  rewrite (proj2 (plain_metric EnergyConsumption)).
  rewrite (skip_ws_stop ":" _ eq_refl).
  change (Ascii.eqb ":" ":") with true. cbv iota.
  rewrite (skip_ws_blank " " _ eq_refl).
  destruct (parse_inner py (energy_consumption st) d2 (S n)
              (","%char :: nl :: " "%char :: " "%char
                 :: dquote :: txt "network_usage" ++ dquote
                 :: ":"%char :: " "%char
                 :: json_inner py (network_usage st) ++ nl :: ["}"%char])
              H2 (Hp EnergyConsumption) ltac:(lia)) as [P2 S2].
  rewrite S2, P2.
  rewrite (skip_ws_stop "," _ eq_refl).
  change (Ascii.eqb "," ",") with true. cbv iota.
  rewrite (skip_ws_blank nl _ eq_refl), !(skip_ws_blank " " _ eq_refl).
  rewrite (skip_ws_stop dquote _ eq_refl).
  (* the third key and the closing brace *)
  cbn [parse_members]. rewrite Ascii.eqb_refl.
  rewrite (proj2 (plain_metric NetworkUsage)).
  rewrite (skip_ws_stop ":" _ eq_refl).
  change (Ascii.eqb ":" ":") with true. cbv iota.
  rewrite (skip_ws_blank " " _ eq_refl).
  destruct (parse_inner py (network_usage st) d3 n (nl :: ["}"%char])
              H3 (Hp NetworkUsage) ltac:(lia)) as [P3 S3].
  rewrite S3, P3. reflexivity.
Qed.


Lemma subseq_length {A} (l1 l2 : list A) :
  subseq l1 l2 -> (List.length l1 <= List.length l2)%nat.
Proof. induction 1; simpl; lia. Qed.

(** With the short repr, the literal of a number reads as a number of
    the same kind: an [int] as itself, a float as itself when the search
    for its digits ends. *)
Lemma number_read_back py v :
  float_repr py = short_repr ->
  exists v',
    json_decode_number (json_number py v) = Some v'
    /\ same_kind v v' = true
    /\ (forall z, v = VInt z -> v' = VInt z)
    /\ (forall f, v = VFloat f -> repr_found f = true -> v' = VFloat f).
Proof.
  intros Hpy. destruct v as [z|f].
  - exists (VInt z). split; [apply (int_reads_back py z)|].
    repeat split; congruence.
  - destruct f as [s|s| |s m e].
    + exists (VFloat (S754_zero s)). cbn [json_number]. rewrite Hpy.
      split; [destruct s; reflexivity|]. repeat split; congruence.
    + exists (VFloat (S754_infinity s)).
      split; [destruct s; reflexivity|]. repeat split; congruence.
    + exists (VFloat S754_nan).
      split; [reflexivity|]. repeat split; congruence.
    + cbn [json_number]. rewrite Hpy.
      destruct (short_repr_text s m e) as (p & x & Ht).
      destruct (decimal_text_float s p x) as [g Hg]. rewrite <- Ht in Hg.
      exists (VFloat g). split; [exact Hg|]. split; [reflexivity|].
      split; [congruence|]. intros f [= <-] Hfound.
      rewrite short_repr_exact in Hg; [congruence|].
      unfold repr_found in Hfound.
      destruct (shortest s m e (decimal_point m e) 1 17); congruence.
Qed.

Lemma decodes_exist py d :
  float_repr py = short_repr -> exists dj, Forall2 (decodes py) d dj.
Proof.
  intros Hpy. induction d as [|[k v] d [dj IH]].
  - exists []. constructor.
  - destruct (number_read_back py v Hpy) as (v' & Hd & _).
    exists ((k, JNumber v') :: dj). constructor; [|exact IH].
    split; [reflexivity|]. exists v'. auto.
Qed.

Lemma jfind_decoded py d dj label :
  Forall2 (decodes py) d dj ->
  match dict_get label d with
  | Some v =>
      exists v', jfind label dj = Some (JNumber v')
                 /\ json_decode_number (json_number py v) = Some v'
  | None => jfind label dj = None
  end.
Proof.
  induction 1 as [|[k v] [k' j] d dj [Hk (v' & Hj & Hd)] _ IH];
    [reflexivity|].
  simpl in Hk, Hj, Hd. subst k' j. cbn [dict_get jfind].
  destruct (String.eqb label k); [eauto|exact IH].
Qed.

(** The JSON file of a store whose keys are labels is read back as a
    document that has, for each entry of the store, the number that the
    literal of its value reads as, and nothing else. *)
Lemma json_load_store py st :
  float_repr py = short_repr ->
  (forall m, subseq (keys (mapping m st)) labels) ->
  exists doc,
    json_load (json_text py st) = Some doc
    /\ forall m label,
         match dict_get label (mapping m st) with
         | Some v =>
             exists v', json_entry doc m label = Some (JNumber v')
                        /\ json_decode_number (json_number py v) = Some v'
         | None => json_entry doc m label = None
         end.
Proof.
  intros Hpy Ho.
  destruct (decodes_exist py (execution_time st) Hpy) as [d1 H1].
  destruct (decodes_exist py (energy_consumption st) Hpy) as [d2 H2].
  destruct (decodes_exist py (network_usage st) Hpy) as [d3 H3].
  assert (Hp : forall m kv, In kv (mapping m st) -> plain_key (fst kv)).
  { intros m kv Hi. apply plain_label.
    apply (subseq_in _ _ _ (Ho m)). now apply in_map. }
  assert (Hlen : (8 <= List.length (json_text py st))%nat).
  { rewrite document_text. cbn [List.length]. rewrite length_app.
    change (List.length (txt "execution_time")) with 14%nat. lia. }
  assert (Hl : forall m,
             (List.length (mapping m st) + 5
              < S (List.length (json_text py st)))%nat).
  { intros m. pose proof (subseq_length _ _ (Ho m)) as H.
    unfold keys in H. rewrite length_map in H.
    change (List.length labels) with 3%nat in H. lia. }
  pose proof (parse_document py st d1 d2 d3 _ H1 H2 H3 Hp Hl) as Hdoc.
  assert (Hfold : forall m d dj,
             d = mapping m st -> Forall2 (decodes py) d dj ->
             fold_left (fun a kj => jset (fst kj) (snd kj) a) dj [] = dj).
  { intros m d dj -> Hf. apply (fold_jset [] dj). cbn [app].
    rewrite (decodes_keys py _ _ Hf).
    apply (subseq_nodup _ labels (Ho m) labels_nodup). }
  rewrite (Hfold ExecutionTime _ d1 eq_refl H1),
    (Hfold EnergyConsumption _ d2 eq_refl H2),
    (Hfold NetworkUsage _ d3 eq_refl H3) in Hdoc.
  eexists. split.
  - unfold json_load.
    assert (Hs : skip_ws (json_text py st) = json_text py st)
      by (rewrite document_text; apply skip_ws_stop; reflexivity).
    rewrite Hs, Hdoc. reflexivity.
  - intros m label. destruct m; cbn [json_entry jget metric_name jfind mapping].
    + exact (jfind_decoded py _ _ label H1).
    + exact (jfind_decoded py _ _ label H2).
    + exact (jfind_decoded py _ _ label H3).
Qed.

End JsonReader.

(** Claim C7, amended.  After a run that returns, with the short
    [float.__repr__], [all_metrics.json] is written and reads back as a
    document that has a number under a category and a label exactly
    where the store has one, and that number is of the kind of the
    stored one: an integer is read back as the same integer, a float as
    a float, and as the same float when the search for its digits ends.
    The values of execution time are integers, those of network usage
    floats; a value of energy consumption is a float when the log of its
    label has an energy match and the integer 0 when it has none. *)
Theorem json_numbers_read_back py w fs :
  float_repr py = short_repr ->
  status (main py w fs) = Returned tt ->
  let st := final (process py fs metrics) in
  In (json_path, json_text py st) (written (main py w fs))
  /\ exists doc,
       json_load (json_text py st) = Some doc
       /\ forall m label,
            match dict_get label (mapping m st) with
            | None => json_entry doc m label = None
            | Some v =>
                exists v',
                  json_entry doc m label = Some (JNumber v')
                  /\ same_kind v v' = true
                  /\ (forall z, v = VInt z -> v' = VInt z)
                  /\ (forall f, v = VFloat f -> repr_found f = true ->
                                v' = VFloat f)
                  /\ exists path content,
                       In (path, label) inputs /\ fs path = Some content
                       /\ match m with
                          | ExecutionTime => exists z, v = VInt z
                          | NetworkUsage => exists f, v = VFloat f
                          | EnergyConsumption =>
                              if is_nil (energy_tokens content)
                              then v = VInt 0
                              else exists f, v = VFloat f
                          end
            end.
Proof.
  intros Hpy Hs st.
  destruct (main_status_returned py w fs Hs) as [Hr Hw].
  split.
  - rewrite Hw. unfold outputs. apply in_or_app. right. now left.
  - destruct (JsonReader.json_load_store py st Hpy
                (proj1 (process_ordered py fs))) as (doc & Hload & Hdoc).
    exists doc. split; [exact Hload|].
    intros m label. specialize (Hdoc m label).
    destruct (dict_get label (mapping m st)) as [v|] eqn:Hg; [|exact Hdoc].
    destruct Hdoc as (v' & Hentry & Hd).
    destruct (JsonReader.number_read_back py v Hpy)
      as (v'' & Hd' & Hk & Hi & Hf).
    rewrite Hd in Hd'. injection Hd' as <-.
    exists v'. repeat split; auto.
    destruct (stored_origin py fs m label v Hr Hg)
      as (path & content & Hin & Hp & He).
    exists path, content. repeat split; auto.
    destruct m; simpl in He.
    + destruct (time_token content); [|discriminate].
      injection He as <-. eauto.
    + destruct (py_floats (energy_tokens content)) as [|fl] eqn:E;
        [discriminate|]. injection He as <-.
      apply py_floats_length in E.
      destruct (energy_tokens content), fl; try discriminate; simpl; eauto.
    + destruct (network_token content) as [tok|]; [|discriminate].
      destruct (py_float tok); [discriminate|]. injection He as <-. eauto.
Qed.

Lemma json_numbers_read_back_witness :
  exists doc,
    json_load
      (json_text cpython
         (final (process cpython (only simple_log full_sample_log) metrics)))
    = Some doc
    /\ json_entry doc ExecutionTime "Simple" = Some (JNumber (VInt 1234))
    /\ json_entry doc EnergyConsumption "Simple" = Some (JNumber (VFloat four))
    /\ json_entry doc NetworkUsage "Full" = None.
Proof.
  destruct (json_numbers_read_back cpython writable_dir
              (only simple_log full_sample_log) eq_refl eq_refl)
    as (_ & doc & Hload & Hdoc).
  assert (Hst : final (process cpython (only simple_log full_sample_log)
                         metrics)
                = Store [("Simple"%string, VInt 1234)]
                        [("Simple"%string, VFloat four)]
                        [("Simple"%string,
                          VFloat (S754_finite false 5770237022568448 (-49)))])
    by (vm_compute; reflexivity).
  exists doc. split; [exact Hload|].
  pose proof (Hdoc ExecutionTime "Simple"%string) as H1.
  pose proof (Hdoc EnergyConsumption "Simple"%string) as H2.
  pose proof (Hdoc NetworkUsage "Full"%string) as H3.
  rewrite Hst in H1, H2, H3. cbn in H1, H2, H3.
  destruct H1 as (v1 & -> & _ & Hi & _).
  destruct H2 as (v2 & -> & _ & _ & Hf & _).
  rewrite (Hi 1234%Z eq_refl).
  rewrite (Hf four eq_refl ltac:(vm_compute; reflexivity)).
  repeat split. exact H3.
Defined.

(** ** The CSV files *)

(** Claim C4.  After a run that returns, the CSV file of each category
    is the header line [Simulation Type,<category>] and then one line for
    each of the labels Simple, Learnable, Full that the category's mapping
    has, in that order: the label, a comma and the number, every line
    ended by CR LF.  These are the rows that the writer loop passes to
    [writerow]: the header row and one row per entry of the mapping.  The
    number is written as the digits of an integer or, with the short
    [float.__repr__], as the repr of a float, and is never quoted. *)
Theorem csv_rows_follow_labels py w fs m :
  status (main py w fs) = Returned tt ->
  let d := mapping m (final (process py fs metrics)) in
  In (csv_path m,
      txt "Simulation Type," ++ txt (metric_name m) ++ [cr; nl]
      ++ flat_map (fun l => match dict_get l d with
                            | Some v => txt l ++ txt ","
                                        ++ csv_field (py_str py v) ++ [cr; nl]
                            | None => []
                            end) ["Simple"; "Learnable"; "Full"]%string)
     (written (main py w fs))
  /\ csv_rows m d
     = [CStr "Simulation Type"; CStr (metric_name m)]
         :: map (fun kv => [CStr (fst kv); CNum (snd kv)])
                (entries ["Simple"; "Learnable"; "Full"]%string d)
  /\ map fst (entries ["Simple"; "Learnable"; "Full"]%string d)
     = filter (fun l => match dict_get l d with
                        | Some _ => true
                        | None => false
                        end) ["Simple"; "Learnable"; "Full"]%string
  /\ forall v,
       match v with
       | VInt z => csv_field (py_str py v) = int_repr z
       | VFloat f =>
           float_repr py = short_repr ->
           csv_field (py_str py v) = short_repr f
       end.
Proof.
  intros Hs d.
  destruct (main_status_returned py w fs Hs) as [Hr Hw].
  assert (Ho : subseq (keys d) labels) by apply process_ordered.
  split; [|split; [|split]];
    [| | |intros [z|f];
          [apply csv_field_plain, int_repr_not_special
          |intros Hpy; rewrite (number_field_plain py _ Hpy);
           cbn [py_str]; now rewrite Hpy]].
  - rewrite Hw. unfold outputs. apply in_or_app. left.
    match goal with
    | |- In (_, ?t) _ =>
        assert (E : t = csv_text py (csv_rows m d))
          by (rewrite (csv_text_ordered py m d Ho);
              unfold csv_header, csv_entries, csv_entry;
              now rewrite <- !app_assoc);
        rewrite E
    end.
    subst d.
    apply (in_map (fun m => (csv_path m, csv_text py
                               (csv_rows m (mapping m (final (process py fs metrics))))))
                  all_metrics m).
    destruct m; simpl; tauto.
  - change ["Simple"; "Learnable"; "Full"]%string with labels.
    now rewrite entries_ordered by (apply labels_nodup || exact Ho).
  - unfold entries. cbn [flat_map filter].
    repeat match goal with
           | |- context [dict_get ?l d] => destruct (dict_get l d)
           end; reflexivity.
Qed.

Lemma csv_rows_follow_labels_witness :
  In (csv_path EnergyConsumption,
      txt "Simulation Type,energy_consumption" ++ [cr; nl]
      ++ txt "Simple,4.0" ++ [cr; nl])
     (written (main cpython writable_dir (only simple_log full_sample_log))).
Proof.
  exact (proj1 (csv_rows_follow_labels cpython writable_dir
                  (only simple_log full_sample_log) EnergyConsumption
                  eq_refl)).
Defined.

(** ** One log only *)

(** With only the Learnable log, and that log empty, the run returns but
    [execution_time.csv] has its header row and no data row. *)
Lemma only_learnable_no_time_row :
  let run := main cpython writable_dir (only learnable_log []) in
  status run = Returned tt
  /\ In (csv_path ExecutionTime,
         txt "Simulation Type,execution_time" ++ [cr; nl]) (written run)
  /\ csv_rows ExecutionTime
       (mapping ExecutionTime
          (final (process cpython (only learnable_log []) metrics)))
     = [[CStr "Simulation Type"; CStr "execution_time"]].
Proof. vm_compute. intuition. Qed.

(** Claim C5, amended.  When only the Learnable log exists, its
    conversions succeed and the four files can be written, the run returns
    and writes these bytes: each CSV file is its header line followed by
    at most one line, [Learnable,<number>], and the JSON file gives each
    category either the empty object or the object with the one key
    Learnable.  The energy file always has its line; the execution-time
    and network-usage files have theirs exactly when their pattern occurs
    in the log.  No mapping has an entry for Simple or Full.  The number
    of a line is the digits of an integer or, with the short
    [float.__repr__], the repr of a float, unquoted.  When a conversion
    fails, no file is written. *)
Theorem only_learnable_log py w fs content :
  fs simple_log = None -> fs learnable_log = Some content ->
  fs full_log = None ->
  let st := final (process py fs metrics) in
  let time := extracted py content ExecutionTime in
  let energy := extracted py content EnergyConsumption in
  let network := extracted py content NetworkUsage in
  (converts py content = true ->
   ((forall p, In p output_paths -> w p = true) ->
    status (main py w fs) = Returned tt
    /\ written (main py w fs)
       = [(csv_path ExecutionTime,
           txt "Simulation Type,execution_time" ++ [cr; nl]
           ++ match time with
              | Some v => txt "Learnable," ++ csv_field (py_str py v) ++ [cr; nl]
              | None => []
              end);
          (csv_path EnergyConsumption,
           txt "Simulation Type,energy_consumption" ++ [cr; nl]
           ++ match energy with
              | Some v => txt "Learnable," ++ csv_field (py_str py v) ++ [cr; nl]
              | None => []
              end);
          (csv_path NetworkUsage,
           txt "Simulation Type,network_usage" ++ [cr; nl]
           ++ match network with
              | Some v => txt "Learnable," ++ csv_field (py_str py v) ++ [cr; nl]
              | None => []
              end);
          (json_path, json_of_label py "Learnable" time energy network)])
   /\ (forall m,
         mapping m st = match extracted py content m with
                        | Some v => [("Learnable"%string, v)]
                        | None => []
                        end
         /\ dict_get "Simple" (mapping m st) = None
         /\ dict_get "Full" (mapping m st) = None)
   /\ (exists v, energy = Some v)
   /\ (time = None <-> time_token content = None)
   /\ (network = None <-> network_token content = None)
   /\ (forall v,
         match v with
         | VInt z => csv_field (py_str py v) = int_repr z
         | VFloat f =>
             float_repr py = short_repr ->
             csv_field (py_str py v) = short_repr f
         end))
  /\ (converts py content = false ->
      status (main py w fs) <> Returned tt /\ written (main py w fs) = []).
Proof.
  intros Hs Hl Hf st time energy network.
  assert (Hres : result (process py fs metrics) = Returned tt
                 <-> converts py content = true).
  { rewrite process_loop, process_files_result. split.
    - intros H. apply (H learnable_log "Learnable"%string content);
        [simpl; auto|assumption].
    - intros Hc path label c Hi Hp. simpl in Hi.
      destruct Hi as [[= <- <-]|[[= <- <-]|[[= <- <-]|[]]]]; congruence. }
  split.
  - intros Hc. apply Hres in Hc.
    assert (Hlook : forall path label m, In (path, label) inputs ->
              dict_get label (mapping m st)
              = match fs path with
                | Some c => extracted py c m
                | None => None
                end).
    { intros path label m Hi. subst st. rewrite process_loop in *.
      rewrite (process_files_lookup py fs inputs metrics path label m
                 labels_nodup Hi Hc).
      assert (H0 : dict_get label (mapping m metrics) = None)
        by (destruct m; reflexivity).
      rewrite H0. destruct (fs path) as [c|]; [|reflexivity].
      now destruct (extracted py c m). }
    assert (Hmap : forall m, mapping m st
              = match extracted py content m with
                | Some v => [("Learnable"%string, v)]
                | None => []
                end).
    { intros m.
      rewrite <- (entries_ordered labels (mapping m st) labels_nodup)
        by apply process_ordered.
      unfold labels, inputs. simpl map. rewrite !entries_cons.
      rewrite (Hlook simple_log "Simple"%string m) by (simpl; auto).
      rewrite (Hlook learnable_log "Learnable"%string m) by (simpl; auto).
      rewrite (Hlook full_log "Full"%string m) by (simpl; auto).
      rewrite Hs, Hl, Hf. simpl.
      destruct (extracted py content m); reflexivity. }
    split; [|split; [|split; [|split; [|split]]]];
      [| | | | |intros [z|f];
                [apply csv_field_plain, int_repr_not_special
                |intros Hpy; rewrite (number_field_plain py _ Hpy);
                 cbn [py_str]; now rewrite Hpy]].
    + intros Hw.
      destruct (main_written py w fs Hc) as [Hst Hwr]; [exact Hw|].
      split; [exact Hst|]. rewrite Hwr. fold st.
      unfold outputs, json_text. cbn [map all_metrics app].
      rewrite !Hmap. fold time energy network.
      assert (Hcsv : forall m ov,
                 csv_text py (csv_rows m
                                (match ov with
                                 | Some v => [("Learnable"%string, v)]
                                 | None => []
                                 end))
                 = csv_of_label py m "Learnable" ov).
      { intros m [v|]; unfold csv_rows, csv_of_label;
          change (csv_text py (?r :: ?rs)) with (csv_line py r ++ csv_text py rs);
          rewrite csv_line_header; [|reflexivity].
        cbn [map fst snd csv_text flat_map].
        now rewrite csv_line_entry, app_nil_r by reflexivity. }
      rewrite !Hcsv.
      rewrite !(json_inner_entry py "Learnable") by reflexivity.
      unfold json_of_label.
      generalize (json_of_entry py "Learnable" time) as jt.
      generalize (json_of_entry py "Learnable" energy) as je.
      generalize (json_of_entry py "Learnable" network) as jn.
      intros jn je jt. cbn [join]. rewrite <- !app_assoc. reflexivity.
    + intros m. split; [apply Hmap|]. split.
      * rewrite (Hlook simple_log "Simple"%string m) by (simpl; auto).
        now rewrite Hs.
      * rewrite (Hlook full_log "Full"%string m) by (simpl; auto).
        now rewrite Hf.
    + assert (He : energy_converts content = true).
      { apply Hres in Hc. unfold converts in Hc.
        now apply andb_true_iff in Hc as [Hc _];
          apply andb_true_iff in Hc as [_ Hc]. }
      unfold energy_converts in He. subst energy. simpl.
      destruct (py_floats (energy_tokens content)); [discriminate|eauto].
    + subst time. simpl.
      destruct (time_token content); simpl; split; congruence.
    + assert (He : network_converts content = true).
      { apply Hres in Hc. unfold converts in Hc.
        now apply andb_true_iff in Hc as [_ Hc]. }
      unfold network_converts in He. subst network. simpl.
      destruct (network_token content) as [tok|]; [|tauto].
      destruct (py_float tok); [discriminate|]. split; discriminate.
  - intros Hc.
    assert (Hn : result (process py fs metrics) <> Returned tt).
    { intros H. apply Hres in H. congruence. }
    destruct (result (process py fs metrics)) as [[]|e] eqn:Hr;
      [congruence|].
    rewrite (main_raised py w fs e Hr). split; [discriminate|reflexivity].
Qed.

Lemma only_learnable_log_witness :
  written (main cpython writable_dir (only learnable_log energy_log))
  = [(csv_path ExecutionTime,
      txt "Simulation Type,execution_time" ++ [cr; nl]);
     (csv_path EnergyConsumption,
      txt "Simulation Type,energy_consumption" ++ [cr; nl]
      ++ txt "Learnable,4.0" ++ [cr; nl]);
     (csv_path NetworkUsage,
      txt "Simulation Type,network_usage" ++ [cr; nl]);
     (json_path,
      txt "{" ++ [nl]
      ++ txt "  " ++ [dquote] ++ txt "execution_time" ++ [dquote]
      ++ txt ": {}," ++ [nl]
      ++ txt "  " ++ [dquote] ++ txt "energy_consumption" ++ [dquote]
      ++ txt ": {" ++ [nl]
      ++ txt "    " ++ [dquote] ++ txt "Learnable" ++ [dquote]
      ++ txt ": 4.0" ++ [nl]
      ++ txt "  }," ++ [nl]
      ++ txt "  " ++ [dquote] ++ txt "network_usage" ++ [dquote]
      ++ txt ": {}" ++ [nl]
      ++ txt "}")].
Proof.
  exact (proj2 (proj1 (proj1 (only_learnable_log cpython writable_dir
                                (only learnable_log energy_log)
                                energy_log eq_refl eq_refl eq_refl)
                             eq_refl)
                      (fun _ _ => eq_refl))).
Defined.

(** ** The backtracking matcher in general *)

Module ReSearch.
Import Re ReFacts.

Lemma greedy_complete {R : Type} f (k : text -> text -> option R) run rest :
  forallb f run = true -> k run rest <> None ->
  greedy f k (run ++ rest) <> None.
Proof.
  revert k; induction run as [|c run IH]; intros k Hr Hk.
  - simpl. destruct rest as [|c rest]; simpl; [assumption|].
    destruct (f c); [|assumption].
    destruct (greedy f (fun run => k (c :: run)) rest); [discriminate|].
    assumption.
  - simpl in Hr. apply andb_true_iff in Hr as [Hc Hr]. simpl. rewrite Hc.
    specialize (IH (fun run => k (c :: run)) Hr Hk).
    destruct (greedy f (fun run => k (c :: run)) (run ++ rest));
      [discriminate|contradiction].
Qed.

(** What an atom returns, the rest of the match returned on a text the
    atom can consume. *)
Lemma match_atom_sound {R : Type} a (k : text -> text -> option R) s y :
  match_atom a k s = Some y ->
  exists run rest, s = run ++ rest /\ conforms a run /\ k run rest = Some y.
Proof.
  unfold match_atom, conforms. destruct (times a) eqn:Ht.
  - destruct s as [|c s]; [discriminate|].
    destruct (accepts a c) eqn:E; [|discriminate]. intros H.
    exists [c], s. simpl. now rewrite E.
  - destruct s as [|c s].
    + intros H. exists [], []. simpl. auto.
    + destruct (accepts a c) eqn:E.
      * destruct (k [c] s) as [r|] eqn:Hk.
        -- intros [= <-]. exists [c], s. simpl. now rewrite E.
        -- intros H. exists [], (c :: s). simpl. auto.
      * intros H. exists [], (c :: s). simpl. auto.
  - intros H. apply greedy_sound in H as (run & rest & -> & Hr & Hk).
    exists run, rest. auto.
  - destruct s as [|c s]; [discriminate|].
    destruct (accepts a c) eqn:E; [|discriminate]. intros H.
    apply greedy_sound in H as (run & rest & -> & Hr & Hk).
    exists (c :: run), rest. simpl. rewrite E, Hr. repeat split; auto. lia.
Qed.

(** An atom finds a match whenever the rest of the match accepts some
    text the atom can consume. *)
Lemma match_atom_complete {R : Type} a (k : text -> text -> option R)
      run rest :
  conforms a run -> k run rest <> None ->
  match_atom a k (run ++ rest) <> None.
Proof.
  unfold match_atom, conforms. intros [Hr Hq] Hk.
  destruct (times a) eqn:Ht.
  - destruct run as [|c [|d run]]; simpl in Hq; try lia.
    simpl in *. apply andb_true_iff in Hr as [Hc _]. now rewrite Hc.
  - destruct run as [|c [|d run]]; simpl in Hq; try lia.
    + simpl. destruct rest as [|c rest]; [assumption|].
      destruct (accepts a c); [|assumption].
      destruct (k [c] rest); [discriminate|assumption].
    + simpl in *. apply andb_true_iff in Hr as [Hc _]. rewrite Hc.
      destruct (k [c] rest); [discriminate|contradiction].
  - now apply greedy_complete.
  - destruct run as [|c run]; simpl in Hq; [lia|].
    simpl in *. apply andb_true_iff in Hr as [Hc Hr]. rewrite Hc.
    now apply (greedy_complete (accepts a) (fun run => k (c :: run))).
Qed.

Lemma push_some run r runs rest :
  push run r = Some (runs, rest) ->
  exists runs', runs = run :: runs' /\ r = Some (runs', rest).
Proof.
  destruct r as [[runs' rest']|]; simpl; [|discriminate].
  intros [= <- <-]. eauto.
Qed.

(** A match of [p1 ++ p2] is a match of [p1] followed by one of [p2]. *)
Lemma match_app_sound p1 p2 s runs rest :
  match_atoms (p1 ++ p2) s = Some (runs, rest) ->
  exists runs1 runs2 mid,
    runs = runs1 ++ runs2 /\ s = List.concat runs1 ++ mid
    /\ Forall2 conforms p1 runs1
    /\ match_atoms p2 mid = Some (runs2, rest).
Proof.
  revert s runs; induction p1 as [|a p1 IH]; intros s runs H.
  - exists [], runs, s. simpl. auto.
  - simpl in H. apply match_atom_sound in H as (run & rest' & -> & Hc & Hk).
    apply push_some in Hk as (runs' & -> & Hk).
    apply IH in Hk as (runs1 & runs2 & mid & -> & -> & Hf & Hm).
    exists (run :: runs1), runs2, mid. simpl. rewrite app_assoc.
    repeat split; auto.
Qed.

Lemma match_app_complete p1 p2 runs1 mid :
  Forall2 conforms p1 runs1 -> match_atoms p2 mid <> None ->
  match_atoms (p1 ++ p2) (List.concat runs1 ++ mid) <> None.
Proof.
  intros Hf Hm. induction Hf as [|a run p1 runs1 Hc Hf IH].
  - exact Hm.
  - simpl. rewrite <- app_assoc. apply match_atom_complete; [assumption|].
    destruct (match_atoms (p1 ++ p2) (List.concat runs1 ++ mid)) as [[? ?]|];
      [discriminate|contradiction].
Qed.

(** A match consumes a prefix of the text, made of characters that the
    pattern accepts. *)
Lemma conforms_chars p runs :
  Forall2 conforms p runs -> forallb (pattern_char p) (List.concat runs) = true.
Proof.
  induction 1 as [|a run p runs [Hc _] Hf IH]; [reflexivity|].
  simpl. rewrite forallb_app. apply andb_true_iff. split.
  - rewrite forallb_forall in *. intros c Hi. simpl.
    now rewrite (Hc c Hi).
  - rewrite forallb_forall in *. intros c Hi. simpl.
    rewrite (IH c Hi). apply orb_true_r.
Qed.

Lemma match_sound p s runs rest :
  match_atoms p s = Some (runs, rest) ->
  s = List.concat runs ++ rest /\ Forall2 conforms p runs.
Proof.
  intros H. rewrite <- (app_nil_r p) in H.
  apply match_app_sound in H as (runs1 & runs2 & mid & -> & -> & Hf & Hm).
  simpl in Hm. injection Hm as <- <-. now rewrite app_nil_r.
Qed.

Lemma group_text_app n p1 p2 runs1 runs2 :
  List.length p1 = List.length runs1 ->
  group_text n (p1 ++ p2) (runs1 ++ runs2)
  = group_text n p1 runs1 ++ group_text n p2 runs2.
Proof.
  revert runs1; induction p1 as [|a p1 IH]; intros [|run runs1] Hl;
    try discriminate; [reflexivity|].
  simpl in *. injection Hl as Hl. rewrite (IH runs1 Hl).
  destruct (Nat.eqb (group a) n); [now rewrite app_assoc|reflexivity].
Qed.

Lemma group_text_none n p runs :
  (forall a, In a p -> group a <> n) -> group_text n p runs = [].
Proof.
  revert runs; induction p as [|a p IH]; intros [|run runs] H;
    try reflexivity.
  simpl. destruct (Nat.eqb (group a) n) eqn:E.
  - apply Nat.eqb_eq in E. exfalso. apply (H a); [now left|assumption].
  - apply IH. intros b Hb. apply H. now right.
Qed.

End ReSearch.

(** ** The energy pattern *)

Module EnergyPattern.
Import Re ReFacts ReSearch.

Lemma run_unique (f : ascii -> bool) (t1 t2 : text) c1 c2 (x y : text) :
  forallb f t1 = true -> forallb f t2 = true ->
  f c1 = false -> f c2 = false ->
  t1 ++ c1 :: x = t2 ++ c2 :: y -> t1 = t2 /\ c1 :: x = c2 :: y.
Proof.
  intros H1 H2 Hc1 Hc2 E.
  pose proof (span_app f t1 (c1 :: x) H1 Hc1) as S1.
  pose proof (span_app f t2 (c2 :: y) H2 Hc2) as S2.
  rewrite E in S1. rewrite S1 in S2. injection S2 as -> -> ->.
  split; reflexivity.
Qed.

Lemma energy_pattern_split : energy_pattern = name_atoms ++ energy_tail.
Proof. reflexivity. Qed.

Lemma tail_match mid runs rest :
  match_atoms energy_tail mid = Some (runs, rest) ->
  exists run,
    mid = energy_literal ++ run ++ rest
    /\ span is_digit_or_dot (run ++ rest) = (run, rest)
    /\ runs = singles energy_literal ++ [run].
Proof.
  unfold energy_tail, lit. fold energy_literal. rewrite match_lit_atoms.
  destruct (strip energy_literal mid) as [r|] eqn:Hs; [|discriminate].
  apply strip_some in Hs. rewrite match_last_plus.
  pose proof (span_eq is_digit_or_dot r) as He.
  destruct (span is_digit_or_dot r) as [run rest'] eqn:Hr. simpl in He.
  destruct run as [|c run]; [discriminate|]. simpl is_nil. cbv iota.
  intros [= <- <-]. exists (c :: run). rewrite He. auto.
Qed.

Lemma tail_match_found num post :
  num <> [] -> forallb is_digit_or_dot num = true ->
  stops is_digit_or_dot post ->
  match_atoms energy_tail (energy_literal ++ num ++ post)
  = Some (singles energy_literal ++ [num], post).
Proof.
  intros Hn Hr Hs. unfold energy_tail, lit. fold energy_literal.
  rewrite match_lit_atoms, strip_app, match_last_plus.
  rewrite (span_app _ num post Hr Hs). destruct num; [congruence|reflexivity].
Qed.

Lemma name_atoms_chars c :
  pattern_char name_atoms c = true -> is_name_char c = true.
Proof.
  unfold pattern_char, is_name_char. simpl.
  destruct (is_word c), (is_hyphen c); auto.
Qed.

Lemma space_no_name_char : is_name_char " " = false.
Proof. reflexivity. Qed.

Lemma energy_literal_space :
  energy_literal = " "%char :: txt ": Energy Consumed = ".
Proof. reflexivity. Qed.

(** A match that starts inside a name ends with the number after that
    name. *)
Lemma match_in_name t num post runs rest :
  forallb is_name_char t = true ->
  forallb is_digit_or_dot num = true -> stops is_digit_or_dot post ->
  match_atoms energy_pattern (t ++ energy_literal ++ num ++ post)
  = Some (runs, rest) ->
  rest = post /\ group_text 2 energy_pattern runs = num.
Proof.
  intros Ht Hn Hp H. rewrite energy_pattern_split in *.
  apply match_app_sound in H as (runs1 & runs2 & mid & -> & E & Hf & Hm).
  apply tail_match in Hm as (run & -> & Hs & ->).
  assert (Hc : forallb is_name_char (List.concat runs1) = true).
  { pose proof (conforms_chars _ _ Hf) as Hc.
    rewrite forallb_forall in *. intros c Hi.
    apply name_atoms_chars. now apply Hc. }
  rewrite energy_literal_space in E. simpl in E.
  apply (run_unique is_name_char) in E as [_ E]; auto.
  injection E as E.
  rewrite <- E, (span_app _ num post Hn Hp) in Hs. injection Hs as <- <-.
  split; [reflexivity|].
  rewrite group_text_app by (now apply Forall2_length in Hf).
  rewrite group_text_none
    by (simpl; intros a [<-|[<-|[<-|[<-|[<-|[]]]]]]; discriminate).
  unfold energy_tail, lit. fold energy_literal.
  rewrite group_text_lit by discriminate. simpl. now rewrite app_nil_r.
Qed.

(** Names with at most two hyphens after a word character. *)

Lemma hyphens_app a b : hyphens (a ++ b) = (hyphens a + hyphens b)%nat.
Proof. unfold hyphens. now rewrite filter_app, length_app. Qed.

Lemma word_no_hyphen c : is_word c = true -> is_hyphen c = false.
Proof.
  unfold is_hyphen. destruct (Ascii.eqb c "-") eqn:E; [|reflexivity].
  apply Ascii.eqb_eq in E; subst c. discriminate.
Qed.

Lemma hyphens_words a : forallb is_word a = true -> hyphens a = 0%nat.
Proof.
  unfold hyphens. induction a as [|c a IH]; [reflexivity|]. simpl.
  intros H. apply andb_true_iff in H as [Hc Ha].
  rewrite (word_no_hyphen c Hc). now apply IH.
Qed.

Lemma word_run_split t :
  forallb is_name_char t = true ->
  exists a r, t = a ++ r /\ forallb is_word a = true /\ at_hyphen r
              /\ forallb is_name_char r = true /\ hyphens t = hyphens r.
Proof.
  intros Ht. exists (fst (span is_word t)), (snd (span is_word t)).
  pose proof (span_eq is_word t) as He.
  pose proof (span_run is_word t) as Hr.
  pose proof (span_stops is_word t) as Hs.
  destruct (span is_word t) as [a r]. simpl in *. subst t.
  rewrite forallb_app in Ht. apply andb_true_iff in Ht as [_ Ht].
  repeat split; auto.
  - destruct r as [|c r]; [exact I|]. simpl in *.
    apply andb_true_iff in Ht as [Hc _]. unfold is_name_char in Hc.
    now rewrite Hs in Hc.
  - now rewrite hyphens_app, (hyphens_words a Hr).
Qed.

Lemma segment_split t :
  at_hyphen t -> forallb is_name_char t = true ->
  exists h a r,
    t = h ++ a ++ r
    /\ conforms (Atom is_hyphen Opt 1) h /\ conforms (Atom is_word Star 1) a
    /\ at_hyphen r /\ forallb is_name_char r = true
    /\ (hyphens r <= hyphens t - 1)%nat.
Proof.
  intros Hh Ht. destruct t as [|c t].
  - exists [], [], []. unfold conforms. simpl. repeat split; auto.
  - simpl in Hh, Ht. apply andb_true_iff in Ht as [_ Ht].
    destruct (word_run_split t Ht) as (a & r & -> & Ha & Hr & Hn & Hy).
    exists [c], a, r. unfold conforms. simpl. rewrite Hh.
    repeat split; auto.
    change (c :: a ++ r) with ([c] ++ a ++ r).
    rewrite hyphens_app, Hy. unfold hyphens at 2. simpl. rewrite Hh. simpl.
    lia.
Qed.

Lemma name_split w v :
  is_word w = true -> forallb is_name_char v = true ->
  (hyphens v <= 2)%nat ->
  exists runs, Forall2 conforms name_atoms runs /\ List.concat runs = w :: v.
Proof.
  intros Hw Hv Hy.
  destruct (word_run_split v Hv) as (a1 & r1 & -> & Ha1 & Hr1 & Hn1 & Hy1).
  destruct (segment_split r1 Hr1 Hn1) as (h1 & a2 & r2 & -> & Ch1 & Ca2 & Hr2 & Hn2 & Hy2).
  destruct (segment_split r2 Hr2 Hn2) as (h2 & a3 & r3 & -> & Ch2 & Ca3 & Hr3 & Hn3 & Hy3).
  assert (r3 = []) as ->.
  { destruct r3 as [|c r3]; [reflexivity|]. simpl in Hr3.
    change (c :: r3) with ([c] ++ r3) in Hy3.
    rewrite hyphens_app in Hy3. unfold hyphens at 1 in Hy3. simpl in Hy3.
    rewrite Hr3 in Hy3. simpl in Hy3. lia. }
  exists [w :: a1; h1; a2; h2; a3]. split.
  - unfold name_atoms.
    apply Forall2_cons;
      [|apply Forall2_cons;
        [exact Ch1
        |apply Forall2_cons;
          [exact Ca2
          |apply Forall2_cons;
            [exact Ch2
            |apply Forall2_cons; [exact Ca3|apply Forall2_nil]]]]].
    unfold conforms. simpl. rewrite Hw, Ha1. split; [reflexivity|lia].
  - simpl. now rewrite !app_nil_r.
Qed.

(** At a word character followed by at most two hyphens in the rest of
    the name, the pattern matches, up to the end of the number. *)
Lemma match_at_name w v num post :
  is_word w = true -> forallb is_name_char v = true ->
  (hyphens v <= 2)%nat ->
  num <> [] -> forallb is_digit_or_dot num = true ->
  stops is_digit_or_dot post ->
  exists runs,
    match_atoms energy_pattern ((w :: v) ++ energy_literal ++ num ++ post)
    = Some (runs, post)
    /\ group_text 2 energy_pattern runs = num.
Proof.
  intros Hw Hv Hy Hn Hr Hs.
  destruct (name_split w v Hw Hv Hy) as (runs1 & Hf & Hc).
  pose proof (match_app_complete name_atoms energy_tail runs1
                (energy_literal ++ num ++ post) Hf) as Hm.
  rewrite (tail_match_found num post Hn Hr Hs), Hc in Hm.
  specialize (Hm ltac:(discriminate)).
  rewrite <- energy_pattern_split in Hm.
  destruct (match_atoms energy_pattern
              ((w :: v) ++ energy_literal ++ num ++ post))
    as [[runs rest]|] eqn:E; [|contradiction].
  assert (Hnc : forallb is_name_char (w :: v) = true).
  { simpl. unfold is_name_char at 1. now rewrite Hw, Hv. }
  destruct (match_in_name (w :: v) num post runs rest Hnc Hr Hs E) as [-> Hg].
  eauto.
Qed.

End EnergyPattern.

(** ** Scanning for energy entries *)

Module Scan.
Import Re ReSearch EnergyPattern.

(** A run of characters of a class cannot reach past a character outside
    the class. *)
Lemma run_before_separator (f : ascii -> bool) (x : text) sep (s r rest : text) :
  x ++ sep :: s = r ++ rest -> forallb f r = true -> f sep = false ->
  (List.length r <= List.length x)%nat.
Proof.
  revert r; induction x as [|c x IH]; intros r E Hr Hs.
  - destruct r as [|d r]; [simpl; lia|]. simpl in *. injection E as <- _.
    apply andb_true_iff in Hr as [Hd _]. congruence.
  - destruct r as [|d r]; [simpl; lia|]. simpl in *. injection E as _ E.
    apply andb_true_iff in Hr as [_ Hr]. specialize (IH r E Hr Hs). lia.
Qed.

(** While the last match covers the characters of [a], the scan only
    steps over them. *)
Lemma scan_covered p a b :
  findall_from p (List.length a) (a ++ b) = findall_from p 0 b.
Proof.
  induction a as [|c a IH]; [reflexivity|].
  simpl List.length. rewrite <- app_comm_cons.
  destruct b as [|d b].
  - rewrite app_nil_r in *. cbn [findall_from]. exact IH.
  - cbn [findall_from]. exact IH.
Qed.

(** From the start of a name, the scan finds one match, which ends with
    the number after the name, and goes on behind that number. *)
Lemma scan_entry u w v num post :
  forallb is_name_char u = true ->
  is_word w = true -> forallb is_name_char v = true ->
  (hyphens v <= 2)%nat ->
  num <> [] -> forallb is_digit_or_dot num = true ->
  stops is_digit_or_dot post ->
  exists runs,
    findall_from energy_pattern 0
      ((u ++ w :: v) ++ energy_literal ++ num ++ post)
    = runs :: findall_from energy_pattern 0 post
    /\ group_text 2 energy_pattern runs = num.
Proof.
  intros Hu Hw Hv Hy Hn Hr Hs.
  assert (Hstep : forall c t runs,
             match_atoms energy_pattern
               (c :: t ++ energy_literal ++ num ++ post) = Some (runs, post) ->
             findall_from energy_pattern 0
               (c :: t ++ energy_literal ++ num ++ post)
             = runs :: findall_from energy_pattern 0 post).
  { intros c t runs Hm. cbn [findall_from]. rewrite Hm. f_equal.
    rewrite <- (scan_covered energy_pattern (t ++ energy_literal ++ num) post).
    rewrite <- !app_assoc. f_equal.
    cbn [List.length]. rewrite !length_app. lia. }
  induction u as [|c u IH].
  - destruct (match_at_name w v num post Hw Hv Hy Hn Hr Hs) as (runs & Hm & Hg).
    exists runs. split; [|exact Hg].
    change ([] ++ w :: v) with (w :: v) in *.
    rewrite <- app_comm_cons in *. now apply Hstep.
  - simpl in Hu. apply andb_true_iff in Hu as [Hc Hu].
    rewrite <- !app_comm_cons.
    destruct (match_atoms energy_pattern
                (c :: (u ++ w :: v) ++ energy_literal ++ num ++ post))
      as [[runs rest]|] eqn:E.
    + pose proof E as E'.
      apply (match_in_name (c :: u ++ w :: v) num post runs rest) in E';
        auto.
      * destruct E' as [-> Hg]. exists runs. split; [|exact Hg].
        now apply Hstep.
      * cbn [forallb]. rewrite Hc, forallb_app, Hu. cbn [forallb andb].
        unfold is_name_char at 1. now rewrite Hw, Hv.
    + destruct (IH Hu) as (runs & Hf & Hg). exists runs. split; [|exact Hg].
      cbn [findall_from]. rewrite E. exact Hf.
Qed.

(** When no match that starts in [pre] reaches into [rest], the scan
    finds the matches that start in [pre] and then starts afresh at
    [rest]. *)
Lemma scan_clear p pre rest k :
  clear_before p pre rest = true -> (k <= List.length pre)%nat ->
  findall_from p k (pre ++ rest)
  = findall_within p (List.length pre) k (pre ++ rest)
    ++ findall_from p 0 rest.
Proof.
  revert k; induction pre as [|c pre IH]; intros k Hc Hk.
  - simpl in Hk. assert (k = 0%nat) as -> by lia. reflexivity.
  - cbn [clear_before] in Hc. apply andb_true_iff in Hc as [Hm Hc].
    simpl List.length. rewrite <- app_comm_cons in *.
    cbn [findall_from findall_within]. destruct k as [|k].
    + destruct (match_atoms p (c :: pre ++ rest)) as [[runs r]|] eqn:E.
      * apply Nat.leb_le in Hm. rewrite <- app_comm_cons. f_equal.
        apply IH; [exact Hc|]. simpl List.length. rewrite length_app. lia.
      * apply IH; [exact Hc|lia].
    + apply IH; [exact Hc|]. simpl in Hk. lia.
Qed.

(** After a character that no match can contain, no match reaches on. *)
Lemma separator_clear p sep pre rest :
  pattern_char p sep = false ->
  clear_before p (pre ++ [sep]) rest = true.
Proof.
  intros Hsep.
  assert (H : forall x,
             match match_atoms p (x ++ sep :: rest) with
             | Some (_, r) => Nat.leb (List.length rest) (List.length r)
             | None => true
             end = true).
  { intros x. destruct (match_atoms p (x ++ sep :: rest))
      as [[runs r]|] eqn:E; [|reflexivity].
    apply match_sound in E as [E Hf]. apply conforms_chars in Hf.
    pose proof (run_before_separator (pattern_char p) x sep rest
                  (List.concat runs) r E Hf Hsep) as Hl.
    apply (f_equal (@List.length ascii)) in E.
    rewrite !length_app in E. simpl in E. apply Nat.leb_le. lia. }
  induction pre as [|c pre IH].
  - cbn [app clear_before]. rewrite andb_true_r. exact (H []).
  - cbn [app clear_before]. rewrite IH, andb_true_r.
    rewrite <- app_assoc. exact (H (c :: pre)).
Qed.

Lemma py_floats_app a b fs :
  py_floats (a ++ b) = inr fs ->
  exists fa fb, py_floats a = inr fa /\ py_floats b = inr fb /\ fs = fa ++ fb.
Proof.
  revert fs; induction a as [|tok a IH]; intros fs; simpl.
  - intros H. now exists [], fs.
  - destruct (py_float tok) as [e|f]; [discriminate|].
    destruct (py_floats (a ++ b)) as [e|fs'] eqn:E; [discriminate|].
    intros [= <-]. destruct (IH fs' eq_refl) as (fa & fb & Ha & Hb & ->).
    rewrite Ha. now exists (f :: fa), fb.
Qed.

End Scan.

(** ** Energy entries *)

(** The name [a---] ends with three hyphens: the pattern matches
    nowhere, and the entry adds nothing to the total. *)
Lemma trailing_hyphens_not_matched :
  let content := txt "a--- : Energy Consumed = 1.5" in
  energy_tokens content = []
  /\ dict_get "Simple"
       (energy_consumption
          (final (extract_metrics cpython content "Simple" metrics)))
     = Some (VInt 0).
Proof. vm_compute. split; reflexivity. Qed.

(** An entry whose name is the number of the entry before it is covered
    by the match of that entry, and adds nothing either. *)
Lemma covered_entry_not_matched :
  energy_tokens (txt "a : Energy Consumed = 5 : Energy Consumed = 7")
  = [txt "5"].
Proof. vm_compute. reflexivity. Qed.

(** Claim C6, amended.  Take an occurrence of a name, the literal
    [ : Energy Consumed = ] and a longest run [num] of digits and dots,
    where the name is made of word characters and hyphens and has a word
    character with at most two hyphens after it, and where no match that
    starts before the name reaches into the entry.  Then the entry is
    matched once, at its place: the tokens of the text are the tokens of
    the matches that start before the name, then [num], then the tokens
    of the text after [num].  When the numbers of the call convert, the
    float of [num] is the summand at that place of the total stored for
    the label, so that two entries with the same number add it twice.
    The name may have any number of hyphens before that word character,
    as in [a-b-c-d]. *)
Theorem energy_entry_contributes py content label st pre u w v num post :
  content = pre ++ (u ++ w :: v) ++ energy_literal ++ num ++ post ->
  clear_before energy_pattern pre
    ((u ++ w :: v) ++ energy_literal ++ num ++ post) = true ->
  forallb is_name_char u = true ->
  is_word w = true -> forallb is_name_char v = true ->
  (hyphens v <= 2)%nat ->
  num <> [] -> forallb is_digit_or_dot num = true ->
  stops is_digit_or_dot post ->
  let before := energy_tokens_within (List.length pre) content in
  let after := energy_tokens post in
  energy_tokens content = before ++ num :: after
  /\ forall fs,
       time_converts py content = true ->
       py_floats (energy_tokens content) = inr fs ->
       exists fb f fa,
         py_floats before = inr fb /\ py_float num = inr f
         /\ py_floats after = inr fa
         /\ fs = fb ++ f :: fa
         /\ dict_get label
              (energy_consumption
                 (final (extract_metrics py content label st)))
            = Some (py_sum py (fb ++ f :: fa)).
Proof.
  intros -> Hpre Hu Hw Hv Hy Hn Hr Hs before after.
  assert (Hsplit : energy_tokens
                     (pre ++ (u ++ w :: v) ++ energy_literal ++ num ++ post)
                   = before ++ num :: after).
  { unfold energy_tokens, Re.findall.
    rewrite (Scan.scan_clear energy_pattern pre _ 0 Hpre (Nat.le_0_l _)).
    destruct (Scan.scan_entry u w v num post Hu Hw Hv Hy Hn Hr Hs)
      as (runs & -> & Hg).
    rewrite map_app. cbn [map]. now rewrite Hg. }
  split; [exact Hsplit|].
  intros fs Ht Hf.
  pose proof Hf as Hf'. rewrite Hsplit in Hf'.
  apply Scan.py_floats_app in Hf' as (fb & fr & Hb & Hrest & ->).
  simpl in Hrest. destruct (py_float num) as [e|f]; [discriminate|].
  destruct (py_floats after) as [e|fa]; [discriminate|].
  injection Hrest as <-.
  exists fb, f, fa. repeat split; auto.
  rewrite extract_energy_final, Ht, Hf. apply dict_get_set_same.
Qed.

Lemma energy_entry_contributes_witness :
  energy_tokens
    (lines ["x a-b-c-d : Energy Consumed = 1.5";
            "y : Energy Consumed = 1.5"]%string)
  = [] ++ txt "1.5" :: [txt "1.5"].
Proof.
  exact (proj1 (energy_entry_contributes cpython
                  (lines ["x a-b-c-d : Energy Consumed = 1.5";
                          "y : Energy Consumed = 1.5"]%string)
                  "Simple"%string metrics
                  (txt "x ") (txt "a-") "b"%char (txt "-c-d") (txt "1.5")
                  (nl :: lines ["y : Energy Consumed = 1.5"]%string)
                  eq_refl eq_refl eq_refl eq_refl eq_refl
                  (le_n 2) ltac:(discriminate) eq_refl
                  eq_refl)).
Defined.

(** * Further properties of the script *)

(** ** One call and the other labels *)

(** Property X1.  A call of [extract_metrics] for a label leaves the entries of every
    other label as they were, in every mapping, after each of its
    assignments and at its end, whether it returns or raises. *)
Theorem extract_metrics_spares_other_labels py content label label' m st :
  label <> label' ->
  forall st',
    In st' (trail (extract_metrics py content label st)
              ++ [final (extract_metrics py content label st)]) ->
    dict_get label' (mapping m st') = dict_get label' (mapping m st).
Proof.
  intros Hl st' Hin.
  destruct (extract_metrics_triple
              (fun s => dict_get label' (mapping m s)
                        = dict_get label' (mapping m st))
              py content label
              (fun m0 v s Hs => eq_trans (lookup_set_other m0 m label label' v s Hl) Hs)
              st eq_refl) as [Hfin Htr].
  apply in_app_or in Hin as [Hin|[<-|[]]]; [|exact Hfin].
  rewrite Forall_forall in Htr. now apply Htr.
Qed.

Lemma extract_metrics_spares_other_labels_witness :
  dict_get "Simple"
    (mapping ExecutionTime
       (final (extract_metrics cpython full_sample_log "Full"
                 (store_set ExecutionTime "Simple" (VInt 7) metrics))))
  = Some (VInt 7).
Proof.
  rewrite (extract_metrics_spares_other_labels cpython full_sample_log
             "Full"%string "Simple"%string ExecutionTime
             (store_set ExecutionTime "Simple" (VInt 7) metrics)).
  - reflexivity.
  - discriminate.
  - apply in_or_app. right. left. reflexivity.
Defined.

(** ** The store at the end of a run *)

(** Property X2.  After a run that returns, each mapping holds exactly what the logs
    yield: for each log that exists, in the order Simple, Learnable,
    Full, the value extracted from its text under its label, and nothing
    else. *)
Theorem returned_store_is_extracted py fs m :
  result (process py fs metrics) = Returned tt ->
  mapping m (final (process py fs metrics)) = expected_mapping py fs m.
Proof.
  intros Hr.
  rewrite <- (entries_ordered labels (mapping m (final (process py fs metrics)))
                labels_nodup) by apply process_ordered.
  assert (Hlook : forall path label, In (path, label) inputs ->
            dict_get label (mapping m (final (process py fs metrics)))
            = match fs path with
              | Some c => extracted py c m
              | None => None
              end).
  { intros path label Hi. rewrite process_loop in *.
    rewrite (process_files_lookup py fs inputs metrics path label m
               labels_nodup Hi Hr).
    assert (H0 : dict_get label (mapping m metrics) = None)
      by (destruct m; reflexivity).
    rewrite H0. destruct (fs path) as [c|]; [|reflexivity].
    now destruct (extracted py c m). }
  unfold expected_mapping, labels, inputs. cbn [map snd flat_map fst].
  rewrite !entries_cons.
  rewrite (Hlook simple_log "Simple"%string) by (simpl; auto).
  rewrite (Hlook learnable_log "Learnable"%string) by (simpl; auto).
  rewrite (Hlook full_log "Full"%string) by (simpl; auto).
  destruct (fs simple_log) as [c1|]; [destruct (extracted py c1 m)|];
    (destruct (fs learnable_log) as [c2|]; [destruct (extracted py c2 m)|]);
    (destruct (fs full_log) as [c3|]; [destruct (extracted py c3 m)|]);
    reflexivity.
Qed.

Lemma returned_store_is_extracted_witness :
  mapping ExecutionTime
    (final (process cpython (only simple_log full_sample_log) metrics))
  = [("Simple"%string, VInt 1234)].
Proof.
  rewrite (returned_store_is_extracted cpython
             (only simple_log full_sample_log) ExecutionTime eq_refl).
  reflexivity.
Defined.

(** ** The first log that fails *)

Lemma extract_metrics_result_any_store py content label label' st st' :
  result (extract_metrics py content label st)
  = result (extract_metrics py content label' st').
Proof. extract_cases py content; reflexivity. Qed.

Lemma process_files_raises py fs ins1 path label ins2 content e st :
  (forall p l c, In (p, l) ins1 -> fs p = Some c -> converts py c = true) ->
  fs path = Some content ->
  result (extract_metrics py content label metrics) = Raised e ->
  result (process_files py fs (ins1 ++ (path, label) :: ins2) st) = Raised e.
Proof.
  revert st; induction ins1 as [|[p l] ins1 IH]; intros st Hok Hp He.
  - simpl. unfold bind, process_file. rewrite Hp.
    rewrite (extract_metrics_result_any_store py content label label st metrics).
    now rewrite He.
  - simpl. unfold bind.
    assert (H1 : result (process_file py fs p l st) = Returned tt).
    { apply process_file_result. intros c Hc. apply (Hok p l c); [now left|exact Hc]. }
    rewrite H1. simpl. apply IH; auto.
    intros p' l' c Hi. apply (Hok p' l' c). now right.
Qed.

(** Property X3.  The run ends with the exception of the first log, in processing
    order, that has a number that does not convert: no file is written,
    and the logs after it are never read, so that what they hold, or
    whether they exist, changes nothing. *)
Theorem first_bad_log_ends_the_run py w fs ins1 path label ins2 content e :
  inputs = ins1 ++ (path, label) :: ins2 ->
  (forall p l c, In (p, l) ins1 -> fs p = Some c -> converts py c = true) ->
  fs path = Some content ->
  result (extract_metrics py content label metrics) = Raised e ->
  status (main py w fs) = Raised e
  /\ written (main py w fs) = []
  /\ forall fs',
       (forall p l, In (p, l) (ins1 ++ [(path, label)]) -> fs' p = fs p) ->
       main py w fs' = main py w fs.
Proof.
  intros Hin Hok Hp He.
  assert (Hmain : forall g,
             (forall p l, In (p, l) (ins1 ++ [(path, label)]) -> g p = fs p) ->
             main py w g = Execution (Raised e) [] []).
  { intros g Hg. unfold main. rewrite process_loop, Hin.
    rewrite (process_files_raises py g ins1 path label ins2 content e metrics).
    - reflexivity.
    - intros p l c Hi Hc. apply (Hok p l c Hi).
      rewrite <- (Hg p l); [exact Hc|]. apply in_or_app. now left.
    - rewrite (Hg path label); [exact Hp|]. apply in_or_app. right. now left.
    - exact He. }
  rewrite (Hmain fs (fun _ _ _ => eq_refl)). repeat split.
  intros fs' Hfs. now apply Hmain.
Qed.

Lemma first_bad_log_ends_the_run_witness :
  status (main cpython writable_dir
            (write learnable_log (txt "Total network usage = 1.2.3")
               (only simple_log full_sample_log)))
  = Raised (ValueError (txt "1.2.3")).
Proof.
  apply (first_bad_log_ends_the_run cpython writable_dir
           (write learnable_log (txt "Total network usage = 1.2.3")
              (only simple_log full_sample_log))
           [(simple_log, "Simple"%string)] learnable_log "Learnable"%string
           [(full_log, "Full"%string)]
           (txt "Total network usage = 1.2.3") (ValueError (txt "1.2.3"))).
  - reflexivity.
  - intros p l c [[= <- <-]|[]] Hc. vm_compute in Hc. injection Hc as <-.
    vm_compute. reflexivity.
  - reflexivity.
  - vm_compute. reflexivity.
Defined.

(** ** What the run writes *)

(** Property X4.  A run whose processing raises writes nothing.  A run
    whose processing returns writes the four output files in the order of
    the script, up to the first one that cannot be opened: it writes all
    four and returns, or it writes the files before that one and ends
    with [OSError].  A run never writes to one of the three logs, which
    are the same after it as before. *)
Theorem run_writes_outputs_only py w fs :
  (forall e, result (process py fs metrics) = Raised e ->
             status (main py w fs) = Raised e /\ written (main py w fs) = [])
  /\ (result (process py fs metrics) = Returned tt ->
      exists rest,
        outputs py (final (process py fs metrics))
        = written (main py w fs) ++ rest
        /\ (forall p, In p (map fst (written (main py w fs))) -> w p = true)
        /\ match rest with
           | [] => status (main py w fs) = Returned tt
           | (p, _) :: _ =>
               w p = false /\ status (main py w fs) = Raised (OSError p)
           end)
  /\ map fst (outputs py (final (process py fs metrics)))
     = ["./results/data/20250730_225303/execution_time.csv";
        "./results/data/20250730_225303/energy_consumption.csv";
        "./results/data/20250730_225303/network_usage.csv";
        "./results/data/20250730_225303/all_metrics.json"]%string
  /\ forall path label,
       In (path, label) inputs ->
       commit (written (main py w fs)) fs path = fs path.
Proof.
  split; [|split; [|split]].
  - intros e He. now rewrite (main_raised py w fs e He).
  - intros Hr. rewrite (main_returned py w fs Hr).
    destruct (write_files_spec w (outputs py (final (process py fs metrics))))
      as (rest & E & Hw & Hrest).
    destruct (write_files w (outputs py (final (process py fs metrics))))
      as [o done]. simpl in *. exists rest. auto.
  - reflexivity.
  - intros path label Hi. rewrite commit_lookup.
    now rewrite (written_spare_inputs py w fs path label Hi).
Qed.

(** Property X5.  When none of the three logs exists and the four files
    can be written, the run returns all the same and writes the four
    files: each CSV file with its header row alone, the JSON file with
    three empty objects.  When the first file cannot be opened, as when
    the results directory does not exist, the run ends with [OSError] and
    writes nothing. *)
Theorem no_log_gives_empty_outputs py w fs :
  fs simple_log = None -> fs learnable_log = None -> fs full_log = None ->
  ((forall p, In p output_paths -> w p = true) ->
   status (main py w fs) = Returned tt
   /\ written (main py w fs)
      = [(csv_path ExecutionTime,
          txt "Simulation Type,execution_time" ++ [cr; nl]);
         (csv_path EnergyConsumption,
          txt "Simulation Type,energy_consumption" ++ [cr; nl]);
         (csv_path NetworkUsage,
          txt "Simulation Type,network_usage" ++ [cr; nl]);
         (json_path, empty_json)])
  /\ (w (csv_path ExecutionTime) = false ->
      status (main py w fs) = Raised (OSError (csv_path ExecutionTime))
      /\ written (main py w fs) = []
      /\ stdout (main py w fs) = []).
Proof.
  intros H1 H2 H3.
  assert (Hp : process py fs metrics = Run (Returned tt) metrics []).
  { unfold process, bind, process_file. now rewrite H1, H2, H3. }
  assert (Hr : result (process py fs metrics) = Returned tt) by now rewrite Hp.
  split.
  - intros Hw. destruct (main_written py w fs Hr) as [Hs Hwr].
    + rewrite Hp. exact Hw.
    + split; [exact Hs|]. rewrite Hwr, Hp. reflexivity.
  - intros Hw. rewrite (main_returned py w fs Hr), Hp.
    cbn [final outputs map all_metrics app write_files].
    rewrite Hw. repeat split.
Qed.

Lemma no_log_gives_empty_outputs_witness :
  status (main cpython absent_dir no_files)
  = Raised (OSError (csv_path ExecutionTime))
  /\ status (main cpython writable_dir no_files) = Returned tt.
Proof.
  split.
  - apply (proj2 (no_log_gives_empty_outputs cpython absent_dir no_files
                    eq_refl eq_refl eq_refl) eq_refl).
  - apply (proj1 (no_log_gives_empty_outputs cpython writable_dir no_files
                    eq_refl eq_refl eq_refl) (fun _ _ => eq_refl)).
Defined.

(** ** The shape of the captured tokens *)

Module Tokens.
Import Re ReFacts ReSearch EnergyPattern.

Lemma first_token_shape l f s tok :
  first_token l f s = Some tok -> tok <> [] /\ forallb f tok = true.
Proof.
  induction s as [|c s IH]; simpl.
  - destruct (token_at l f []) as [t|] eqn:E; [|discriminate].
    intros [= <-]. apply token_at_some in E as (post & _ & Hn & Hr & _). auto.
  - destruct (token_at l f (c :: s)) as [t|] eqn:E; [|exact IH].
    intros [= <-]. apply token_at_some in E as (post & _ & Hn & Hr & _). auto.
Qed.

(** Every element of [findall] is a match at some position. *)
Lemma findall_from_match p k s runs :
  In runs (findall_from p k s) ->
  exists s' rest, match_atoms p s' = Some (runs, rest).
Proof.
  revert k; induction s as [|c s IH]; intros k; [contradiction|].
  cbn [findall_from]. destruct k as [|k]; [|apply IH].
  destruct (match_atoms p (c :: s)) as [[runs' rest]|] eqn:E; [|apply IH].
  intros [<-|Hi]; [eauto|]. eapply IH; eassumption.
Qed.

Lemma energy_match_shape s runs rest :
  match_atoms energy_pattern s = Some (runs, rest) ->
  group_text 2 energy_pattern runs <> []
  /\ forallb is_digit_or_dot (group_text 2 energy_pattern runs) = true.
Proof.
  intros H. rewrite energy_pattern_split in *.
  apply match_app_sound in H as (runs1 & runs2 & mid & -> & _ & Hf & Hm).
  rewrite group_text_app by (now apply Forall2_length in Hf).
  rewrite group_text_none
    by (simpl; intros a [<-|[<-|[<-|[<-|[<-|[]]]]]]; discriminate).
  revert Hm. unfold energy_tail, lit. fold energy_literal.
  rewrite match_lit_atoms.
  destruct (strip energy_literal mid) as [r|]; [|discriminate].
  rewrite match_last_plus.
  pose proof (span_run is_digit_or_dot r) as Hr.
  destruct (span is_digit_or_dot r) as [run rest']. simpl in Hr.
  destruct run as [|c run]; [discriminate|]. simpl is_nil. cbv iota.
  intros [= <- <-].
  change (group_text 2
            (lit_atoms energy_literal
             ++ [Atom is_digit_or_dot Plus 2])
            (singles energy_literal ++ [c :: run])
          <> []
          /\ forallb is_digit_or_dot
               (group_text 2
                  (lit_atoms energy_literal
                   ++ [Atom is_digit_or_dot Plus 2])
                  (singles energy_literal ++ [c :: run])) = true).
  rewrite group_text_lit by discriminate.
  cbn [group_text group Nat.eqb]. rewrite app_nil_r.
  split; [discriminate|exact Hr].
Qed.

End Tokens.

Lemma time_token_shape content ds :
  time_token content = Some ds -> ds <> [] /\ forallb is_digit ds = true.
Proof. rewrite time_token_first. apply Tokens.first_token_shape. Qed.

Lemma network_token_shape content tok :
  network_token content = Some tok ->
  tok <> [] /\ forallb is_digit_or_dot tok = true.
Proof. rewrite network_token_first. apply Tokens.first_token_shape. Qed.

Lemma energy_token_shape content tok :
  In tok (energy_tokens content) ->
  tok <> [] /\ forallb is_digit_or_dot tok = true.
Proof.
  intros Hi. unfold energy_tokens, Re.findall in Hi.
  apply in_map_iff in Hi as (runs & <- & Hi).
  apply Tokens.findall_from_match in Hi as (s' & rest & Hm).
  now apply Tokens.energy_match_shape in Hm.
Qed.

(** Property X6.  Whatever the text, a captured execution-time token is a non-empty
    string of digits, and a captured energy or network-usage token is a
    non-empty string of digits and dots: no sign, no exponent, no blank
    ever reaches [int] or [float]. *)
Theorem captured_tokens_are_runs content :
  (forall ds, time_token content = Some ds ->
              ds <> [] /\ forallb is_digit ds = true)
  /\ (forall tok, In tok (energy_tokens content) ->
                  tok <> [] /\ forallb is_digit_or_dot tok = true)
  /\ (forall tok, network_token content = Some tok ->
                  tok <> [] /\ forallb is_digit_or_dot tok = true).
Proof.
  split; [|split].
  - intros ds. apply time_token_shape.
  - intros tok. apply energy_token_shape.
  - intros tok. apply network_token_shape.
Qed.

(** ** When a call raises *)

Lemma digit_no_dot c : is_digit c = true -> Ascii.eqb c "." = false.
Proof.
  destruct (Ascii.eqb c ".") eqn:E; [|reflexivity].
  apply Ascii.eqb_eq in E; subst c. discriminate.
Qed.

Lemma dots_app a b : dots (a ++ b) = (dots a + dots b)%nat.
Proof. unfold dots. now rewrite filter_app, length_app. Qed.

Lemma dots_digits t : forallb is_digit t = true -> dots t = 0%nat.
Proof.
  unfold dots. induction t as [|c t IH]; [reflexivity|]. simpl.
  intros H. apply andb_true_iff in H as [Hc Ht].
  rewrite (digit_no_dot c Hc). now apply IH.
Qed.

Lemma digits_have_digit t :
  forallb is_digit t = true -> existsb is_digit t = negb (is_nil t).
Proof.
  destruct t as [|c t]; [reflexivity|]. simpl.
  intros H. apply andb_true_iff in H as [Hc _]. now rewrite Hc.
Qed.

Lemma all_digits_no_dots t :
  forallb is_digit_or_dot t = true ->
  forallb is_digit t = Nat.eqb (dots t) 0.
Proof.
  unfold dots. induction t as [|c t IH]; [reflexivity|]. simpl.
  intros H. apply andb_true_iff in H as [Hc Ht]. unfold is_digit_or_dot in Hc.
  destruct (is_digit c) eqn:Hd.
  - rewrite (digit_no_dot c Hd). simpl. now apply IH.
  - simpl in Hc. rewrite Hc. reflexivity.
Qed.

(** On a string of digits and dots, [float] returns exactly when the
    string has at most one dot and at least one digit. *)
Lemma py_float_literal tok :
  forallb is_digit_or_dot tok = true ->
  is_inr (py_float tok) = float_literal tok.
Proof.
  intros Hall. unfold py_float, float_literal.
  pose proof (span_eq is_digit tok) as He.
  pose proof (span_run is_digit tok) as Hr.
  pose proof (span_stops is_digit tok) as Hs.
  destruct (span is_digit tok) as [ip r]. simpl in He, Hr, Hs. subst tok.
  rewrite dots_app, (dots_digits ip Hr), existsb_app,
    (digits_have_digit ip Hr). simpl Nat.add.
  rewrite forallb_app in Hall. apply andb_true_iff in Hall as [_ Hall].
  destruct r as [|c fp].
  - simpl. now destruct (is_nil ip).
  - simpl in Hs, Hall. apply andb_true_iff in Hall as [Hc Hfp].
    unfold is_digit_or_dot in Hc. rewrite Hs in Hc. simpl in Hc.
    rewrite Hc. cbn [andb].
    change (dots (c :: fp)) with (dots ([c] ++ fp)). rewrite dots_app.
    unfold dots at 1. cbn [filter]. rewrite Hc. cbn [List.length Nat.add].
    cbn [existsb]. rewrite Hs. cbn [orb].
    rewrite (all_digits_no_dots fp Hfp).
    destruct (dots fp) as [|n] eqn:Hd.
    + assert (Hdig : forallb is_digit fp = true)
        by (rewrite (all_digits_no_dots fp Hfp), Hd; reflexivity).
      rewrite (digits_have_digit fp Hdig). cbn.
      now destruct (is_nil ip), (is_nil fp).
    + cbn. reflexivity.
Qed.

Lemma py_floats_all toks :
  is_inr (py_floats toks) = forallb (fun t => is_inr (py_float t)) toks.
Proof.
  induction toks as [|tok toks IH]; [reflexivity|]. simpl.
  destruct (py_float tok); [reflexivity|]. simpl. rewrite <- IH.
  now destruct (py_floats toks).
Qed.

Lemma forallb_agree {A} (f g : A -> bool) l :
  (forall x, In x l -> f x = g x) -> forallb f l = forallb g l.
Proof.
  induction l as [|x l IH]; [reflexivity|]. simpl. intros H.
  rewrite (H x) by now left. rewrite IH; [reflexivity|].
  intros y Hy. apply H. now right.
Qed.

Lemma py_int_within_limit py ds : is_inr (py_int py ds) = within_limit py ds.
Proof.
  unfold py_int, within_limit. destruct (max_str_digits py) as [|n];
    [reflexivity|].
  rewrite Nat.leb_antisym. now destruct (Nat.ltb (S n) (List.length ds)).
Qed.

(** Property X7.  A call of [extract_metrics] returns exactly when the execution-time
    digits, if any, are within the limit of [int], every energy token has
    at most one dot and at least one digit, and so has the network-usage
    token, if any.  In every other case it raises [ValueError]. *)
Theorem call_returns_iff_literals py content label st :
  result (extract_metrics py content label st) = Returned tt
  <-> (match time_token content with
       | Some ds => within_limit py ds
       | None => true
       end
       && forallb float_literal (energy_tokens content)
       && match network_token content with
          | Some tok => float_literal tok
          | None => true
          end)%bool = true.
Proof.
  rewrite extract_metrics_result.
  unfold converts, time_converts, energy_converts, network_converts.
  pose proof (energy_token_shape content) as He.
  pose proof (network_token_shape content) as Hn.
  assert (E1 : match time_token content with
               | Some ds => is_inr (py_int py ds)
               | None => true
               end
               = match time_token content with
                 | Some ds => within_limit py ds
                 | None => true
                 end).
  { destruct (time_token content); [apply py_int_within_limit|reflexivity]. }
  assert (E2 : is_inr (py_floats (energy_tokens content))
               = forallb float_literal (energy_tokens content)).
  { rewrite py_floats_all. apply forallb_agree.
    intros tok Hi. apply py_float_literal. now apply He. }
  assert (E3 : match network_token content with
               | Some tok => is_inr (py_float tok)
               | None => true
               end
               = match network_token content with
                 | Some tok => float_literal tok
                 | None => true
                 end).
  { destruct (network_token content) as [tok|] eqn:E; [|reflexivity].
    apply py_float_literal. now apply (Hn tok). }
  rewrite E1, E2, E3. reflexivity.
Qed.

(** ** The sign of the stored numbers *)

Module Signs.

Lemma has_sign_nonneg f : has_sign false f -> nonneg_float f = true.
Proof. destruct f as [[]|[]| |[] m e]; simpl; intros H; congruence || tauto. Qed.

Lemma nonneg_has_sign f : nonneg_float f = true -> has_sign false f.
Proof. destruct f as [[]|[]| |[] m e]; simpl; intros H; congruence. Qed.

Lemma shr_1_nonneg mrs : 0 <= shr_m mrs -> 0 <= shr_m (shr_1 mrs).
Proof.
  destruct mrs as [m r s]. destruct m as [|p|p]; simpl; [lia| |lia].
  destruct p; simpl; lia.
Qed.

Lemma iter_pos_keeps {A : Type} (P : A -> Prop) (f : A -> A) :
  (forall x, P x -> P (f x)) -> forall n x, P x -> P (iter_pos f n x).
Proof.
  intros Hf. induction n as [n IH|n IH|]; intros x Hx; simpl; auto.
Qed.

Lemma shr_nonneg mrs e n :
  0 <= shr_m mrs -> 0 <= shr_m (fst (shr mrs e n)).
Proof.
  intros H. unfold shr. destruct n as [|p|p]; simpl; auto.
  apply (iter_pos_keeps (fun x => 0 <= shr_m x)); [apply shr_1_nonneg|exact H].
Qed.

Lemma shr_fexp_nonneg m e l :
  0 <= m -> 0 <= shr_m (fst (shr_fexp prec emax m e l)).
Proof.
  intros H. unfold shr_fexp. apply shr_nonneg.
  destruct l as [|[]]; exact H.
Qed.

Lemma round_nearest_even_nonneg m l :
  0 <= m -> 0 <= round_nearest_even m l.
Proof.
  intros H. destruct l as [|[]]; simpl; try lia.
  destruct (Z.even m); lia.
Qed.

(** Rounding a non-negative mantissa gives a number of the sign asked
    for, never a NaN. *)
Lemma binary_round_aux_sign sx mx ex lx :
  0 <= mx -> has_sign sx (binary_round_aux prec emax sx mx ex lx).
Proof.
  intros H. unfold binary_round_aux.
  pose proof (shr_fexp_nonneg mx ex lx H) as H1.
  destruct (shr_fexp prec emax mx ex lx) as [mrs' e']. simpl in H1.
  pose proof (shr_fexp_nonneg
                (round_nearest_even (shr_m mrs') (loc_of_shr_record mrs'))
                e' loc_Exact
                (round_nearest_even_nonneg _ _ H1)) as H2.
  destruct (shr_fexp prec emax
              (round_nearest_even (shr_m mrs') (loc_of_shr_record mrs'))
              e' loc_Exact) as [mrs'' e'']. simpl in H2.
  destruct (shr_m mrs'') as [|p|p]; [exact eq_refl| |lia].
  destruct (Z.leb e'' (emax - prec)); exact eq_refl.
Qed.

Lemma binary_round_sign sx mx ex :
  has_sign sx (binary_round prec emax sx mx ex).
Proof.
  unfold binary_round.
  destruct (shl_align mx ex (fexp prec emax (Z.pos (digits2_pos mx) + ex)))
    as [mz ez].
  apply binary_round_aux_sign. lia.
Qed.

Lemma decimal_float_nonneg m e10 : nonneg_float (decimal_float false m e10) = true.
Proof.
  apply has_sign_nonneg. unfold decimal_float.
  destruct m as [|p|p]; [exact eq_refl| |exact eq_refl].
  destruct (0 <=? e10) eqn:E.
  - apply Z.leb_le in E.
    assert (Hp : 0 < Z.pos p * 10 ^ e10)
      by (apply Z.mul_pos_pos; [lia|apply Z.pow_pos_nonneg; lia]).
    unfold binary_normalize. destruct (Z.pos p * 10 ^ e10) as [|q|q];
      [exact eq_refl|apply binary_round_sign|lia].
  - unfold SFdiv, SFdiv_core_binary.
    set (m2 := Z.pos (Z.to_pos (10 ^ (- e10)))).
    set (m' := match _ - _ - _ with
               | Z0 => _
               | Zpos _ => _
               | Zneg _ => _
               end).
    assert (Hm' : 0 <= m').
    { subst m'. destruct (_ - _ - _);
        [lia|apply Z.shiftl_nonneg; lia|lia]. }
    pose proof (Z.div_pos m' m2 Hm' ltac:(subst m2; lia)) as Hq.
    unfold Z.div in Hq. destruct (Z.div_eucl m' m2) as [q r].
    apply binary_round_aux_sign. exact Hq.
Qed.

Lemma py_float_nonneg tok f : py_float tok = inr f -> nonneg_float f = true.
Proof.
  unfold py_float. destruct (span is_digit tok) as [ip r].
  destruct r as [|c fp].
  - destruct (is_nil ip); [discriminate|]. intros [= <-].
    apply decimal_float_nonneg.
  - destruct (_ && _)%bool; [|discriminate]. intros [= <-].
    apply decimal_float_nonneg.
Qed.

Lemma py_floats_nonneg toks fs :
  py_floats toks = inr fs -> forallb nonneg_float fs = true.
Proof.
  revert fs; induction toks as [|tok toks IH]; simpl; intros fs.
  - now intros [= <-].
  - destruct (py_float tok) as [|f] eqn:E; [discriminate|].
    destruct (py_floats toks) as [|fs']; [discriminate|].
    intros [= <-]. simpl. now rewrite (py_float_nonneg tok f E), (IH fs').
Qed.

(** The sum of two numbers that are not negative is not negative. *)
Lemma fadd_nonneg a b :
  nonneg_float a = true -> nonneg_float b = true ->
  nonneg_float (fadd a b) = true.
Proof.
  intros Ha Hb. apply has_sign_nonneg.
  destruct a as [[]|[]| |[] ma ea]; try discriminate;
    destruct b as [[]|[]| |[] mb eb]; try discriminate;
    try exact eq_refl.
  unfold fadd, SFadd, cond_Zopp.
  change (Z.pos (fst (shl_align ma ea (Z.min ea eb)))
          + Z.pos (fst (shl_align mb eb (Z.min ea eb))))
    with (Z.pos (fst (shl_align ma ea (Z.min ea eb))
                 + fst (shl_align mb eb (Z.min ea eb)))).
  apply binary_round_sign.
Qed.

Lemma fold_fadd_nonneg fs f :
  nonneg_float f = true -> forallb nonneg_float fs = true ->
  nonneg_float (fold_left fadd fs f) = true.
Proof.
  revert f; induction fs as [|x fs IH]; intros f Hf Hfs; [exact Hf|].
  simpl in *. apply andb_true_iff in Hfs as [Hx Hfs].
  apply IH; [now apply fadd_nonneg|exact Hfs].
Qed.

Lemma py_sum_nonneg py fs :
  compensated_sum py = false -> forallb nonneg_float fs = true ->
  nonneg_value (py_sum py fs) = true.
Proof.
  intros Hc Hfs. unfold py_sum. destruct fs as [|x fs]; [reflexivity|].
  rewrite Hc. simpl in Hfs. apply andb_true_iff in Hfs as [Hx Hfs].
  unfold nonneg_value. apply fold_fadd_nonneg; [|exact Hfs].
  apply fadd_nonneg; [exact eq_refl|exact Hx].
Qed.

Lemma digits_value_nonneg ds :
  forallb is_digit ds = true -> 0 <= digits_value ds.
Proof.
  unfold digits_value.
  assert (H : forall acc, 0 <= acc -> forallb is_digit ds = true ->
                          0 <= fold_left (fun a c => 10 * a + digit_value c) ds acc).
  { induction ds as [|c ds IH]; intros acc Ha Hd; [exact Ha|].
    cbn [forallb fold_left] in *.
    apply andb_true_iff in Hd as [Hc Hd]. apply IH; [|exact Hd].
    unfold is_digit, between in Hc. apply andb_true_iff in Hc as [Hlo _].
    apply N.leb_le in Hlo. unfold digit_value.
    remember (code c) as n. lia. }
  apply H. lia.
Qed.

End Signs.

(** Property X8.  After a run that returns, no stored number is negative or NaN: an
    execution time is an integer from 0 up, a network usage is a float
    that is zero, positive or plus infinity, and so is an energy total
    when [sum] adds plainly from the left. *)
Theorem stored_numbers_are_not_negative py fs m label v :
  result (process py fs metrics) = Returned tt ->
  dict_get label (mapping m (final (process py fs metrics))) = Some v ->
  (m = EnergyConsumption -> compensated_sum py = false) ->
  nonneg_value v = true.
Proof.
  intros Hr Hg Hsum.
  destruct (stored_origin py fs m label v Hr Hg)
    as (path & content & _ & _ & He).
  pose proof (time_token_shape content) as Ht.
  destruct m; simpl in He.
  - destruct (time_token content) as [ds|] eqn:E; [|discriminate].
    injection He as <-. simpl. apply Z.leb_le.
    apply Signs.digits_value_nonneg. now apply (Ht ds).
  - destruct (py_floats (energy_tokens content)) as [|fl] eqn:E;
      [discriminate|]. injection He as <-.
    apply Signs.py_sum_nonneg; [now apply Hsum|].
    now apply (Signs.py_floats_nonneg (energy_tokens content)).
  - destruct (network_token content) as [tok|]; [|discriminate].
    destruct (py_float tok) as [|f] eqn:E; [discriminate|].
    injection He as <-. simpl. now apply (Signs.py_float_nonneg tok).
Qed.

Lemma stored_numbers_are_not_negative_witness :
  nonneg_value (VFloat four) = true.
Proof.
  apply (stored_numbers_are_not_negative cpython
           (only simple_log full_sample_log) EnergyConsumption
           "Simple"%string (VFloat four)).
  - reflexivity.
  - vm_compute. reflexivity.
  - reflexivity.
Defined.

(** ** A single energy entry *)




(** ** The bytes of [execution_time.csv] *)

Lemma in_dict_get k v d :
  NoDup (keys d) -> In (k, v) d -> dict_get k d = Some v.
Proof.
  induction d as [|[k' v'] d IH]; [contradiction|]. simpl.
  intros Hn Hi. inversion Hn as [|? ? Hk Hn']; subst.
  destruct Hi as [[= -> ->]|Hi].
  - now rewrite String.eqb_refl.
  - destruct (String.eqb k k') eqn:E; [|now apply IH].
    apply String.eqb_eq in E; subst k'. exfalso. apply Hk.
    now apply (in_map fst) in Hi.
Qed.

Lemma flat_map_map_agree {A B C : Type} (f : A -> B) (g : B -> list C)
      (h : A -> list C) (l : list A) :
  (forall x, In x l -> g (f x) = h x) ->
  flat_map g (map f l) = flat_map h l.
Proof.
  induction l as [|x l IH]; [reflexivity|]. simpl. intros H.
  rewrite (H x) by now left. rewrite IH; [reflexivity|].
  intros y Hy. apply H. now right.
Qed.

(** Property X10.  Once the logs have been processed, [execution_time.csv],
    the first file to be written, is written if it can be opened, and so
    after every run that returns: it is the header line and then one line
    per entry, the label, a comma and the digits of the integer, each
    line ended by CR LF.  No field of this file is ever quoted. *)
Theorem execution_time_csv_is_plain py w fs :
  result (process py fs metrics) = Returned tt ->
  w (csv_path ExecutionTime) = true ->
  In (csv_path ExecutionTime,
      txt "Simulation Type,execution_time" ++ [cr; nl]
      ++ flat_map (fun kv => txt (fst kv) ++ txt "," ++ py_str py (snd kv)
                             ++ [cr; nl])
           (execution_time (final (process py fs metrics))))
     (written (main py w fs)).
Proof.
  intros Hr Hw. rewrite (main_returned py w fs Hr).
  match goal with
  | |- In (_, ?t) _ =>
      assert (E : t = csv_text py
                        (csv_rows ExecutionTime
                           (mapping ExecutionTime
                              (final (process py fs metrics)))));
        [|rewrite E;
          pose proof (write_files_head w (csv_path ExecutionTime)
                        (csv_text py
                           (csv_rows ExecutionTime
                              (mapping ExecutionTime
                                 (final (process py fs metrics)))))
                        (map (fun m =>
                                (csv_path m,
                                 csv_text py
                                   (csv_rows m
                                      (mapping m
                                         (final (process py fs metrics))))))
                             [EnergyConsumption; NetworkUsage]
                         ++ [(json_path,
                              json_text py (final (process py fs metrics)))])
                        Hw) as Hin;
          change ((csv_path ExecutionTime, _) :: _)
            with (outputs py (final (process py fs metrics))) in Hin;
          destruct (write_files w (outputs py (final (process py fs metrics))));
          exact Hin]
  end.
  symmetry.
  change (mapping ExecutionTime (final (process py fs metrics)))
    with (execution_time (final (process py fs metrics))).
  unfold csv_rows, csv_text. cbn [flat_map].
  change (csv_line py [CStr "Simulation Type"; CStr (metric_name ExecutionTime)])
    with (txt "Simulation Type,execution_time" ++ [cr; nl]).
  rewrite <- app_assoc. f_equal. cbn [app]. do 2 f_equal.
  apply flat_map_map_agree. intros [k v] Hin.
  assert (Hn : NoDup (keys (execution_time (final (process py fs metrics))))).
  { apply (subseq_nodup _ labels); [|apply labels_nodup].
    apply (proj1 (process_ordered py fs) ExecutionTime). }
  apply (in_dict_get _ _ _ Hn) in Hin.
  destruct (stored_origin py fs ExecutionTime k v Hr Hin)
    as (path & content & Hi & _ & He).
  cbn [extracted] in He.
  destruct (time_token content) as [ds|]; [|discriminate].
  injection He as <-.
  unfold csv_line. cbn [map cell_text join fst snd py_str].
  rewrite (csv_field_plain (int_repr (digits_value ds)))
    by apply int_repr_not_special.
  assert (Hl : csv_field (txt k) = txt k).
  { unfold inputs in Hi. simpl in Hi.
    destruct Hi as [[= <- <-]|[[= <- <-]|[[= <- <-]|[]]]]; reflexivity. }
  rewrite Hl. now rewrite <- !app_assoc.
Qed.

Lemma execution_time_csv_is_plain_witness :
  In (csv_path ExecutionTime,
      txt "Simulation Type,execution_time" ++ [cr; nl]
      ++ txt "Simple,1234" ++ [cr; nl])
     (written (main cpython writable_dir (only simple_log full_sample_log))).
Proof.
  exact (execution_time_csv_is_plain cpython writable_dir
           (only simple_log full_sample_log) eq_refl eq_refl).
Defined.

(** ** An entry after a line break *)

(** Property X11.  The usual place of an entry is the start of a line:
    its name follows a character that no match of the energy pattern can
    contain, such as a line break.  Such an entry is matched once, at its
    place, under the conditions on its name and its number alone: the
    tokens of the text are those of the matches that start before the
    name, then the number, then the tokens of the text after it. *)
Theorem entry_after_separator_is_matched pre sep u w v num post :
  pattern_char energy_pattern sep = false ->
  forallb is_name_char u = true ->
  is_word w = true -> forallb is_name_char v = true ->
  (hyphens v <= 2)%nat ->
  num <> [] -> forallb is_digit_or_dot num = true ->
  stops is_digit_or_dot post ->
  let content :=
    (pre ++ [sep]) ++ (u ++ w :: v) ++ energy_literal ++ num ++ post in
  energy_tokens content
  = energy_tokens_within (List.length (pre ++ [sep])) content
    ++ num :: energy_tokens post.
Proof.
  intros Hsep Hu Hw Hv Hy Hn Hr Hs content.
  unfold energy_tokens, energy_tokens_within, Re.findall. subst content.
  rewrite (Scan.scan_clear energy_pattern (pre ++ [sep]) _ 0
             (Scan.separator_clear energy_pattern sep pre _ Hsep)
             (Nat.le_0_l _)).
  destruct (Scan.scan_entry u w v num post Hu Hw Hv Hy Hn Hr Hs)
    as (runs & -> & Hg).
  rewrite map_app. cbn [map]. now rewrite Hg.
Qed.

Lemma entry_after_separator_is_matched_witness :
  energy_tokens
    (lines ["EXECUTION TIME : 12"; "task-1 : Energy Consumed = 1.5"]%string)
  = [] ++ [txt "1.5"].
Proof.
  exact (entry_after_separator_is_matched
           (txt "EXECUTION TIME : 12") nl [] "t"%char (txt "ask-1")
           (txt "1.5") [nl]
           eq_refl eq_refl eq_refl eq_refl (le_S _ _ (le_n 1))
           ltac:(discriminate) eq_refl eq_refl).
Defined.

(** ** Names beyond ASCII *)

(** Property X12.  The word class of [re] is that of Unicode: an entry
    whose name is a letter beyond ASCII, such as [e] with an acute
    accent (code 233), is matched like any other. *)
Theorem latin1_name_is_matched c num post :
  is_latin1_word c = true ->
  num <> [] -> forallb is_digit_or_dot num = true ->
  stops is_digit_or_dot post ->
  energy_tokens (c :: energy_literal ++ num ++ post)
  = num :: energy_tokens post.
Proof.
  intros Hc Hn Hr Hs.
  assert (Hw : is_word c = true).
  { unfold is_word. rewrite Hc. now rewrite !orb_true_r. }
  destruct (Scan.scan_entry [] c [] num post eq_refl Hw eq_refl
              (Nat.le_0_l _) Hn Hr Hs) as (runs & Hf & Hg).
  unfold energy_tokens, Re.findall. cbn [app] in Hf. rewrite Hf.
  cbn [map]. now rewrite Hg.
Qed.

Lemma latin1_name_is_matched_witness :
  energy_tokens ("233"%char :: energy_literal ++ txt "1.5" ++ [])
  = txt "1.5" :: energy_tokens [].
Proof.
  exact (latin1_name_is_matched "233"%char (txt "1.5") []
           eq_refl ltac:(discriminate) eq_refl I).
Defined.

(** ** Numbers in the CSV files *)

(** Property X13.  With the short [float.__repr__], the writer never
    quotes a number: the field of an integer is its digits, that of a
    float its repr, which is a float literal (or [inf] or [nan]). *)
Theorem number_fields_are_plain py v :
  float_repr py = short_repr ->
  csv_field (py_str py v) = py_str py v
  /\ match v with
     | VInt z => py_str py v = int_repr z
     | VFloat (S754_finite s m e) =>
         exists g, json_decode_number (py_str py v) = Some (VFloat g)
                   /\ (repr_found (S754_finite s m e) = true ->
                       g = S754_finite s m e)
     | VFloat f => py_str py v = short_repr f
     end.
Proof.
  intros Hpy. split; [now apply number_field_plain|].
  destruct v as [z|f]; cbn [py_str]; [reflexivity|].
  rewrite Hpy. destruct f as [s|s| |s m e]; try reflexivity.
  destruct (ShortRepr.short_repr_text s m e) as (p & x & Ht).
  destruct (ShortRepr.decimal_text_float s p x) as [g Hg].
  rewrite <- Ht in Hg. exists g. split; [exact Hg|]. intros Hfound.
  rewrite ShortRepr.short_repr_exact in Hg; [congruence|].
  unfold repr_found in Hfound.
  destruct (shortest s m e (decimal_point m e) 1 17); congruence.
Qed.

Lemma number_fields_are_plain_witness :
  csv_field (py_str cpython (VFloat four)) = py_str cpython (VFloat four).
Proof.
  exact (proj1 (number_fields_are_plain cpython (VFloat four) eq_refl)).
Defined.
